(** * Hymn Haven (script.js): annotation store, projections and card rendering

    A shallow embedding of the parts of [script.js] that hold the three
    persisted annotation collections (favorites, notes, moods), compute the
    lists shown in the four containers, and build the hymn cards.

    JavaScript values are restricted to the JSON fragment, with integers for
    numbers and byte strings for text (exact for ASCII); the platform
    functions [JSON.parse] and [JSON.stringify] are modelled by an executable
    lexer, parser and printer. Exceptions are explicit: every operation that
    can throw returns a [result]. *)

From Stdlib Require Import ZArith List String Ascii Bool Lia DecimalString DecimalN.
From stdpp Require Import gmap strings.
Import ListNotations.
Local Open Scope string_scope.
Local Open Scope list_scope.

(** ** Characters and strings *)

Definition dquote : ascii := "034"%char.
Definition backslash : ascii := "092"%char.
Definition newline : ascii := "010"%char.

(** A one-character string, and a double-quoted string. *)
Definition str1 (c : ascii) : string := String c EmptyString.
Definition quoted (s : string) : string := str1 dquote +:+ s +:+ str1 dquote.

(** [dq s] is [s] with a double quote for every apostrophe: the HTML and JSON
    texts below are written with apostrophes where the source has double
    quotes. *)
Fixpoint dq (s : string) : string :=
  match s with
  | EmptyString => EmptyString
  | String c s' => String (if Ascii.eqb c "'" then dquote else c) (dq s')
  end.

Definition is_digit (c : ascii) : bool :=
  (48 <=? N_of_ascii c)%N && (N_of_ascii c <=? 57)%N.

(** White space removed by [String.prototype.trim] (ASCII part). *)
Definition is_space (c : ascii) : bool :=
  let n := N_of_ascii c in
  ((9 <=? n)%N && (n <=? 13)%N) || (n =? 32)%N.

Fixpoint trimStart (s : string) : string :=
  match s with
  | EmptyString => EmptyString
  | String c s' => if is_space c then trimStart s' else s
  end.

Fixpoint trimEnd (s : string) : string :=
  match s with
  | EmptyString => EmptyString
  | String c s' =>
      match trimEnd s' with
      | EmptyString => if is_space c then EmptyString else str1 c
      | r => String c r
      end
  end.

Definition trim (s : string) : string := trimEnd (trimStart s).

Definition lower_char (c : ascii) : ascii :=
  let n := N_of_ascii c in
  if (65 <=? n)%N && (n <=? 90)%N then ascii_of_N (n + 32) else c.

(** [s.toLowerCase()] on ASCII text: the letters A to Z are lowered and every
    other byte is kept. *)
Fixpoint toLowerCase (s : string) : string :=
  match s with
  | EmptyString => EmptyString
  | String c s' => String (lower_char c) (toLowerCase s')
  end.

(** [includes s sub]: [s.includes(sub)]. *)
Fixpoint includes (s sub : string) : bool :=
  String.prefix sub s ||
  match s with
  | EmptyString => false
  | String _ s' => includes s' sub
  end.

Fixpoint repeat_char (n : nat) (c : ascii) : string :=
  match n with
  | O => EmptyString
  | S n' => String c (repeat_char n' c)
  end.

(** [padStart n c s]: [s.padStart(n, c)] for a one-character filler. *)
Definition padStart (n : nat) (c : ascii) (s : string) : string :=
  repeat_char (n - String.length s) c +:+ s.

Definition N_to_string (n : N) : string := NilEmpty.string_of_uint (N.to_uint n).

(** [String(z)] for an integer [z]. *)
Definition Z_to_string (z : Z) : string :=
  match z with
  | Z0 => "0"
  | Zpos p => N_to_string (Npos p)
  | Zneg p => String "-" (N_to_string (Npos p))
  end.

(** ** JavaScript values (JSON fragment) *)

#[local] Unset Elimination Schemes.
Inductive value : Type :=
| VNull
| VBool (b : bool)
| VNum (z : Z)
| VStr (s : string)
| VArr (l : list value)
| VObj (m : list (string * value)).
#[local] Set Elimination Schemes.

(** An object is its list of own properties in property order. *)
Abbreviation props := (list (string * value)).

(** Thrown values: the two built-in error kinds the code can meet, a generic
    [Error], and [OutsideModel] for a step whose effect is not a JSON value
    (a property written on an array or on a primitive) or that reads a catalog
    item which is not a hymn record. *)
Inductive error : Type :=
| SyntaxError
| TypeError
| Error
| OutsideModel.

Inductive result (A : Type) : Type :=
| Ok (a : A)
| Throw (e : error).
Arguments Ok {A} a.
Arguments Throw {A} e.

Definition rbind {A B} (r : result A) (k : A -> result B) : result B :=
  match r with
  | Ok a => k a
  | Throw e => Throw e
  end.

Notation "'do' x <- e ; k" := (rbind e (fun x => k))
  (at level 10, x name, e at level 100, k at level 200).

(** ToBoolean. *)
Definition truthy (v : value) : bool :=
  match v with
  | VNull => false
  | VBool b => b
  | VNum z => negb (z =? 0)%Z
  | VStr s => negb (String.eqb s "")
  | VArr _ | VObj _ => true
  end.

(** [a || b]. *)
Definition js_or (a b : value) : value := if truthy a then a else b.

(** [v === "s"] for a string [s]. *)
Definition strict_eq_str (v : option value) (s : string) : bool :=
  match v with
  | Some (VStr s') => String.eqb s' s
  | _ => false
  end.

(** [v === z] for a number [z]. *)
Definition strict_eq_num (v : value) (z : Z) : bool :=
  match v with
  | VNum z' => (z' =? z)%Z
  | _ => false
  end.

Definition Array_isArray (v : option value) : bool :=
  match v with
  | Some (VArr _) => true
  | _ => false
  end.

(** *** Own properties in property order

    Array-index keys come first in ascending numeric order, the other keys
    follow in insertion order. *)

Definition array_index (k : string) : option N :=
  match NilEmpty.uint_of_string k with
  | Some d =>
      let n := N.of_uint d in
      if String.eqb (N_to_string n) k && (n <? 4294967295)%N then Some n else None
  | None => None
  end.

Fixpoint obj_get (k : string) (m : props) : option value :=
  match m with
  | [] => None
  | (k', v) :: r => if String.eqb k' k then Some v else obj_get k r
  end.

Definition obj_has (k : string) (m : props) : bool :=
  existsb (fun kv => String.eqb (fst kv) k) m.

Fixpoint obj_replace (k : string) (v : value) (m : props) : props :=
  match m with
  | [] => []
  | (k', v') :: r =>
      if String.eqb k' k then (k', v) :: r else (k', v') :: obj_replace k v r
  end.

Fixpoint obj_insert_index (n : N) (k : string) (v : value) (m : props) : props :=
  match m with
  | [] => [(k, v)]
  | (k', v') :: r =>
      match array_index k' with
      | Some n' =>
          if (n' <? n)%N then (k', v') :: obj_insert_index n k v r
          else (k, v) :: m
      | None => (k, v) :: m
      end
  end.

(** [o[k] = v] on a plain object. *)
Definition obj_set (k : string) (v : value) (m : props) : props :=
  if obj_has k m then obj_replace k v m
  else
    match array_index k with
    | Some n => obj_insert_index n k v m
    | None => m ++ [(k, v)]
    end.

(** [delete o[k]] on a plain object. *)
Definition obj_delete (k : string) (m : props) : props :=
  List.filter (fun kv => negb (String.eqb (fst kv) k)) m.

(** ** JSON.parse and JSON.stringify

    The text is lexed by a one-pass state machine and the tokens are parsed
    by recursive descent. Numbers are the integer numerals of the JSON
    grammar. *)

Inductive token : Type :=
| TLBrace | TRBrace | TLBrack | TRBrack | TColon | TComma
| TNull | TTrue | TFalse
| TNum (z : Z)
| TStr (s : string).

Inductive lmode : Type :=
| MTop
| MNum (neg : bool) (ds : string)
| MStr (acc : string)
| MEsc (acc : string)
| MUni (acc : string) (k : nat) (n : N)
| MKw (rest : string) (t : token).

Definition is_json_ws (c : ascii) : bool :=
  let n := N_of_ascii c in
  (n =? 32)%N || (n =? 9)%N || (n =? 10)%N || (n =? 13)%N.

Definition hex_val (c : ascii) : option N :=
  let n := N_of_ascii c in
  if (48 <=? n)%N && (n <=? 57)%N then Some (n - 48)%N
  else if (97 <=? n)%N && (n <=? 102)%N then Some (n - 87)%N
  else if (65 <=? n)%N && (n <=? 70)%N then Some (n - 55)%N
  else None.

Definition hex_digit (n : N) : ascii :=
  if (n <? 10)%N then ascii_of_N (48 + n) else ascii_of_N (87 + n).

(** UTF-8 bytes of a code unit given by a [\u] escape. *)
Definition utf8 (n : N) : string :=
  if (n <? 128)%N then str1 (ascii_of_N n)
  else if (n <? 2048)%N then
    String (ascii_of_N (192 + n / 64)) (str1 (ascii_of_N (128 + n mod 64)))
  else
    String (ascii_of_N (224 + n / 4096))
      (String (ascii_of_N (128 + (n / 64) mod 64))
         (str1 (ascii_of_N (128 + n mod 64)))).

Definition finish_num (neg : bool) (ds : string) : option token :=
  match NilEmpty.uint_of_string ds with
  | Some d =>
      let n := N.of_uint d in
      if String.eqb (N_to_string n) ds
      then Some (TNum (if neg then - Z.of_N n else Z.of_N n)%Z)
      else None
  | None => None
  end.

Definition top_step (c : ascii) : option (list token * lmode) :=
  if is_json_ws c then Some ([], MTop)
  else if is_digit c then Some ([], MNum false (str1 c))
  else if Ascii.eqb c dquote then Some ([], MStr "")
  else if Ascii.eqb c "{" then Some ([TLBrace], MTop)
  else if Ascii.eqb c "}" then Some ([TRBrace], MTop)
  else if Ascii.eqb c "[" then Some ([TLBrack], MTop)
  else if Ascii.eqb c "]" then Some ([TRBrack], MTop)
  else if Ascii.eqb c ":" then Some ([TColon], MTop)
  else if Ascii.eqb c "," then Some ([TComma], MTop)
  else if Ascii.eqb c "-" then Some ([], MNum true "")
  else if Ascii.eqb c "n" then Some ([], MKw "ull" TNull)
  else if Ascii.eqb c "t" then Some ([], MKw "rue" TTrue)
  else if Ascii.eqb c "f" then Some ([], MKw "alse" TFalse)
  else None.

Definition esc_step (acc : string) (c : ascii) : option (list token * lmode) :=
  if Ascii.eqb c dquote then Some ([], MStr (acc +:+ str1 dquote))
  else if Ascii.eqb c backslash then Some ([], MStr (acc +:+ str1 backslash))
  else if Ascii.eqb c "/" then Some ([], MStr (acc +:+ "/"))
  else if Ascii.eqb c "b" then Some ([], MStr (acc +:+ str1 "008"))
  else if Ascii.eqb c "f" then Some ([], MStr (acc +:+ str1 "012"))
  else if Ascii.eqb c "n" then Some ([], MStr (acc +:+ str1 "010"))
  else if Ascii.eqb c "r" then Some ([], MStr (acc +:+ str1 "013"))
  else if Ascii.eqb c "t" then Some ([], MStr (acc +:+ str1 "009"))
  else if Ascii.eqb c "u" then Some ([], MUni acc 0 0)
  else None.

Definition step (m : lmode) (c : ascii) : option (list token * lmode) :=
  match m with
  | MTop => top_step c
  | MNum neg ds =>
      if is_digit c then Some ([], MNum neg (ds +:+ str1 c))
      else
        match finish_num neg ds, top_step c with
        | Some t, Some (ts, m') => Some (t :: ts, m')
        | _, _ => None
        end
  | MStr acc =>
      if Ascii.eqb c dquote then Some ([TStr acc], MTop)
      else if Ascii.eqb c backslash then Some ([], MEsc acc)
      else if (N_of_ascii c <? 32)%N then None
      else Some ([], MStr (acc +:+ str1 c))
  | MEsc acc => esc_step acc c
  | MUni acc k n =>
      match hex_val c with
      | Some d =>
          let n' := (16 * n + d)%N in
          if Nat.eqb k 3 then Some ([], MStr (acc +:+ utf8 n'))
          else Some ([], MUni acc (S k) n')
      | None => None
      end
  | MKw rest t =>
      match rest with
      | String c' EmptyString => if Ascii.eqb c c' then Some ([t], MTop) else None
      | String c' r => if Ascii.eqb c c' then Some ([], MKw r t) else None
      | EmptyString => None
      end
  end.

Definition lex_end (m : lmode) : option (list token) :=
  match m with
  | MTop => Some []
  | MNum neg ds =>
      match finish_num neg ds with
      | Some t => Some [t]
      | None => None
      end
  | _ => None
  end.

Fixpoint lex_go (m : lmode) (s : string) : option (list token) :=
  match s with
  | EmptyString => lex_end m
  | String c s' =>
      match step m c with
      | Some (ts, m') =>
          match lex_go m' s' with
          | Some r => Some (ts ++ r)
          | None => None
          end
      | None => None
      end
  end.

Definition lex (s : string) : option (list token) := lex_go MTop s.

(** Recursive descent over the tokens; [fuel] bounds the number of calls. *)
Fixpoint parse_value (fuel : nat) (ts : list token) : option (value * list token) :=
  match fuel with
  | O => None
  | S f =>
      match ts with
      | TNull :: r => Some (VNull, r)
      | TTrue :: r => Some (VBool true, r)
      | TFalse :: r => Some (VBool false, r)
      | TNum z :: r => Some (VNum z, r)
      | TStr s :: r => Some (VStr s, r)
      | TLBrack :: TRBrack :: r => Some (VArr [], r)
      | TLBrack :: r =>
          match parse_value f r with
          | Some (v, r') => parse_elems f [v] r'
          | None => None
          end
      | TLBrace :: TRBrace :: r => Some (VObj [], r)
      | TLBrace :: TStr k :: TColon :: r =>
          match parse_value f r with
          | Some (v, r') => parse_members f (obj_set k v []) r'
          | None => None
          end
      | _ => None
      end
  end
with parse_elems (fuel : nat) (acc : list value) (ts : list token)
  : option (value * list token) :=
  match fuel with
  | O => None
  | S f =>
      match ts with
      | TRBrack :: r => Some (VArr acc, r)
      | TComma :: r =>
          match parse_value f r with
          | Some (v, r') => parse_elems f (acc ++ [v]) r'
          | None => None
          end
      | _ => None
      end
  end
with parse_members (fuel : nat) (acc : props) (ts : list token)
  : option (value * list token) :=
  match fuel with
  | O => None
  | S f =>
      match ts with
      | TRBrace :: r => Some (VObj acc, r)
      | TComma :: TStr k :: TColon :: r =>
          match parse_value f r with
          | Some (v, r') => parse_members f (obj_set k v acc) r'
          | None => None
          end
      | _ => None
      end
  end.

(** [JSON.parse(text)]: the parsed value, or [SyntaxError]. *)
Definition JSON_parse (text : string) : result value :=
  match lex text with
  | Some ts =>
      match parse_value (S (length ts)) ts with
      | Some (v, []) => Ok v
      | _ => Throw SyntaxError
      end
  | None => Throw SyntaxError
  end.

(** The escape of one character inside a string literal. *)
Definition esc_char (c : ascii) : string :=
  if Ascii.eqb c dquote then String backslash (str1 dquote)
  else if Ascii.eqb c backslash then String backslash (str1 backslash)
  else if (N_of_ascii c <? 32)%N then
    if Ascii.eqb c "008" then String backslash "b"
    else if Ascii.eqb c "012" then String backslash "f"
    else if Ascii.eqb c "010" then String backslash "n"
    else if Ascii.eqb c "013" then String backslash "r"
    else if Ascii.eqb c "009" then String backslash "t"
    else String backslash
           (String "u" (String "0" (String "0"
              (String (hex_digit (N_of_ascii c / 16))
                 (str1 (hex_digit (N_of_ascii c mod 16)))))))
  else str1 c.

Fixpoint esc_string (s : string) : string :=
  match s with
  | EmptyString => EmptyString
  | String c s' => esc_char c +:+ esc_string s'
  end.

Definition str_literal (s : string) : string := quoted (esc_string s).

(** [sep_concat sep l]: the strings of [l] joined by [sep]. *)
Fixpoint sep_concat (sep : string) (l : list string) : string :=
  match l with
  | [] => EmptyString
  | [x] => x
  | x :: r => x +:+ sep +:+ sep_concat sep r
  end.

(** The serializer, parameterised by the line break before an item at a given
    nesting depth and by the text between a key and its value. *)
Fixpoint render (br : nat -> string) (colon : string) (depth : nat) (v : value)
  : string :=
  match v with
  | VNull => "null"
  | VBool true => "true"
  | VBool false => "false"
  | VNum z => Z_to_string z
  | VStr s => str_literal s
  | VArr [] => "[]"
  | VArr l =>
      "[" +:+ br (S depth) +:+
      sep_concat ("," +:+ br (S depth)) (map (render br colon (S depth)) l) +:+
      br depth +:+ "]"
  | VObj [] => "{}"
  | VObj m =>
      "{" +:+ br (S depth) +:+
      sep_concat ("," +:+ br (S depth))
        (map (fun kv => str_literal (fst kv) +:+ colon +:+
                        render br colon (S depth) (snd kv)) m) +:+
      br depth +:+ "}"
  end.

(** [JSON.stringify(v)]. *)
Definition JSON_stringify (v : value) : string :=
  render (fun _ => EmptyString) ":" 0 v.

(** [JSON.stringify(v, null, 2)]. *)
Definition JSON_stringify_pretty (v : value) : string :=
  render (fun d => String newline (repeat_char (2 * d) " ")) ": " 0 v.

(** ** Application state *)

Record hymn : Type := {
  hymn_id : Z;
  hymn_title : string;
  hymn_lyrics : option string;
  hymn_audio : string;
  hymn_mood : string
}.

Definition sampleHymns : list hymn := [
  {| hymn_id := 1;
     hymn_title := "Amazing Grace";
     hymn_lyrics := Some "Amazing grace! How sweet the sound
That saved a wretch like me! ...";
     hymn_audio := "audio/hymn1.mp3";
     hymn_mood := "worshipful" |};
  {| hymn_id := 2;
     hymn_title := "How Great Thou Art";
     hymn_lyrics := Some "O Lord my God, when I in awesome wonder ...";
     hymn_audio := "audio/hymn2.mp3";
     hymn_mood := "worshipful" |};
  {| hymn_id := 3;
     hymn_title := "Great Is Thy Faithfulness";
     hymn_lyrics := Some "Great is Thy faithfulness, O God my Father; ...";
     hymn_audio := "audio/hymn3.mp3";
     hymn_mood := "calm" |};
  {| hymn_id := 4;
     hymn_title := "It Is Well With My Soul";
     hymn_lyrics := Some "When peace, like a river, attendeth my way, ...";
     hymn_audio := "audio/hymn4.mp3";
     hymn_mood := "calm" |};
  {| hymn_id := 5;
     hymn_title := "Blessed Assurance";
     hymn_lyrics := Some "Blessed assurance, Jesus is mine! ...";
     hymn_audio := "audio/hymn5.mp3";
     hymn_mood := "happy" |}
].

(** A rendered card: its [data-id] attribute and its [innerHTML]. *)
Record card : Type := {
  card_data_id : string;
  card_html : string
}.

(** What a list container shows: the empty-state block or a list of cards. *)
Inductive content : Type :=
| EmptyState
| Cards (cs : list card).

Inductive container : Type :=
| hymnsContainer
| favoritesContainer
| notesContainer
| moodContainer.

(** The module-level variables, the storage, the four list containers, and a
    log of the toasts shown and of the documents offered for download.
    Presentation-only element state (button labels, modal and loader classes)
    is not tracked. *)
Record state : Type := {
  hymns : list hymn;
  lyricsCache : gmap Z string;
  currentHymn : option hymn;
  favorites : value;
  notes : value;
  moods : value;
  currentMoodFilter : string;
  localStorage : gmap string string;
  notesTextarea : string;
  shown_hymns : content;
  shown_favorites : content;
  shown_notes : content;
  shown_mood : content;
  toasts : list string;
  downloads : list string
}.

Definition set_hymns (hs : list hymn) (st : state) : state :=
  {| hymns := hs; lyricsCache := lyricsCache st; currentHymn := currentHymn st;
     favorites := favorites st; notes := notes st; moods := moods st;
     currentMoodFilter := currentMoodFilter st; localStorage := localStorage st;
     notesTextarea := notesTextarea st;
     shown_hymns := shown_hymns st; shown_favorites := shown_favorites st;
     shown_notes := shown_notes st; shown_mood := shown_mood st;
     toasts := toasts st; downloads := downloads st |}.

Definition set_favorites (v : value) (st : state) : state :=
  {| hymns := hymns st; lyricsCache := lyricsCache st; currentHymn := currentHymn st;
     favorites := v; notes := notes st; moods := moods st;
     currentMoodFilter := currentMoodFilter st; localStorage := localStorage st;
     notesTextarea := notesTextarea st;
     shown_hymns := shown_hymns st; shown_favorites := shown_favorites st;
     shown_notes := shown_notes st; shown_mood := shown_mood st;
     toasts := toasts st; downloads := downloads st |}.

Definition set_notes (v : value) (st : state) : state :=
  {| hymns := hymns st; lyricsCache := lyricsCache st; currentHymn := currentHymn st;
     favorites := favorites st; notes := v; moods := moods st;
     currentMoodFilter := currentMoodFilter st; localStorage := localStorage st;
     notesTextarea := notesTextarea st;
     shown_hymns := shown_hymns st; shown_favorites := shown_favorites st;
     shown_notes := shown_notes st; shown_mood := shown_mood st;
     toasts := toasts st; downloads := downloads st |}.

Definition set_moods (v : value) (st : state) : state :=
  {| hymns := hymns st; lyricsCache := lyricsCache st; currentHymn := currentHymn st;
     favorites := favorites st; notes := notes st; moods := v;
     currentMoodFilter := currentMoodFilter st; localStorage := localStorage st;
     notesTextarea := notesTextarea st;
     shown_hymns := shown_hymns st; shown_favorites := shown_favorites st;
     shown_notes := shown_notes st; shown_mood := shown_mood st;
     toasts := toasts st; downloads := downloads st |}.

(** [localStorage.setItem(k, text)]. *)
Definition setItem (k text : string) (st : state) : state :=
  {| hymns := hymns st; lyricsCache := lyricsCache st; currentHymn := currentHymn st;
     favorites := favorites st; notes := notes st; moods := moods st;
     currentMoodFilter := currentMoodFilter st;
     localStorage := <[k := text]> (localStorage st);
     notesTextarea := notesTextarea st;
     shown_hymns := shown_hymns st; shown_favorites := shown_favorites st;
     shown_notes := shown_notes st; shown_mood := shown_mood st;
     toasts := toasts st; downloads := downloads st |}.

(** [showToast(message)]: the message is appended to the log. *)
Definition showToast (message : string) (st : state) : state :=
  {| hymns := hymns st; lyricsCache := lyricsCache st; currentHymn := currentHymn st;
     favorites := favorites st; notes := notes st; moods := moods st;
     currentMoodFilter := currentMoodFilter st; localStorage := localStorage st;
     notesTextarea := notesTextarea st;
     shown_hymns := shown_hymns st; shown_favorites := shown_favorites st;
     shown_notes := shown_notes st; shown_mood := shown_mood st;
     toasts := toasts st ++ [message]; downloads := downloads st |}.

Definition add_download (doc : string) (st : state) : state :=
  {| hymns := hymns st; lyricsCache := lyricsCache st; currentHymn := currentHymn st;
     favorites := favorites st; notes := notes st; moods := moods st;
     currentMoodFilter := currentMoodFilter st; localStorage := localStorage st;
     notesTextarea := notesTextarea st;
     shown_hymns := shown_hymns st; shown_favorites := shown_favorites st;
     shown_notes := shown_notes st; shown_mood := shown_mood st;
     toasts := toasts st; downloads := downloads st ++ [doc] |}.

Definition shown (c : container) (st : state) : content :=
  match c with
  | hymnsContainer => shown_hymns st
  | favoritesContainer => shown_favorites st
  | notesContainer => shown_notes st
  | moodContainer => shown_mood st
  end.

Definition set_shown (c : container) (x : content) (st : state) : state :=
  {| hymns := hymns st; lyricsCache := lyricsCache st; currentHymn := currentHymn st;
     favorites := favorites st; notes := notes st; moods := moods st;
     currentMoodFilter := currentMoodFilter st; localStorage := localStorage st;
     notesTextarea := notesTextarea st;
     shown_hymns := match c with hymnsContainer => x | _ => shown_hymns st end;
     shown_favorites := match c with favoritesContainer => x | _ => shown_favorites st end;
     shown_notes := match c with notesContainer => x | _ => shown_notes st end;
     shown_mood := match c with moodContainer => x | _ => shown_mood st end;
     toasts := toasts st; downloads := downloads st |}.

(** The completion of a statement sequence: the state reached, or the value
    thrown together with the state at the throw. *)
Inductive outcome : Type :=
| Done (st : state)
| Raised (e : error) (st : state).

Definition obind (o : outcome) (k : state -> outcome) : outcome :=
  match o with
  | Done st => k st
  | Raised e st => Raised e st
  end.

Notation "'run' st <- o ; k" := (obind o (fun st => k))
  (at level 10, st name, o at level 100, k at level 200).

(** [lift r st k]: evaluate the expression [r]; a throw leaves [st]. *)
Definition lift {A} (r : result A) (st : state) (k : A -> outcome) : outcome :=
  match r with
  | Ok a => k a
  | Throw e => Raised e st
  end.

(** ** Property access and array methods on the collections

    The collections are values loaded from storage or from an imported
    document, so each access is defined for every kind of receiver. *)

(** [v[id]] for an integer [id]; [None] is [undefined]. *)
Definition get_item (v : value) (id : Z) : result (option value) :=
  match v with
  | VNull => Throw TypeError
  | VBool _ | VNum _ => Ok None
  | VStr s =>
      Ok (if (0 <=? id)%Z
          then option_map (fun c => VStr (str1 c)) (String.get (Z.to_nat id) s)
          else None)
  | VArr l => Ok (if (0 <=? id)%Z then nth_error l (Z.to_nat id) else None)
  | VObj m => Ok (obj_get (Z_to_string id) m)
  end.

(** [v[id] = x]. *)
Definition set_item (v : value) (id : Z) (x : value) : result value :=
  match v with
  | VNull => Throw TypeError
  | VObj m => Ok (VObj (obj_set (Z_to_string id) x m))
  | _ => Throw OutsideModel
  end.

(** [delete v[id]]. *)
Definition delete_item (v : value) (id : Z) : result value :=
  match v with
  | VNull => Throw TypeError
  | VObj m => Ok (VObj (obj_delete (Z_to_string id) m))
  | _ => Throw OutsideModel
  end.

(** [data.name] for the names [favorites], [notes] and [moods], which no
    built-in prototype defines. *)
Definition get_field (data : value) (name : string) : result (option value) :=
  match data with
  | VNull => Throw TypeError
  | VObj m => Ok (obj_get name m)
  | _ => Ok None
  end.

(** [a || b] where [a] may be [undefined]. *)
Definition opt_or (a : option value) (b : value) : value :=
  match a with
  | Some v => js_or v b
  | None => b
  end.

Definition opt_truthy (a : option value) : bool :=
  match a with
  | Some v => truthy v
  | None => false
  end.

(** [a || b] for a string or [undefined] [a]. *)
Definition str_or (a : option string) (b : string) : string :=
  match a with
  | Some s => if String.eqb s "" then b else s
  | None => b
  end.

Fixpoint index_of_num (z : Z) (l : list value) (i : Z) : Z :=
  match l with
  | [] => (-1)%Z
  | x :: r => if strict_eq_num x z then i else index_of_num z r (i + 1)%Z
  end.

(** [v.indexOf(z)]. *)
Definition js_indexOf (v : value) (z : Z) : result Z :=
  match v with
  | VArr l => Ok (index_of_num z l 0%Z)
  | VStr s =>
      Ok (match String.index 0 (Z_to_string z) s with
          | Some i => Z.of_nat i
          | None => (-1)%Z
          end)
  | _ => Throw TypeError
  end.

(** [v.includes(z)]. *)
Definition js_includes (v : value) (z : Z) : result bool :=
  match v with
  | VArr l => Ok (existsb (fun x => strict_eq_num x z) l)
  | VStr s => Ok (includes s (Z_to_string z))
  | _ => Throw TypeError
  end.

(** [v.push(x)]. *)
Definition js_push (v : value) (x : value) : result value :=
  match v with
  | VArr l => Ok (VArr (l ++ [x]))
  | _ => Throw TypeError
  end.

Fixpoint remove_at {A} (i : nat) (l : list A) : list A :=
  match l, i with
  | [], _ => []
  | _ :: r, O => r
  | x :: r, S i' => x :: remove_at i' r
  end.

(** [v.splice(idx, 1)] for [0 <= idx]. *)
Definition js_splice1 (v : value) (idx : Z) : result value :=
  match v with
  | VArr l => Ok (VArr (remove_at (Z.to_nat idx) l))
  | _ => Throw TypeError
  end.

(** [hs.filter(p)] for a callback that can throw. *)
Fixpoint filter_r {A} (p : A -> result bool) (l : list A) : result (list A) :=
  match l with
  | [] => Ok []
  | x :: r =>
      do b <- p x;
      do r' <- filter_r p r;
      Ok (if b then x :: r' else r')
  end.

Fixpoint map_r {A B} (f : A -> result B) (l : list A) : result (list B) :=
  match l with
  | [] => Ok []
  | x :: r =>
      do y <- f x;
      do r' <- map_r f r;
      Ok (y :: r')
  end.

(** ** Rendering *)

Definition escape_entity (c : ascii) : string :=
  if Ascii.eqb c "&" then "&amp;"
  else if Ascii.eqb c "<" then "&lt;"
  else if Ascii.eqb c ">" then "&gt;"
  else if Ascii.eqb c dquote then "&quot;"
  else if Ascii.eqb c "'" then "&#39;"
  else str1 c.

Fixpoint replace_special (s : string) : string :=
  match s with
  | EmptyString => EmptyString
  | String c s' => escape_entity c +:+ replace_special s'
  end.

(** [escapeHtml(text)]; [None] is a [null] or [undefined] argument. *)
Definition escapeHtml (text : option string) : string :=
  match text with
  | None => ""
  | Some s => if String.eqb s "" then "" else replace_special s
  end.

(** [hymn.lyrics || lyricsCache.get(hymn.id) || '']. *)
Definition lyrics_text (cache : gmap Z string) (h : hymn) : string :=
  str_or (hymn_lyrics h) (str_or (cache !! hymn_id h) "").

(** The template literal assigned to [card.innerHTML], as a function of its
    interpolated expressions. *)
Definition card_template (id_str title_html preview_html tail favActive icon : string)
  : string :=
  dq "
        <div class='hymn-number'>" +:+ id_str +:+ dq "</div>
        <div class='hymn-image'><i class='fas fa-music'></i></div>
        <div class='hymn-content'>
            <h3 class='hymn-title'>" +:+ title_html +:+ dq "</h3>
            <p class='hymn-preview'>" +:+ preview_html +:+ tail +:+ dq "</p>
            <div class='hymn-actions'>
                <button class='favorite" +:+ favActive +:+ dq "' data-action='favorite' data-id='" +:+ id_str +:+ dq "'>
                    <i class='" +:+ icon +:+ dq " fa-heart'></i>
                    <span>Favorite</span>
                </button>
                <button class='play' data-action='play' data-id='" +:+ id_str +:+ dq "'>
                    <i class='fas fa-play'></i>
                    <span>Play</span>
                </button>
            </div>
        </div>
    ".

Definition createHymnCardDOM (favs : value) (cache : gmap Z string) (h : hymn)
  : result card :=
  do isFav <- js_includes favs (hymn_id h);
  let favActive := if isFav then " active" else "" in
  let preview := String.substring 0 100 (lyrics_text cache h) in
  Ok {| card_data_id := Z_to_string (hymn_id h);
        card_html :=
          card_template (Z_to_string (hymn_id h))
            (escapeHtml (Some (hymn_title h)))
            (escapeHtml (Some preview))
            (if String.eqb preview "" then "Lyrics not available" else "...")
            favActive
            (if isFav then "fas" else "far") |}.

(** [renderHymnsList(hymnsArray, container)]: the container is emptied first,
    so a throw while the cards are built leaves it empty. *)
Definition renderHymnsList (hs : list hymn) (c : container) (st : state) : outcome :=
  match hs with
  | [] => Done (set_shown c EmptyState st)
  | _ =>
      let st' := set_shown c (Cards []) st in
      lift (map_r (createHymnCardDOM (favorites st) (lyricsCache st)) hs) st'
        (fun cs => Done (set_shown c (Cards cs) st'))
  end.

Definition is_card_for (id : Z) (cd : card) : bool :=
  String.eqb (card_data_id cd) (Z_to_string id).

(** [container.querySelector('.hymn-card[data-id="id"]')], as a test. *)
Definition has_card (id : Z) (x : content) : bool :=
  match x with
  | EmptyState => false
  | Cards cs => existsb (is_card_for id) cs
  end.

(** [card.replaceWith(newCard)] on the first matching card. *)
Fixpoint replace_first (id : Z) (new : card) (cs : list card) : list card :=
  match cs with
  | [] => []
  | cd :: r => if is_card_for id cd then new :: r else cd :: replace_first id new r
  end.

Definition replace_card (id : Z) (new : card) (x : content) : content :=
  match x with
  | EmptyState => EmptyState
  | Cards cs => Cards (replace_first id new cs)
  end.

(** The first container, in the order tried by [updateHymnCard], that holds a
    card for [id]. *)
Definition find_card_container (id : Z) (st : state) : option container :=
  if has_card id (shown_hymns st) then Some hymnsContainer
  else if has_card id (shown_favorites st) then Some favoritesContainer
  else if has_card id (shown_notes st) then Some notesContainer
  else if has_card id (shown_mood st) then Some moodContainer
  else None.

(** [updateHymnCard(hymnId)]. *)
Definition updateHymnCard (id : Z) (st : state) : outcome :=
  match find_card_container id st with
  | None => Done st
  | Some c =>
      match find (fun h => (hymn_id h =? id)%Z) (hymns st) with
      | None => Done st
      | Some h =>
          lift (createHymnCardDOM (favorites st) (lyricsCache st) h) st
            (fun new => Done (set_shown c (replace_card id new (shown c st)) st))
      end
  end.

(** ** Startup: the three collections read from storage *)

(** [JSON.parse(localStorage.getItem(k))]: a missing item is [null], which
    [JSON.parse] converts to the text [null]. *)
Definition parse_item (k : string) (ls : gmap string string) : result value :=
  match ls !! k with
  | Some text => JSON_parse text
  | None => JSON_parse "null"
  end.

(** The initializers of [favorites], [notes] and [moods], in source order.
    A throw aborts the evaluation of the script. *)
Definition loadPersisted (ls : gmap string string) : result (value * value * value) :=
  do f <- parse_item "favorites" ls;
  do n <- parse_item "notes" ls;
  do m <- parse_item "moods" ls;
  Ok (js_or f (VArr []), js_or n (VObj []), js_or m (VObj [])).

(** The state after the module-level declarations have run. *)
Definition init_state (ls : gmap string string) : result state :=
  do fnm <- loadPersisted ls;
  Ok {| hymns := []; lyricsCache := ∅; currentHymn := None;
        favorites := fst (fst fnm); notes := snd (fst fnm); moods := snd fnm;
        currentMoodFilter := "all"; localStorage := ls; notesTextarea := "";
        shown_hymns := Cards []; shown_favorites := Cards [];
        shown_notes := Cards []; shown_mood := Cards [];
        toasts := []; downloads := [] |}.

(** ** Projections and their displays *)

(** [hymns.filter(h => favorites.includes(h.id))]. *)
Definition favHymns (st : state) : result (list hymn) :=
  filter_r (fun h => js_includes (favorites st) (hymn_id h)) (hymns st).

Definition updateFavoritesDisplay (st : state) : outcome :=
  lift (favHymns st) st (fun hs => renderHymnsList hs favoritesContainer st).

(** [hymns.filter(h => notes[h.id])]. *)
Definition withNotes (st : state) : result (list hymn) :=
  filter_r (fun h => do v <- get_item (notes st) (hymn_id h); Ok (opt_truthy v))
    (hymns st).

Definition updateNotesDisplay (st : state) : outcome :=
  lift (withNotes st) st (fun hs => renderHymnsList hs notesContainer st).

(** The local [list] of [updateMoodDisplay]. *)
Definition moodList (st : state) : result (list hymn) :=
  if negb (String.eqb (currentMoodFilter st) "")
     && negb (String.eqb (currentMoodFilter st) "all")
  then
    filter_r (fun h => do v <- get_item (moods st) (hymn_id h);
                       Ok (strict_eq_str v (currentMoodFilter st)))
      (hymns st)
  else Ok (hymns st).

Definition updateMoodDisplay (st : state) : outcome :=
  lift (moodList st) st (fun hs => renderHymnsList hs moodContainer st).

(** The callback of [hymns.filter] in [filterHymnsImmediate]. The platform's
    [String.prototype.toLowerCase] is the parameter [lower], so that what is
    proved of the callback does not depend on how letters are lowered. *)
Definition query_matches_with (lower : string -> string)
    (cache : gmap Z string) (q : string) (h : hymn) : bool :=
  let idStr := Z_to_string (hymn_id h) in
  if String.eqb idStr q || String.eqb (padStart 3 "0" idStr) q then true
  else if negb (String.eqb (hymn_title h) "")
          && includes (lower (hymn_title h)) q then true
  else
    let lyricsText := lyrics_text cache h in
    if negb (String.eqb lyricsText "") && includes (lower lyricsText) q
    then true
    else false.

Definition query_matches : gmap Z string -> string -> hymn -> bool :=
  query_matches_with toLowerCase.

(** The list rendered by [filterHymnsImmediate(query)]; [lower] and [strip]
    are the platform's [toLowerCase] and [trim]. *)
Definition filtered_with (lower strip : string -> string)
    (query : string) (st : state) : list hymn :=
  let q := strip (lower query) in
  if String.eqb q "" then hymns st
  else List.filter (query_matches_with lower (lyricsCache st) q) (hymns st).

Definition filtered : string -> state -> list hymn :=
  filtered_with toLowerCase trim.

Definition filterHymnsImmediate (query : string) (st : state) : outcome :=
  renderHymnsList (filtered query st) hymnsContainer st.

(** ** Mutators *)

(** [toggleFavorite(hymnId)], for [id = Number(hymnId)]. The function has no
    [return] statement: the first component is its completion value, [None]
    for [undefined]. *)
Definition toggleFavorite (id : Z) (st : state) : option value * outcome :=
  (None,
   lift (js_indexOf (favorites st) id) st (fun idx =>
     lift (if (idx =? -1)%Z then js_push (favorites st) (VNum id)
           else js_splice1 (favorites st) idx) st (fun favs =>
       let st1 := set_favorites favs st in
       let st2 := showToast (if (idx =? -1)%Z then "Added to Favorites"
                             else "Removed from Favorites") st1 in
       let st3 := setItem "favorites" (JSON_stringify (favorites st2)) st2 in
       run st4 <- updateFavoritesDisplay st3;
       updateHymnCard id st4))).

(** [saveNote()]: the text is [notesTextarea.value]. *)
Definition saveNote (st : state) : outcome :=
  match currentHymn st with
  | None => Done st
  | Some h =>
      let text := trim (notesTextarea st) in
      lift (if negb (String.eqb text "")
            then set_item (notes st) (hymn_id h) (VStr text)
            else delete_item (notes st) (hymn_id h)) st (fun ns =>
        let st1 := set_notes ns st in
        let st2 := showToast (if negb (String.eqb text "") then "Note saved"
                              else "Note cleared") st1 in
        let st3 := setItem "notes" (JSON_stringify (notes st2)) st2 in
        run st4 <- updateNotesDisplay st3;
        updateHymnCard (hymn_id h) st4)
  end.

(** [setMood(mood, evt)]. *)
Definition setMood (mood : string) (st : state) : outcome :=
  match currentHymn st with
  | None => Done st
  | Some h =>
      lift (set_item (moods st) (hymn_id h) (VStr mood)) st (fun ms =>
        let st1 := set_moods ms st in
        let st2 := setItem "moods" (JSON_stringify (moods st1)) st1 in
        let st3 := showToast ("Mood set to " +:+ mood) st2 in
        updateHymnCard (hymn_id h) st3)
  end.

(** The object literal [{ favorites, notes, moods }]. *)
Definition snapshot (st : state) : value :=
  VObj [("favorites", favorites st); ("notes", notes st); ("moods", moods st)].

(** [exportData()]: the document is the text put in the downloaded blob. *)
Definition exportData (st : state) : state :=
  showToast "Data exported" (add_download (JSON_stringify_pretty (snapshot st)) st).

(** The [try] block of the [reader.onload] handler of [importData]. *)
Definition import_try (text : string) (st : state) : outcome :=
  lift (JSON_parse text) st (fun data =>
    lift (get_field data "favorites") st (fun df =>
      let st1 :=
        set_favorites (match df with
                       | Some v => if Array_isArray df then v else favorites st
                       | None => favorites st
                       end) st in
      lift (get_field data "notes") st1 (fun dn =>
        let st2 := set_notes (opt_or dn (notes st1)) st1 in
        lift (get_field data "moods") st2 (fun dm =>
          let st3 := set_moods (opt_or dm (moods st2)) st2 in
          let st4 := setItem "favorites" (JSON_stringify (favorites st3)) st3 in
          let st5 := setItem "notes" (JSON_stringify (notes st4)) st4 in
          let st6 := setItem "moods" (JSON_stringify (moods st5)) st5 in
          run st7 <- updateFavoritesDisplay st6;
          run st8 <- updateNotesDisplay st7;
          run st9 <- updateMoodDisplay st8;
          run st10 <- renderHymnsList (hymns st9) hymnsContainer st9;
          Done (showToast "Data imported" st10))))).

(** The [reader.onload] handler of [importData], for the text of the chosen
    file: the [catch] clause turns every throw into a toast. *)
Definition importData (text : string) (st : state) : state :=
  match import_try text st with
  | Done st' => st'
  | Raised _ st' => showToast "Import failed" st'
  end.

(** [resetData()]; [confirmed] is the answer to the [confirm] dialog. *)
Definition resetData (confirmed : bool) (st : state) : outcome :=
  if negb confirmed then Done st
  else
    let st1 := set_moods (VObj []) (set_notes (VObj []) (set_favorites (VArr []) st)) in
    let st2 := setItem "favorites" (JSON_stringify (favorites st1)) st1 in
    let st3 := setItem "notes" (JSON_stringify (notes st2)) st2 in
    let st4 := setItem "moods" (JSON_stringify (moods st3)) st3 in
    run st5 <- updateFavoritesDisplay st4;
    run st6 <- updateNotesDisplay st5;
    run st7 <- updateMoodDisplay st6;
    run st8 <- renderHymnsList (hymns st7) hymnsContainer st7;
    Done (showToast "All data reset" st8).

(** ** Catalog loading *)

(** A parsed catalog document: any value [res.json()] can resolve to. The
    items of an array are kept as parsed; nothing in [loadHymns] checks them. *)
Inductive payload : Type :=
| PArray (items : list value)
| PNull
| PBool (b : bool)
| PNum (z : Z)
| PStr (s : string)
| PObj (m : props).

(** What [fetch('data/hymns.json')] and [res.json()] can do. *)
Inductive fetch_result : Type :=
| FetchRejected              (* network error: [fetch] rejects *)
| ResponseNotOk              (* [res.ok] is false *)
| JsonRejected               (* [res.json()] rejects: malformed payload *)
| JsonValue (p : payload).   (* [res.json()] resolves *)

(** An optional text property of a catalog item: absent, or a string. *)
Definition text_field (name : string) (m : props) : option (option string) :=
  match obj_get name m with
  | None => Some None
  | Some (VStr s) => Some (Some s)
  | Some _ => None
  end.

(** A catalog item read as a hymn record: an object whose [id] is a number,
    whose [title] is a string and whose [lyrics], [audio] and [mood], when
    present, are strings. An absent [audio] or [mood] is read as the empty
    text. *)
Definition hymn_of_value (v : value) : option hymn :=
  match v with
  | VObj m =>
      match obj_get "id" m, obj_get "title" m,
            text_field "lyrics" m, text_field "audio" m, text_field "mood" m with
      | Some (VNum z), Some (VStr t), Some l, Some a, Some md =>
          Some {| hymn_id := z; hymn_title := t; hymn_lyrics := l;
                  hymn_audio := default "" a; hymn_mood := default "" md |}
      | _, _, _, _, _ => None
      end
  | _ => None
  end.

(** The items of a list payload as hymn records, when all of them are. *)
Fixpoint catalog_of (items : list value) : option (list hymn) :=
  match items with
  | [] => Some []
  | v :: r =>
      match hymn_of_value v, catalog_of r with
      | Some h, Some hs => Some (h :: hs)
      | _, _ => None
      end
  end.

(** The value assigned to [hymns]: a catalog of hymn records, or a list with
    an item that is not one. *)
Inductive assigned : Type :=
| Catalog (hs : list hymn)
| RawList (items : list value).

(** The [try] block of [loadHymns]: the value assigned to [hymns]. *)
Definition loadHymns_try (r : fetch_result) : result assigned :=
  match r with
  | FetchRejected => Throw TypeError
  | ResponseNotOk => Throw Error
  | JsonRejected => Throw SyntaxError
  | JsonValue (PArray items) =>
      Ok (match catalog_of items with
          | Some hs => Catalog hs
          | None => RawList items
          end)
  | JsonValue _ => Ok (Catalog [])
  end.

(** [createHymnCardDOM(hymn)] on an item as parsed: reading [hymn.id] of
    [null] throws; an item of another shape that is not a hymn record is not
    covered. *)
Definition createHymnCardDOM_item (favs : value) (cache : gmap Z string)
    (v : value) : result card :=
  match hymn_of_value v with
  | Some h => createHymnCardDOM favs cache h
  | None =>
      match v with
      | VNull => Throw TypeError
      | _ => Throw OutsideModel
      end
  end.

(** The [finally] block of [loadHymns]. *)
Definition loadHymns_finally (st : state) : outcome :=
  run st1 <- renderHymnsList (hymns st) hymnsContainer st;
  run st2 <- updateFavoritesDisplay st1;
  run st3 <- updateNotesDisplay st2;
  updateMoodDisplay st3.

(** The [finally] block of [loadHymns] when [hymns] holds a list with an
    item that is not a hymn record: [renderHymnsList] empties the container
    and builds the cards up to the first throw. The state keeps its previous
    catalog: it cannot record the raw list that [hymns] holds then. *)
Definition loadHymns_finally_raw (items : list value) (st : state) : outcome :=
  let st' := set_shown hymnsContainer (Cards []) st in
  lift (map_r (createHymnCardDOM_item (favorites st) (lyricsCache st)) items) st'
    (fun _ => Raised OutsideModel st').

(** [loadHymns()]; [Raised] is a rejection of the promise it returns. *)
Definition loadHymns (r : fetch_result) (st : state) : outcome :=
  match loadHymns_try r with
  | Ok (Catalog hs) => loadHymns_finally (set_hymns hs st)
  | Ok (RawList items) => loadHymns_finally_raw items st
  | Throw _ =>
      loadHymns_finally
        (showToast "Using sample hymns (offline)" (set_hymns sampleHymns st))
  end.

(** ** Specification-side definitions *)

(** The final state of a completion, thrown or not. *)
Definition final (o : outcome) : state :=
  match o with
  | Done st => st
  | Raised _ st => st
  end.

Definition is_done (o : outcome) : bool :=
  match o with
  | Done _ => true
  | Raised _ _ => false
  end.

(** Two states that differ at most in what the four containers show. *)
Definition store_eq (st st' : state) : Prop :=
  hymns st' = hymns st /\ lyricsCache st' = lyricsCache st /\
  currentHymn st' = currentHymn st /\
  favorites st' = favorites st /\ notes st' = notes st /\ moods st' = moods st /\
  currentMoodFilter st' = currentMoodFilter st /\
  localStorage st' = localStorage st /\ notesTextarea st' = notesTextarea st /\
  toasts st' = toasts st /\ downloads st' = downloads st.

(** The five characters replaced by [escapeHtml]. *)
Definition is_special (c : ascii) : bool :=
  Ascii.eqb c "&" || Ascii.eqb c "<" || Ascii.eqb c ">" ||
  Ascii.eqb c dquote || Ascii.eqb c "'".

(** The replacement table of [escapeHtml], as the specification words it. *)
Definition entity_of (c : ascii) : string :=
  match c with
  | "&"%char => "&amp;"
  | "<"%char => "&lt;"
  | ">"%char => "&gt;"
  | "034"%char => "&quot;"
  | "'"%char => "&#39;"
  | _ => str1 c
  end.

Fixpoint concat_map (f : ascii -> string) (s : string) : string :=
  match s with
  | EmptyString => EmptyString
  | String c s' => f c +:+ concat_map f s'
  end.

(** A text without raw special characters: no [<], [>], double quote or
    apostrophe, and every [&] opens one of the five entities. *)
Fixpoint no_raw_special (s : string) : bool :=
  match s with
  | EmptyString => true
  | String c r =>
      (if Ascii.eqb c "&"
       then String.prefix "amp;" r || String.prefix "lt;" r ||
            String.prefix "gt;" r || String.prefix "quot;" r ||
            String.prefix "#39;" r
       else negb (is_special c))
      && no_raw_special r
  end.

Fixpoint count_char (c : ascii) (s : string) : nat :=
  match s with
  | EmptyString => 0
  | String c' r => (if Ascii.eqb c' c then 1 else 0) + count_char c r
  end.

(** [t] contains [q] as a case-insensitive substring: [q] occurs in [t] once
    both are lower-cased by [lower]. *)
Definition contains_ignoring_case (lower : string -> string) (t q : string) : Prop :=
  includes (lower t) (lower q) = true.

(** The body of an item: the inline body when the item carries a non-empty
    one, otherwise the cached body if there is one, otherwise no text. *)
Definition body_of (cache : gmap Z string) (h : hymn) : string :=
  match hymn_lyrics h with
  | Some (String c l) => String c l
  | _ => match cache !! hymn_id h with
         | Some t => t
         | None => ""
         end
  end.

(** The matching rule of the text filter, as the specification words it, for a
    normalised query [q]. *)
Definition spec_match (lower : string -> string)
    (cache : gmap Z string) (q : string) (h : hymn) : Prop :=
  Z_to_string (hymn_id h) = q \/
  padStart 3 "0" (Z_to_string (hymn_id h)) = q \/
  contains_ignoring_case lower (hymn_title h) q \/
  contains_ignoring_case lower (body_of cache h) q.

Definition grace_abounds : hymn :=
  {| hymn_id := 7; hymn_title := "Grace Abounds"; hymn_lyrics := None;
     hymn_audio := ""; hymn_mood := "" |}.

(** An item with an inline body, and one whose body is only in the cache. *)
Definition morning_song : hymn :=
  {| hymn_id := 8; hymn_title := "Morning Song";
     hymn_lyrics := Some "Praise Him at dawn";
     hymn_audio := ""; hymn_mood := "" |}.

Definition evening_song : hymn :=
  {| hymn_id := 9; hymn_title := "Evening Song"; hymn_lyrics := None;
     hymn_audio := ""; hymn_mood := "" |}.

Definition evening_cache : gmap Z string := {[ 9%Z := "Shadows fall" ]}.

(** The card of a hymn when [favorites] is the array [fl]. *)
Definition card_of (fl : list value) (cache : gmap Z string) (h : hymn) : card :=
  let isFav := existsb (fun x => strict_eq_num x (hymn_id h)) fl in
  let preview := String.substring 0 100 (lyrics_text cache h) in
  {| card_data_id := Z_to_string (hymn_id h);
     card_html :=
       card_template (Z_to_string (hymn_id h))
         (escapeHtml (Some (hymn_title h)))
         (escapeHtml (Some preview))
         (if String.eqb preview "" then "Lyrics not available" else "...")
         (if isFav then " active" else "")
         (if isFav then "fas" else "far") |}.

(** What a container shows for a list of hymns when [favorites] is [fl]. *)
Definition content_of (fl : list value) (cache : gmap Z string) (hs : list hymn)
  : content :=
  match hs with
  | [] => EmptyState
  | _ => Cards (map (card_of fl cache) hs)
  end.

(** The [data-id] attributes of the cards shown, in document order. *)
Definition content_ids (x : content) : list string :=
  match x with
  | EmptyState => []
  | Cards cs => map card_data_id cs
  end.

Definition state0 : state :=
  {| hymns := []; lyricsCache := ∅; currentHymn := None;
     favorites := VArr []; notes := VObj []; moods := VObj [];
     currentMoodFilter := "all"; localStorage := ∅; notesTextarea := "";
     shown_hymns := Cards []; shown_favorites := Cards [];
     shown_notes := Cards []; shown_mood := Cards [];
     toasts := []; downloads := [] |}.

Definition set_currentHymn (h : option hymn) (st : state) : state :=
  {| hymns := hymns st; lyricsCache := lyricsCache st; currentHymn := h;
     favorites := favorites st; notes := notes st; moods := moods st;
     currentMoodFilter := currentMoodFilter st; localStorage := localStorage st;
     notesTextarea := notesTextarea st;
     shown_hymns := shown_hymns st; shown_favorites := shown_favorites st;
     shown_notes := shown_notes st; shown_mood := shown_mood st;
     toasts := toasts st; downloads := downloads st |}.

(** The user picks a mood option while no hymn is open. *)
Definition set_currentMoodFilter (label : string) (st : state) : state :=
  {| hymns := hymns st; lyricsCache := lyricsCache st; currentHymn := currentHymn st;
     favorites := favorites st; notes := notes st; moods := moods st;
     currentMoodFilter := label; localStorage := localStorage st;
     notesTextarea := notesTextarea st;
     shown_hymns := shown_hymns st; shown_favorites := shown_favorites st;
     shown_notes := shown_notes st; shown_mood := shown_mood st;
     toasts := toasts st; downloads := downloads st |}.

(** The user types into the notes text area. *)
Definition set_notesTextarea (text : string) (st : state) : state :=
  {| hymns := hymns st; lyricsCache := lyricsCache st; currentHymn := currentHymn st;
     favorites := favorites st; notes := notes st; moods := moods st;
     currentMoodFilter := currentMoodFilter st; localStorage := localStorage st;
     notesTextarea := text;
     shown_hymns := shown_hymns st; shown_favorites := shown_favorites st;
     shown_notes := shown_notes st; shown_mood := shown_mood st;
     toasts := toasts st; downloads := downloads st |}.

Definition bare_hymn (id : Z) (title : string) : hymn :=
  {| hymn_id := id; hymn_title := title; hymn_lyrics := None;
     hymn_audio := ""; hymn_mood := "" |}.

(** Membership of the number [z] in an array, as [indexOf] tests it. *)
Definition mem_num (z : Z) (l : list value) : bool :=
  existsb (fun x => strict_eq_num x z) l.

(** The number of elements of [l] strictly equal to the number [z]. *)
Definition count_num (z : Z) (l : list value) : nat :=
  length (List.filter (fun x => strict_eq_num x z) l).

(** [l] without its first element strictly equal to the number [z]. *)
Fixpoint remove_first (z : Z) (l : list value) : list value :=
  match l with
  | [] => []
  | x :: r => if strict_eq_num x z then r else x :: remove_first z r
  end.

(** A store whose favorites are [fl], persisted as such. *)
Definition with_favorites (fl : list value) (st : state) : state :=
  setItem "favorites" (JSON_stringify (VArr fl)) (set_favorites (VArr fl) st).

(** A store with one note and one mood, both persisted. *)
Definition annotated_state : state :=
  setItem "moods" (JSON_stringify (VObj [("3", VStr "calm")]))
    (setItem "notes" (JSON_stringify (VObj [("3", VStr "my note")]))
       (set_moods (VObj [("3", VStr "calm")])
          (set_notes (VObj [("3", VStr "my note")])
             (set_hymns sampleHymns state0)))).

(** Whether a fetch result is one of the failures caught by [loadHymns]. *)
Definition fetch_failed (r : fetch_result) : bool :=
  match r with
  | JsonValue _ => false
  | _ => true
  end.

(** ** The token sequence of a value, and canonical property lists *)

(** The lexer run over a piece of text: the tokens completed and the mode
    reached. *)
Fixpoint lex_run (m : lmode) (s : string) : option (list token * lmode) :=
  match s with
  | EmptyString => Some ([], m)
  | String c s' =>
      match step m c with
      | Some (ts, m') =>
          match lex_run m' s' with
          | Some (ts', m'') => Some (ts ++ ts', m'')
          | None => None
          end
      | None => None
      end
  end.

(** A text that cannot continue a numeral. *)
Definition delim (s : string) : bool :=
  match s with
  | EmptyString => true
  | String c _ => negb (is_digit c)
  end.

Fixpoint all_ws (s : string) : bool :=
  match s with
  | EmptyString => true
  | String c r => is_json_ws c && all_ws r
  end.

Fixpoint all_digits (s : string) : bool :=
  match s with
  | EmptyString => true
  | String c r => is_digit c && all_digits r
  end.

(** [join_tokens l]: the token lists of [l] separated by commas. *)
Fixpoint join_tokens (l : list (list token)) : list token :=
  match l with
  | [] => []
  | [x] => x
  | x :: r => x ++ TComma :: join_tokens r
  end.

Fixpoint tokens (v : value) : list token :=
  match v with
  | VNull => [TNull]
  | VBool true => [TTrue]
  | VBool false => [TFalse]
  | VNum z => [TNum z]
  | VStr s => [TStr s]
  | VArr l => TLBrack :: join_tokens (map tokens l) ++ [TRBrack]
  | VObj m =>
      TLBrace ::
      join_tokens (map (fun kv => TStr (fst kv) :: TColon :: tokens (snd kv)) m)
      ++ [TRBrace]
  end.

(** [k1] may precede [k2] in property order. *)
Definition key_before (k1 k2 : string) : Prop :=
  match array_index k1, array_index k2 with
  | Some a, Some b => (a < b)%N
  | Some _, None => True
  | None, Some _ => False
  | None, None => True
  end.

(** Distinct keys in property order. *)
Fixpoint wf_keys (ks : list string) : Prop :=
  match ks with
  | [] => True
  | k :: r => Forall (fun k' => k' <> k /\ key_before k k') r /\ wf_keys r
  end.

(** A value all of whose objects list distinct keys in property order: the
    values the JavaScript heap can hold. *)
Fixpoint wf_value (v : value) : Prop :=
  match v with
  | VArr l => fold_right (fun x P => wf_value x /\ P) True l
  | VObj m =>
      wf_keys (map fst m) /\
      fold_right (fun kv P => wf_value (snd kv) /\ P) True m
  | _ => True
  end.

(** Two states with the same annotation collections and storage. *)
Definition same_annotations (st st' : state) : Prop :=
  favorites st' = favorites st /\ notes st' = notes st /\ moods st' = moods st /\
  localStorage st' = localStorage st.

(** The live collections are what the storage holds: reading the storage as
    the startup code does gives them back. *)
Definition persisted_in_sync (st : state) : Prop :=
  loadPersisted (localStorage st) = Ok (favorites st, notes st, moods st).

(** ** Further functions of the script *)

(** [formatTime(seconds)] for a whole number of seconds from 0 to below 2^53.
    The source computes on doubles: in that range the rounded quotient
    [seconds / 60] is less than a sixtieth away from the exact one, so that
    [Math.floor] gives the integer quotient, [%] is exact, and a number is
    printed with all its digits. Outside that range the function is not
    covered ([None]). *)
Definition formatTime (seconds : Z) : option string :=
  if (0 <=? seconds)%Z && (seconds <? 2 ^ 53)%Z then
    let mins := (seconds / 60)%Z in
    let secs := Z.rem seconds 60 in
    Some (Z_to_string mins +:+ ":" +:+ (if (secs <? 10)%Z then "0" else "") +:+
          Z_to_string secs)
  else None.

(** What fetching a lyrics file can do. *)
Inductive text_response : Type :=
| TextRejected            (* [fetch] or [r.text()] rejects *)
| TextNotOk               (* [r.ok] is false *)
| TextOk (text : string).

(** [fetchLyricsIfNeeded(hymn)], run to completion: the text returned and the
    cache afterwards. [lyricsFile] and [lyricsUrl] are the two optional
    properties of the hymn object that name a lyrics file; [net] is what the
    network answers if it is asked. *)
Definition fetchLyricsIfNeeded (h : option hymn) (lyricsFile lyricsUrl : option string)
    (net : text_response) (cache : gmap Z string) : string * gmap Z string :=
  match h with
  | None => ("", cache)
  | Some h =>
      if negb (String.eqb (str_or (hymn_lyrics h) "") "") then
        (str_or (hymn_lyrics h) "", <[hymn_id h := str_or (hymn_lyrics h) ""]> cache)
      else
        match cache !! hymn_id h with
        | Some t => (t, cache)
        | None =>
            let file := str_or lyricsFile (str_or lyricsUrl "") in
            let fallback := "Lyrics not available" in
            if negb (String.eqb file "") then
              match net with
              | TextOk text => (text, <[hymn_id h := text]> cache)
              | _ => (fallback, <[hymn_id h := fallback]> cache)
              end
            else (fallback, <[hymn_id h := fallback]> cache)
        end
  end.

Definition set_lyricsCache (cache : gmap Z string) (st : state) : state :=
  {| hymns := hymns st; lyricsCache := cache; currentHymn := currentHymn st;
     favorites := favorites st; notes := notes st; moods := moods st;
     currentMoodFilter := currentMoodFilter st; localStorage := localStorage st;
     notesTextarea := notesTextarea st;
     shown_hymns := shown_hymns st; shown_favorites := shown_favorites st;
     shown_notes := shown_notes st; shown_mood := shown_mood st;
     toasts := toasts st; downloads := downloads st |}.

(** [openHymnDetail(hymnId)], for [id = Number(hymnId)], run to completion:
    the hymn becomes the current one, the favorite button and the mood options
    read [favorites.includes(id)] and [moods[id]], and the lyrics are loaded.
    The audio element and the texts put in the detail view are not tracked. *)
Definition openHymnDetail (id : Z) (lyricsFile lyricsUrl : option string)
    (net : text_response) (st : state) : outcome :=
  match find (fun h => (hymn_id h =? id)%Z) (hymns st) with
  | None => Done st
  | Some h =>
      let st1 := set_currentHymn (Some h) st in
      lift (js_includes (favorites st1) id) st1 (fun _ =>
        lift (get_item (moods st1) id) st1 (fun _ =>
          Done (set_lyricsCache
                  (snd (fetchLyricsIfNeeded (Some h) lyricsFile lyricsUrl net
                          (lyricsCache st1))) st1)))
  end.

(** The shapes the three collections have in the data model. *)
Definition well_shaped (st : state) : Prop :=
  (exists fl, favorites st = VArr fl) /\
  (exists nm, notes st = VObj nm) /\
  (exists mm, moods st = VObj mm).

(** A two-digit rendering of a number below 100. *)
Definition two_digits (n : Z) : string :=
  (if (n <? 10)%Z then "0" else "") +:+ Z_to_string n.

(** A text made of digits and minus signs only. *)
Fixpoint numeral_text (s : string) : bool :=
  match s with
  | EmptyString => true
  | String c r => (is_digit c || Ascii.eqb c "-") && numeral_text r
  end.

(** Every note is a non-empty, trimmed string. *)
Definition notes_trimmed (m : props) : Prop :=
  Forall (fun kv => exists s, snd kv = VStr s /\ s <> "" /\ trim s = s) m.

(** * Properties *)

(** ** Strings *)

#[local] Arguments String.append : simpl nomatch.

Lemma append_nil_r (s : string) : s +:+ "" = s.
Proof. induction s; simpl; congruence. Qed.

Lemma append_assoc (a b c : string) : (a +:+ b) +:+ c = a +:+ (b +:+ c).
Proof. induction a; simpl; congruence. Qed.

Lemma eqb_ascii_refl (c : ascii) : Ascii.eqb c c = true.
Proof. apply Ascii.eqb_refl. Qed.

Lemma escape_entity_table (c : ascii) : escape_entity c = entity_of c.
Proof. destruct c as [[] [] [] [] [] [] [] []]; reflexivity. Qed.

Lemma replace_special_concat_map (s : string) :
  replace_special s = concat_map entity_of s.
Proof. induction s as [|c s IH]; simpl; [reflexivity|]. now rewrite IH, escape_entity_table. Qed.

Lemma prefix_empty (s : string) : String.prefix "" s = true.
Proof. destruct s; reflexivity. Qed.

Lemma no_raw_special_replace (s : string) :
  no_raw_special (replace_special s) = true.
Proof.
  induction s as [|c s IH]; [reflexivity|].
  cbn [replace_special].
  destruct c as [[] [] [] [] [] [] [] []]; cbn; rewrite ?prefix_empty; exact IH.
Qed.

Lemma count_char_app (c : ascii) (a b : string) :
  count_char c (a +:+ b) = count_char c a + count_char c b.
Proof. induction a as [|x a IH]; simpl; [reflexivity|]. rewrite IH. lia. Qed.

Lemma no_raw_special_count (c : ascii) (s : string) :
  is_special c = true -> c <> "&"%char ->
  no_raw_special s = true -> count_char c s = 0.
Proof.
  intros Hc Hne. induction s as [|x s IH]; [reflexivity|].
  cbn [no_raw_special count_char]. intros H.
  apply andb_true_iff in H as [H1 H2]. rewrite (IH H2).
  destruct (Ascii.eqb x c) eqn:E; [|reflexivity].
  apply Ascii.eqb_eq in E. subst x.
  destruct (Ascii.eqb c "&") eqn:E2.
  - apply Ascii.eqb_eq in E2. contradiction.
  - rewrite Hc in H1. discriminate.
Qed.

Lemma count_char_uint (c : ascii) (d : Decimal.uint) :
  is_digit c = false -> count_char c (NilEmpty.string_of_uint d) = 0.
Proof.
  intros H. induction d as [|d IH|d IH|d IH|d IH|d IH|d IH|d IH|d IH|d IH|d IH];
    cbn [NilEmpty.string_of_uint count_char]; [reflexivity|..]; rewrite IH;
    destruct c as [[] [] [] [] [] [] [] []]; try discriminate H; reflexivity.
Qed.

Lemma count_char_Z_to_string (c : ascii) (z : Z) :
  is_digit c = false -> c <> "-"%char -> count_char c (Z_to_string z) = 0.
Proof.
  intros H Hm. destruct z as [|p|p]; unfold Z_to_string, N_to_string.
  - cbn. destruct c as [[] [] [] [] [] [] [] []]; try discriminate H; reflexivity.
  - now apply count_char_uint.
  - cbn [count_char]. rewrite count_char_uint by assumption.
    destruct (Ascii.eqb "-" c) eqn:E; [|reflexivity].
    apply Ascii.eqb_eq in E. congruence.
Qed.

Lemma escapeHtml_replace (s : string) : escapeHtml (Some s) = replace_special s.
Proof. destruct s; reflexivity. Qed.

Lemma no_raw_special_escapeHtml (t : option string) :
  no_raw_special (escapeHtml t) = true.
Proof.
  destruct t as [s|]; [|reflexivity].
  rewrite escapeHtml_replace. apply no_raw_special_replace.
Qed.

(** ** Cards *)

Lemma createHymnCardDOM_arr (fl : list value) (cache : gmap Z string) (h : hymn) :
  createHymnCardDOM (VArr fl) cache h = Ok (card_of fl cache h).
Proof. reflexivity. Qed.

(** C10. [escapeHtml] maps a missing text to the empty string and every other
    text to the concatenation of its characters' images under the entity table
    ([&], [<], [>], double quote and apostrophe become [&amp;], [&lt;],
    [&gt;], [&quot;] and [&#39;]; every other character is kept), so that the
    output has no raw special character. Every card built by
    [createHymnCardDOM] is the fixed template filled with the decimal id, the
    escaped title, the escaped 100-character lyrics preview and constant
    strings, and so has the same number of [<] whatever the title and the
    lyrics are. *)
Theorem escapeHtml_entities_and_card_embedding :
  escapeHtml None = "" /\
  (forall s, escapeHtml (Some s) = concat_map entity_of s) /\
  (forall c, is_special c = false -> entity_of c = str1 c) /\
  (forall t, no_raw_special (escapeHtml t) = true) /\
  (forall favs cache h cd,
      createHymnCardDOM favs cache h = Ok cd ->
      (exists tail favActive icon,
          (tail = "..." \/ tail = "Lyrics not available") /\
          (favActive = " active" \/ favActive = "") /\
          (icon = "fas" \/ icon = "far") /\
          card_html cd =
            card_template (Z_to_string (hymn_id h))
              (escapeHtml (Some (hymn_title h)))
              (escapeHtml (Some (String.substring 0 100 (lyrics_text cache h))))
              tail favActive icon) /\
      count_char "<" (card_html cd) = count_char "<" (card_template "" "" "" "" "" "")).
Proof.
  split; [reflexivity|].
  split; [intros s; rewrite escapeHtml_replace; apply replace_special_concat_map|].
  split; [intros c Hc; destruct c as [[] [] [] [] [] [] [] []]; try discriminate Hc; reflexivity|].
  split; [apply no_raw_special_escapeHtml|].
  intros favs cache h cd H. unfold createHymnCardDOM in H.
  destruct (js_includes favs (hymn_id h)) as [isFav|e]; [|discriminate H].
  cbn [rbind] in H. injection H as <-. cbn [card_html].
  repeat match goal with
  | |- context [if String.eqb ?s "" then "" else replace_special ?s] =>
      change (if String.eqb s "" then "" else replace_special s)
        with (escapeHtml (Some s))
  end.
  split.
  - eexists _, _, _. split; [|split; [|split; [|reflexivity]]].
    + destruct (String.eqb _ ""); auto.
    + destruct isFav; auto.
    + destruct isFav; auto.
  - unfold card_template. rewrite !count_char_app.
    rewrite !(count_char_Z_to_string "<") by (reflexivity || discriminate).
    assert (Hesc : forall t, count_char "<" (escapeHtml t) = 0).
    { intros t. apply no_raw_special_count;
        [reflexivity | discriminate | apply no_raw_special_escapeHtml]. }
    rewrite !Hesc.
    destruct (String.eqb _ ""), isFav; reflexivity.
Qed.

Lemma escapeHtml_entities_and_card_embedding_witness :
  let h := bare_hymn 7 "<b>Grace & 'Peace'</b>" in
  count_char "<" (card_html (card_of [VNum 7] ∅ h))
  = count_char "<" (card_template "" "" "" "" "" "").
Proof.
  intros h.
  exact (proj2 (proj2 (proj2 (proj2 (proj2 escapeHtml_entities_and_card_embedding)))
    (VArr [VNum 7]) ∅ h (card_of [VNum 7] ∅ h) (createHymnCardDOM_arr _ _ _))).
Defined.

(** ** Text filter *)

Lemma is_space_lower (c : ascii) : is_space (lower_char c) = is_space c.
Proof. destruct c as [[] [] [] [] [] [] [] []]; reflexivity. Qed.

Lemma lower_char_idem (c : ascii) : lower_char (lower_char c) = lower_char c.
Proof. destruct c as [[] [] [] [] [] [] [] []]; reflexivity. Qed.

Lemma toLowerCase_idem (s : string) : toLowerCase (toLowerCase s) = toLowerCase s.
Proof. induction s as [|c s IH]; simpl; [reflexivity|]. now rewrite IH, lower_char_idem. Qed.

Lemma toLowerCase_trimStart (s : string) :
  toLowerCase (trimStart s) = trimStart (toLowerCase s).
Proof.
  induction s as [|c s IH]; [reflexivity|]. simpl.
  rewrite is_space_lower. destruct (is_space c); [exact IH|reflexivity].
Qed.

Lemma toLowerCase_trimEnd (s : string) :
  toLowerCase (trimEnd s) = trimEnd (toLowerCase s).
Proof.
  induction s as [|c s IH]; [reflexivity|]. simpl.
  rewrite <- IH, is_space_lower.
  destruct (trimEnd s) as [|x r]; simpl; [|reflexivity].
  destruct (is_space c); reflexivity.
Qed.

Lemma toLowerCase_trim (s : string) : toLowerCase (trim s) = trim (toLowerCase s).
Proof. unfold trim. now rewrite toLowerCase_trimEnd, toLowerCase_trimStart. Qed.

Lemma toLowerCase_normal (s : string) :
  toLowerCase (trim (toLowerCase s)) = trim (toLowerCase s).
Proof. now rewrite toLowerCase_trim, toLowerCase_idem. Qed.

Lemma includes_empty (q : string) : q <> "" -> includes "" q = false.
Proof. intros H. destruct q; [contradiction|reflexivity]. Qed.

Lemma lyrics_text_body_of (cache : gmap Z string) (h : hymn) :
  lyrics_text cache h = body_of cache h.
Proof.
  unfold lyrics_text, body_of, str_or.
  destruct (hymn_lyrics h) as [[|c l]|]; cbn [String.eqb];
    destruct (cache !! hymn_id h) as [[|c' l']|]; reflexivity.
Qed.

Section QueryMatches.

Variables lower strip : string -> string.
Hypothesis lower_empty : lower "" = "".
Hypothesis lower_normal : forall s, lower (strip (lower s)) = strip (lower s).

Lemma guarded_includes (t q : string) :
  lower q = q -> q <> "" ->
  negb (String.eqb t "") && includes (lower t) q = true
  <-> contains_ignoring_case lower t q.
Proof.
  intros Hq Hne. unfold contains_ignoring_case. rewrite Hq, andb_true_iff.
  split; [tauto|]. intros H. split; [|exact H].
  destruct (String.eqb_spec t "") as [->|]; [|reflexivity].
  rewrite lower_empty, includes_empty in H by exact Hne. discriminate.
Qed.

Lemma query_matches_spec (cache : gmap Z string) (q : string) (h : hymn) :
  lower q = q -> q <> "" ->
  query_matches_with lower cache q h = true <-> spec_match lower cache q h.
Proof.
  intros Hq Hne. unfold query_matches_with, spec_match.
  rewrite <- lyrics_text_body_of.
  rewrite <- !(fun t => guarded_includes t q Hq Hne), <- !String.eqb_eq.
  destruct (String.eqb (Z_to_string (hymn_id h)) q);
    destruct (String.eqb (padStart 3 "0" (Z_to_string (hymn_id h))) q);
    cbn [orb]; try tauto.
  destruct (negb (String.eqb (hymn_title h) "") && _); [tauto|].
  destruct (negb (String.eqb (lyrics_text cache h) "") && _); [tauto|].
  intuition discriminate.
Qed.

Lemma filtered_with_spec (st : state) (query : string) :
  let q := strip (lower query) in
  (q = "" -> filtered_with lower strip query st = hymns st) /\
  (q <> "" ->
   exists keep : hymn -> bool,
     filtered_with lower strip query st = List.filter keep (hymns st) /\
     forall h, keep h = true <-> spec_match lower (lyricsCache st) q h).
Proof.
  intros q. split.
  - intros H. unfold filtered_with. fold q. rewrite H. reflexivity.
  - intros H. exists (query_matches_with lower (lyricsCache st) q). split.
    + unfold filtered_with. fold q.
      destruct (String.eqb_spec q ""); [contradiction|reflexivity].
    + intros h. apply query_matches_spec; [apply lower_normal|exact H].
Qed.

End QueryMatches.

(** C7. The text filter normalises the query by lower-casing and trimming it.
    An empty normalised query leaves the catalog unfiltered; otherwise the
    list shown is the catalog filtered, in catalog order, by a test that holds
    exactly when the id as a decimal string equals the query, or the id
    zero-padded to three digits equals it, or the title contains it as a
    case-insensitive substring, or the body contains it as a case-insensitive
    substring, the body being the inline one when the item has a non-empty
    one and the cached one otherwise. This holds whatever the platform's
    lower-casing and trimming are, as long as lower-casing keeps the empty
    text empty and leaves a normalised query unchanged. For the item with id
    7 and title "Grace Abounds", the queries "007" and "grace" keep it and the
    query "9" keeps nothing; an item is found by a word of its inline body,
    another by a word of its cached body, and a word that occurs in no id,
    title or body keeps nothing. *)
Theorem filterHymnsImmediate_matches_spec :
  forall (lower strip : string -> string),
    lower "" = "" ->
    (forall s, lower (strip (lower s)) = strip (lower s)) ->
    forall (st : state) (query : string),
      let q := strip (lower query) in
      (q = "" -> filtered_with lower strip query st = hymns st) /\
      (q <> "" ->
       exists keep : hymn -> bool,
         filtered_with lower strip query st = List.filter keep (hymns st) /\
         forall h, keep h = true <-> spec_match lower (lyricsCache st) q h) /\
      filterHymnsImmediate query st =
        renderHymnsList (filtered_with toLowerCase trim query st)
          hymnsContainer st /\
      (forall st', hymns st' = [grace_abounds] -> lyricsCache st' = ∅ ->
         filtered "007" st' = [grace_abounds] /\
         filtered "grace" st' = [grace_abounds] /\
         filtered "9" st' = []) /\
      (forall st',
         hymns st' = [grace_abounds; morning_song; evening_song] ->
         lyricsCache st' = evening_cache ->
         filtered " DAWN " st' = [morning_song] /\
         filtered "shadows" st' = [evening_song] /\
         filtered "song" st' = [morning_song; evening_song] /\
         filtered "noon" st' = []).
Proof.
  intros lower strip H0 Hn st query q.
  destruct (filtered_with_spec lower strip H0 Hn st query) as [A B].
  split; [exact A|]. split; [exact B|]. split; [reflexivity|]. split.
  - intros st' Hh Hc. unfold filtered, filtered_with. rewrite Hh, Hc.
    repeat split; vm_compute; reflexivity.
  - intros st' Hh Hc. unfold filtered, filtered_with. rewrite Hh, Hc.
    repeat split; vm_compute; reflexivity.
Qed.

Lemma filterHymnsImmediate_matches_spec_witness :
  let st := set_hymns [grace_abounds; morning_song] state0 in
  exists keep : hymn -> bool,
    filtered " GRACE " st = List.filter keep (hymns st) /\
    forall h, keep h = true <-> spec_match toLowerCase (lyricsCache st) "grace" h.
Proof.
  intros st.
  destruct (filterHymnsImmediate_matches_spec toLowerCase trim eq_refl
              toLowerCase_normal st " GRACE ") as (_ & H & _).
  apply H. vm_compute. discriminate.
Defined.

(** ** Rendering with an array of favorites *)

Lemma filter_r_total {A} (p : A -> result bool) (q : A -> bool) (l : list A) :
  (forall x, p x = Ok (q x)) -> filter_r p l = Ok (List.filter q l).
Proof.
  intros H. induction l as [|x l IH]; [reflexivity|].
  cbn [filter_r List.filter]. rewrite H, IH. cbn [rbind]. now destruct (q x).
Qed.

Lemma map_r_total {A B} (f : A -> result B) (g : A -> B) (l : list A) :
  (forall x, f x = Ok (g x)) -> map_r f l = Ok (map g l).
Proof.
  intros H. induction l as [|x l IH]; [reflexivity|].
  cbn [map_r map]. now rewrite H, IH.
Qed.


Lemma set_shown_twice (c : container) (x y : content) (st : state) :
  set_shown c x (set_shown c y st) = set_shown c x st.
Proof. destruct c; reflexivity. Qed.

Lemma renderHymnsList_arr (fl : list value) (hs : list hymn) (c : container)
    (st : state) :
  favorites st = VArr fl ->
  renderHymnsList hs c st =
    Done (set_shown c (content_of fl (lyricsCache st) hs) st).
Proof.
  intros Hf. unfold renderHymnsList. destruct hs as [|h hs]; [reflexivity|].
  rewrite Hf.
  rewrite (map_r_total _ (card_of fl (lyricsCache st))) by (intros; reflexivity).
  cbn [lift]. now rewrite set_shown_twice.
Qed.

Lemma content_ids_content_of fl cache (hs : list hymn) :
  content_ids (content_of fl cache hs) = map (fun h => Z_to_string (hymn_id h)) hs.
Proof.
  destruct hs as [|h hs]; [reflexivity|].
  unfold content_of, content_ids. rewrite map_map. reflexivity.
Qed.

Lemma store_eq_refl (st : state) : store_eq st st.
Proof. unfold store_eq. tauto. Qed.

Lemma store_eq_set_shown (c : container) (x : content) (st : state) :
  store_eq st (set_shown c x st).
Proof. unfold store_eq. cbn. tauto. Qed.

Lemma store_eq_trans (a b c : state) : store_eq a b -> store_eq b c -> store_eq a c.
Proof. unfold store_eq. intuition congruence. Qed.

(** ** Mood projection *)

Lemma moodList_obj (st : state) (m : props) :
  moods st = VObj m ->
  moodList st =
    Ok (if negb (String.eqb (currentMoodFilter st) "")
           && negb (String.eqb (currentMoodFilter st) "all")
        then List.filter (fun h => strict_eq_str (obj_get (Z_to_string (hymn_id h)) m)
                                (currentMoodFilter st)) (hymns st)
        else hymns st).
Proof.
  intros Hm. unfold moodList. destruct (_ && _); [|reflexivity].
  apply filter_r_total. intros h. now rewrite Hm.
Qed.

Lemma strict_eq_str_iff (v : option value) (s : string) :
  strict_eq_str v s = true <-> v = Some (VStr s).
Proof.
  destruct v as [[| | |s'| |]|]; cbn; try (split; [discriminate|congruence]).
  rewrite String.eqb_eq. split; congruence.
Qed.

(** C8. With a mapping as MoodMap and a (non-empty) mood label selected, the
    list computed by [updateMoodDisplay] is the whole catalog for the label
    "all", and otherwise the catalog filtered, in catalog order, by the test
    that the MoodMap entry of the item's id equals the label; when the
    favorites are an array, the mood container then shows exactly the cards
    of that list, in the same order. *)
Theorem updateMoodDisplay_shows_mood_projection :
  forall (st : state) (m : props) (label : string),
    moods st = VObj m ->
    currentMoodFilter st = label ->
    label <> "" ->
    (label = "all" -> moodList st = Ok (hymns st)) /\
    (label <> "all" ->
     exists keep : hymn -> bool,
       moodList st = Ok (List.filter keep (hymns st)) /\
       forall h, keep h = true <->
                 obj_get (Z_to_string (hymn_id h)) m = Some (VStr label)) /\
    (forall fl, favorites st = VArr fl ->
     exists hs st',
       moodList st = Ok hs /\
       updateMoodDisplay st = Done st' /\ store_eq st st' /\
       content_ids (shown_mood st') = map (fun h => Z_to_string (hymn_id h)) hs).
Proof.
  intros st m label Hm Hl Hne.
  pose proof (moodList_obj st m Hm) as HL. rewrite Hl in HL.
  destruct (String.eqb_spec label ""); [contradiction|]. cbn [negb andb] in HL.
  split; [|split].
  - intros ->. exact HL.
  - intros Hall. destruct (String.eqb_spec label "all"); [contradiction|].
    cbn [negb] in HL. eexists. split; [exact HL|].
    intros h. apply strict_eq_str_iff.
  - intros fl Hf. unfold updateMoodDisplay. rewrite HL. cbn [lift].
    rewrite (renderHymnsList_arr fl) by exact Hf.
    eexists _, _. split; [reflexivity|]. split; [reflexivity|].
    split; [apply store_eq_set_shown|].
    cbn [set_shown shown_mood]. apply content_ids_content_of.
Qed.

Lemma updateMoodDisplay_shows_mood_projection_witness :
  let st :=
    set_currentMoodFilter "calm"
      (set_moods (VObj [("3", VStr "calm"); ("5", VStr "happy"); ("9", VStr "calm")])
         (set_hymns [bare_hymn 9 "Nine"; bare_hymn 5 "Five"; bare_hymn 3 "Three"]
            state0)) in
  exists hs st',
    moodList st = Ok hs /\
    updateMoodDisplay st = Done st' /\ store_eq st st' /\
    content_ids (shown_mood st') = map (fun h => Z_to_string (hymn_id h)) hs.
Proof.
  intros st.
  refine (proj2 (proj2 (updateMoodDisplay_shows_mood_projection st _ "calm"
            eq_refl eq_refl _)) [] eq_refl).
  discriminate.
Defined.

(** ** Own properties *)

Lemma obj_has_get (k : string) (m : props) :
  obj_has k m = true <-> exists v, obj_get k m = Some v.
Proof.
  induction m as [|[k' v'] m IH]; cbn.
  - split; [discriminate|]. intros [v H]. discriminate.
  - destruct (String.eqb k' k); cbn; [|exact IH]. split; eauto.
Qed.

Lemma obj_has_false_get (k : string) (m : props) :
  obj_has k m = false <-> obj_get k m = None.
Proof.
  induction m as [|[k' v'] m IH]; cbn; [tauto|].
  destruct (String.eqb k' k); cbn; [|exact IH]. split; discriminate.
Qed.

Lemma obj_get_replace (k k' : string) (v : value) (m : props) :
  obj_get k' (obj_replace k v m) =
    if String.eqb k k' then
      match obj_get k m with Some _ => Some v | None => None end
    else obj_get k' m.
Proof.
  induction m as [|[k0 v0] m IH]; cbn.
  - now destruct (String.eqb k k').
  - destruct (String.eqb_spec k0 k) as [->|Hne]; cbn.
    + destruct (String.eqb k k'); reflexivity.
    + rewrite IH. destruct (String.eqb_spec k k') as [<-|Hne'].
      * destruct (String.eqb_spec k0 k); [contradiction|reflexivity].
      * reflexivity.
Qed.

Lemma obj_get_insert_index (n : N) (k k' : string) (v : value) (m : props) :
  obj_get k m = None ->
  obj_get k' (obj_insert_index n k v m) =
    if String.eqb k k' then Some v else obj_get k' m.
Proof.
  induction m as [|[k0 v0] m IH]; intros Hk; cbn.
  - reflexivity.
  - cbn in Hk. destruct (String.eqb_spec k0 k) as [->|Hne]; [discriminate|].
    destruct (array_index k0) as [n'|]; [destruct (n' <? n)%N|]; cbn;
      try reflexivity.
    rewrite (IH Hk). destruct (String.eqb_spec k k') as [<-|Hne'].
    + destruct (String.eqb_spec k0 k); [contradiction|reflexivity].
    + reflexivity.
Qed.

Lemma obj_get_app (k : string) (m1 m2 : props) :
  obj_get k (m1 ++ m2) =
    match obj_get k m1 with Some v => Some v | None => obj_get k m2 end.
Proof.
  induction m1 as [|[k0 v0] m1 IH]; cbn; [reflexivity|].
  destruct (String.eqb k0 k); [reflexivity|exact IH].
Qed.

Lemma obj_get_set (k k' : string) (v : value) (m : props) :
  obj_get k' (obj_set k v m) = if String.eqb k k' then Some v else obj_get k' m.
Proof.
  unfold obj_set. destruct (obj_has k m) eqn:Hh.
  - rewrite obj_get_replace. apply obj_has_get in Hh as [v0 Hv0]. now rewrite Hv0.
  - apply obj_has_false_get in Hh.
    destruct (array_index k) as [n|].
    + now apply obj_get_insert_index.
    + rewrite obj_get_app. cbn.
      destruct (String.eqb_spec k k') as [<-|Hne].
      * now rewrite Hh.
      * now destruct (obj_get k' m).
Qed.

Lemma obj_get_delete (k k' : string) (m : props) :
  obj_get k' (obj_delete k m) = if String.eqb k k' then None else obj_get k' m.
Proof.
  unfold obj_delete. induction m as [|[k0 v0] m IH]; cbn.
  - now destruct (String.eqb k k').
  - destruct (String.eqb_spec k0 k) as [->|Hne]; cbn.
    + rewrite IH. destruct (String.eqb k k'); reflexivity.
    + rewrite IH. destruct (String.eqb_spec k k') as [<-|Hne'].
      * destruct (String.eqb_spec k0 k); [contradiction|reflexivity].
      * reflexivity.
Qed.

Lemma obj_has_delete (k : string) (m : props) : obj_has k (obj_delete k m) = false.
Proof. apply obj_has_false_get. now rewrite obj_get_delete, String.eqb_refl. Qed.

Lemma obj_has_set (k : string) (v : value) (m : props) :
  obj_has k (obj_set k v m) = true.
Proof. apply obj_has_get. exists v. now rewrite obj_get_set, String.eqb_refl. Qed.

(** ** Displays never throw on a well-shaped store *)

Lemma updateFavoritesDisplay_arr (st : state) (fl : list value) :
  favorites st = VArr fl ->
  updateFavoritesDisplay st =
    Done (set_shown favoritesContainer
            (content_of fl (lyricsCache st)
               (List.filter (fun h => existsb (fun x => strict_eq_num x (hymn_id h)) fl)
                  (hymns st))) st).
Proof.
  intros Hf. unfold updateFavoritesDisplay, favHymns.
  rewrite (filter_r_total _
    (fun h => existsb (fun x => strict_eq_num x (hymn_id h)) fl))
    by (intros h; now rewrite Hf).
  cbn [lift]. now apply renderHymnsList_arr.
Qed.

Lemma updateNotesDisplay_obj (st : state) (fl : list value) (m : props) :
  favorites st = VArr fl -> notes st = VObj m ->
  updateNotesDisplay st =
    Done (set_shown notesContainer
            (content_of fl (lyricsCache st)
               (List.filter (fun h => opt_truthy (obj_get (Z_to_string (hymn_id h)) m))
                  (hymns st))) st).
Proof.
  intros Hf Hn. unfold updateNotesDisplay, withNotes.
  rewrite (filter_r_total _
    (fun h => opt_truthy (obj_get (Z_to_string (hymn_id h)) m)))
    by (intros h; now rewrite Hn).
  cbn [lift]. now apply renderHymnsList_arr.
Qed.

Lemma updateMoodDisplay_obj (st : state) (fl : list value) (m : props) :
  favorites st = VArr fl -> moods st = VObj m ->
  exists x, updateMoodDisplay st = Done (set_shown moodContainer x st).
Proof.
  intros Hf Hm. unfold updateMoodDisplay. rewrite (moodList_obj st m Hm).
  cbn [lift]. rewrite (renderHymnsList_arr fl) by exact Hf. eauto.
Qed.

Lemma updateHymnCard_arr (id : Z) (st : state) (fl : list value) :
  favorites st = VArr fl ->
  exists st', updateHymnCard id st = Done st' /\ store_eq st st'.
Proof.
  intros Hf. unfold updateHymnCard.
  destruct (find_card_container id st) as [c|];
    [|exists st; split; [reflexivity|apply store_eq_refl]].
  destruct (find _ (hymns st)) as [h|];
    [|exists st; split; [reflexivity|apply store_eq_refl]].
  rewrite Hf, createHymnCardDOM_arr. cbn [lift].
  eexists. split; [reflexivity|]. apply store_eq_set_shown.
Qed.

(** ** Notes *)

Lemma saveNote_step (st : state) (h : hymn) (m : props) (fl : list value) :
  currentHymn st = Some h -> notes st = VObj m -> favorites st = VArr fl ->
  let k := Z_to_string (hymn_id h) in
  let text := trim (notesTextarea st) in
  let m' := if String.eqb text "" then obj_delete k m else obj_set k (VStr text) m in
  exists st',
    saveNote st = Done st' /\
    notes st' = VObj m' /\
    toasts st' = toasts st ++ [if String.eqb text "" then "Note cleared" else "Note saved"] /\
    localStorage st' = <["notes" := JSON_stringify (VObj m')]> (localStorage st) /\
    currentHymn st' = Some h /\ favorites st' = VArr fl /\ moods st' = moods st /\
    hymns st' = hymns st.
Proof.
  intros Hc Hn Hf k text m'. unfold saveNote. rewrite Hc, Hn.
  fold text. fold k.
  assert (E : (if negb (String.eqb text "")
               then set_item (VObj m) (hymn_id h) (VStr text)
               else delete_item (VObj m) (hymn_id h)) = Ok (VObj m')).
  { unfold m'. destruct (String.eqb text ""); reflexivity. }
  rewrite E. cbn [lift].
  match goal with |- context [updateNotesDisplay ?s] => set (st3 := s) end.
  rewrite (updateNotesDisplay_obj st3 fl m') by (subst st3; cbn; first [assumption | reflexivity]).
  cbn [obind].
  match goal with |- context [updateHymnCard _ ?s] => set (st4 := s) end.
  destruct (updateHymnCard_arr (hymn_id h) st4 fl) as (st' & Hu & He);
    [subst st4 st3; cbn; first [assumption | reflexivity]|].
  exists st'. split; [exact Hu|].
  destruct He as (H1 & H2 & H3 & H4 & H5 & H6 & H7 & H8 & H9 & H10 & H11).
  subst st4 st3. cbn in *.
  rewrite H5, H10, H8, H3, H4, H6, H1.
  repeat split; try assumption.
  now destruct (String.eqb text "").
Qed.

(** C6. With a hymn open, a mapping as NoteMap and an array of favorites,
    [saveNote] trims the text of the text area. If the trimmed text is empty
    the entry of the hymn's id is deleted and "Note cleared" is reported;
    otherwise the trimmed text is stored under the id and "Note saved" is
    reported. In both cases the notes slot of the storage is overwritten with
    the serialized NoteMap, the entries of other ids are unchanged, and the id
    is present afterwards exactly when the trimmed text is non-empty. Saving
    a blank text after any earlier save leaves no entry for the id. *)
Theorem saveNote_trims_upserts_or_deletes :
  forall (st : state) (h : hymn) (m : props) (fl : list value),
    currentHymn st = Some h -> notes st = VObj m -> favorites st = VArr fl ->
    let k := Z_to_string (hymn_id h) in
    let text := trim (notesTextarea st) in
    exists st' m',
      saveNote st = Done st' /\ notes st' = VObj m' /\
      (text = "" ->
         m' = obj_delete k m /\ obj_get k m' = None /\
         toasts st' = toasts st ++ ["Note cleared"]) /\
      (text <> "" ->
         m' = obj_set k (VStr text) m /\ obj_get k m' = Some (VStr text) /\
         toasts st' = toasts st ++ ["Note saved"]) /\
      localStorage st' = <["notes" := JSON_stringify (VObj m')]> (localStorage st) /\
      (obj_has k m' = true <-> text <> "") /\
      (forall k', k' <> k -> obj_get k' m' = obj_get k' m) /\
      (forall blank, trim blank = "" ->
         exists st'' m'',
           saveNote (set_notesTextarea blank st') = Done st'' /\
           notes st'' = VObj m'' /\ obj_has k m'' = false).
Proof.
  intros st h m fl Hc Hn Hf k text.
  destruct (saveNote_step st h m fl Hc Hn Hf)
    as (st' & Hs & Hn' & Ht & Hl & Hc' & Hf' & _).
  fold k text in Hn', Ht, Hl.
  eexists st', _. split; [exact Hs|]. split; [exact Hn'|].
  destruct (String.eqb_spec text "") as [E|E].
  - split; [|split; [|split; [|split; [|split]]]].
    + intros _. split; [reflexivity|]. split; [|exact Ht].
      now rewrite obj_get_delete, String.eqb_refl.
    + intros Hne. contradiction.
    + exact Hl.
    + rewrite obj_has_delete. split; [discriminate|contradiction].
    + intros k' Hk'. rewrite obj_get_delete.
      destruct (String.eqb_spec k k'); [congruence|reflexivity].
    + intros blank Hb.
      destruct (saveNote_step (set_notesTextarea blank st') h _ fl Hc' Hn' Hf')
        as (st'' & Hs'' & Hn'' & _).
      cbn [notesTextarea set_notesTextarea] in Hn''. rewrite Hb in Hn''.
      cbn in Hn''. eexists st'', _. split; [exact Hs''|]. split; [exact Hn''|].
      apply obj_has_delete.
  - split; [|split; [|split; [|split; [|split]]]].
    + intros Hne. contradiction.
    + intros _. split; [reflexivity|]. split; [|exact Ht].
      now rewrite obj_get_set, String.eqb_refl.
    + exact Hl.
    + rewrite obj_has_set. split; [intros _; exact E|reflexivity].
    + intros k' Hk'. rewrite obj_get_set.
      destruct (String.eqb_spec k k'); [congruence|reflexivity].
    + intros blank Hb.
      destruct (saveNote_step (set_notesTextarea blank st') h _ fl Hc' Hn' Hf')
        as (st'' & Hs'' & Hn'' & _).
      cbn [notesTextarea set_notesTextarea] in Hn''. rewrite Hb in Hn''.
      cbn in Hn''. eexists st'', _. split; [exact Hs''|]. split; [exact Hn''|].
      apply obj_has_delete.
Qed.

Lemma saveNote_trims_upserts_or_deletes_witness :
  let st :=
    set_notesTextarea "  x "
      (set_currentHymn (Some (bare_hymn 7 "Seven"))
         (set_hymns [bare_hymn 7 "Seven"] state0)) in
  exists st' m',
    saveNote st = Done st' /\ notes st' = VObj m' /\
    obj_get "7" m' = Some (VStr "x") /\
    toasts st' = ["Note saved"] /\
    forall blank, trim blank = "" ->
      exists st'' m'',
        saveNote (set_notesTextarea blank st') = Done st'' /\
        notes st'' = VObj m'' /\ obj_has "7" m'' = false.
Proof.
  intros st.
  destruct (saveNote_trims_upserts_or_deletes st (bare_hymn 7 "Seven") [] []
              eq_refl eq_refl eq_refl)
    as (st' & m' & H1 & H2 & _ & H4 & _ & _ & _ & H8).
  exists st', m'. split; [exact H1|]. split; [exact H2|].
  destruct H4 as (_ & H5 & H6); [discriminate|].
  split; [exact H5|]. split; [exact H6|]. exact H8.
Defined.

(** ** Favorites *)

Lemma index_of_num_none (z : Z) (l : list value) (i : Z) :
  (0 <= i)%Z -> mem_num z l = false -> index_of_num z l i = (-1)%Z.
Proof.
  revert i. induction l as [|x l IH]; intros i Hi H; [reflexivity|].
  cbn in *. destruct (strict_eq_num x z); [discriminate|].
  apply IH; [lia|exact H].
Qed.

Lemma index_of_num_some (z : Z) (l : list value) (i : Z) :
  (0 <= i)%Z -> mem_num z l = true ->
  (i <= index_of_num z l i)%Z /\
  remove_at (Z.to_nat (index_of_num z l i - i)) l = remove_first z l.
Proof.
  revert i. induction l as [|x l IH]; intros i Hi H; [discriminate|].
  cbn in *. destruct (strict_eq_num x z).
  - split; [lia|]. now rewrite Z.sub_diag.
  - destruct (IH (i + 1)%Z ltac:(lia) H) as [H1 H2]. split; [lia|].
    replace (Z.to_nat (index_of_num z l (i + 1) - i))
      with (S (Z.to_nat (index_of_num z l (i + 1) - (i + 1)))) by lia.
    cbn. now rewrite H2.
Qed.

Lemma mem_num_app (z : Z) (a b : list value) :
  mem_num z (a ++ b) = mem_num z a || mem_num z b.
Proof. apply existsb_app. Qed.

Lemma remove_first_app_absent (z : Z) (l : list value) :
  mem_num z l = false -> remove_first z (l ++ [VNum z]) = l.
Proof.
  induction l as [|x l IH]; cbn; intros H.
  - now rewrite Z.eqb_refl.
  - destruct (strict_eq_num x z); [discriminate|]. now rewrite IH.
Qed.

Lemma mem_num_remove_first_other (z j : Z) (l : list value) :
  j <> z -> mem_num j (remove_first z l) = mem_num j l.
Proof.
  intros Hne. unfold mem_num. induction l as [|x l IH]; [reflexivity|].
  cbn [remove_first existsb].
  destruct (strict_eq_num x z) eqn:E; cbn [existsb]; [|now rewrite IH].
  destruct x; try discriminate E. cbn in E |- *.
  apply Z.eqb_eq in E. subst.
  destruct (Z.eqb_spec z j); [congruence|reflexivity].
Qed.

Lemma count_num_zero (z : Z) (l : list value) :
  count_num z l = 0 <-> mem_num z l = false.
Proof.
  unfold count_num, mem_num. induction l as [|x l IH]; cbn; [tauto|].
  destruct (strict_eq_num x z); cbn; [|exact IH]. split; discriminate.
Qed.

Lemma count_num_remove_first (z : Z) (l : list value) :
  mem_num z l = true -> count_num z l = S (count_num z (remove_first z l)).
Proof.
  unfold count_num, mem_num. induction l as [|x l IH]; cbn; [discriminate|].
  destruct (strict_eq_num x z) eqn:E; cbn; [reflexivity|].
  rewrite E. cbn. exact IH.
Qed.

Lemma toggleFavorite_step (id : Z) (st : state) (fl : list value) :
  favorites st = VArr fl ->
  let fl' := if mem_num id fl then remove_first id fl else fl ++ [VNum id] in
  exists st',
    snd (toggleFavorite id st) = Done st' /\
    favorites st' = VArr fl' /\
    toasts st' = toasts st ++ [if mem_num id fl then "Removed from Favorites"
                               else "Added to Favorites"] /\
    localStorage st' = <["favorites" := JSON_stringify (VArr fl')]> (localStorage st) /\
    notes st' = notes st /\ moods st' = moods st /\ hymns st' = hymns st.
Proof.
  intros Hf fl'. unfold toggleFavorite. cbn [snd]. rewrite Hf.
  cbn [js_indexOf lift].
  assert (E : (if (index_of_num id fl 0 =? -1)%Z then js_push (VArr fl) (VNum id)
               else js_splice1 (VArr fl) (index_of_num id fl 0)) = Ok (VArr fl')
              /\ (index_of_num id fl 0 =? -1)%Z = negb (mem_num id fl)).
  { unfold fl'. destruct (mem_num id fl) eqn:M.
    - destruct (index_of_num_some id fl 0 ltac:(lia) M) as [H1 H2].
      rewrite Z.sub_0_r in H2.
      destruct (Z.eqb_spec (index_of_num id fl 0) (-1)); [lia|].
      cbn. now rewrite H2.
    - rewrite (index_of_num_none id fl 0 ltac:(lia) M). auto. }
  destruct E as [E1 E2]. rewrite E1, E2. cbn [lift].
  match goal with |- context [updateFavoritesDisplay ?s] => set (st3 := s) end.
  rewrite (updateFavoritesDisplay_arr st3 fl') by reflexivity.
  cbn [obind].
  match goal with |- context [updateHymnCard _ ?s] => set (st4 := s) end.
  destruct (updateHymnCard_arr id st4 fl') as (st' & Hu & He); [reflexivity|].
  exists st'. split; [exact Hu|].
  destruct He as (H1 & H2 & H3 & H4 & H5 & H6 & H7 & H8 & H9 & H10 & H11).
  subst st4 st3. cbn in *.
  rewrite H4, H10, H8, H5, H6, H1.
  repeat split. now destruct (mem_num id fl).
Qed.

(** C4, as stated, fails: [toggleFavorite] has no [return] statement, so a
    call that adds the id completes with [undefined], not with [true]. *)
Lemma toggleFavorite_returns_undefined :
  fst (toggleFavorite 7 state0) = None /\
  fst (toggleFavorite 7 state0) <> Some (VBool true) /\
  exists st', snd (toggleFavorite 7 state0) = Done st' /\
              favorites st' = VArr [VNum 7].
Proof.
  split; [reflexivity|]. split; [discriminate|].
  eexists. split; reflexivity.
Qed.

(** C4 (amended). With an array as FavoriteSet, [toggleFavorite(id)] appends
    the id when it is absent and removes its first occurrence when it is
    present, overwrites the favorites slot of the storage with the serialized
    updated array, and reports "Added to Favorites" or "Removed from
    Favorites" in a toast; it returns no value. The id is a member after an
    addition, and no longer a member after a removal when it occurred once. *)
Theorem toggleFavorite_adds_or_removes :
  forall (id : Z) (st : state) (fl : list value),
    favorites st = VArr fl ->
    fst (toggleFavorite id st) = None /\
    exists st' fl',
      snd (toggleFavorite id st) = Done st' /\ favorites st' = VArr fl' /\
      (mem_num id fl = false ->
         fl' = fl ++ [VNum id] /\ mem_num id fl' = true /\
         toasts st' = toasts st ++ ["Added to Favorites"]) /\
      (mem_num id fl = true ->
         fl' = remove_first id fl /\
         (count_num id fl = 1 -> mem_num id fl' = false) /\
         toasts st' = toasts st ++ ["Removed from Favorites"]) /\
      localStorage st' = <["favorites" := JSON_stringify (VArr fl')]> (localStorage st) /\
      notes st' = notes st /\ moods st' = moods st.
Proof.
  intros id st fl Hf. split; [reflexivity|].
  destruct (toggleFavorite_step id st fl Hf) as (st' & Hs & Hf' & Ht & Hl & Hn & Hm & _).
  eexists st', _. split; [exact Hs|]. split; [exact Hf'|].
  destruct (mem_num id fl) eqn:M.
  - split; [discriminate|]. split; [|auto].
    intros _. split; [reflexivity|]. split; [|exact Ht].
    intros Hc. apply count_num_zero.
    rewrite (count_num_remove_first id fl M) in Hc. lia.
  - split; [|split; [discriminate|auto]].
    intros _. split; [reflexivity|]. split; [|exact Ht].
    rewrite mem_num_app. cbn. rewrite Z.eqb_refl. apply orb_true_r.
Qed.

Lemma toggleFavorite_adds_or_removes_witness :
  exists st' fl',
    snd (toggleFavorite 2 (with_favorites [VNum 1; VNum 2] state0)) = Done st' /\
    favorites st' = VArr fl' /\ fl' = [VNum 1] /\
    toasts st' = ["Removed from Favorites"].
Proof.
  destruct (toggleFavorite_adds_or_removes 2
              (with_favorites [VNum 1; VNum 2] state0) [VNum 1; VNum 2] eq_refl)
    as (_ & st' & fl' & H1 & H2 & _ & H4 & _).
  exists st', fl'. split; [exact H1|]. split; [exact H2|].
  destruct (H4 eq_refl) as (H5 & _ & H6). split; [exact H5|exact H6].
Defined.

(** C5, as stated, fails: toggling a present id twice moves it to the end, so
    the persisted text differs from the one before the two calls. *)
Lemma toggleFavorite_twice_reorders :
  let st := with_favorites [VNum 1; VNum 2] state0 in
  let o1 := snd (toggleFavorite 1 st) in
  let o2 := snd (toggleFavorite 1 (final o1)) in
  is_done o1 = true /\ is_done o2 = true /\
  favorites st = VArr [VNum 1; VNum 2] /\
  localStorage st !! "favorites" = Some "[1,2]" /\
  favorites (final o2) = VArr [VNum 2; VNum 1] /\
  localStorage (final o2) !! "favorites" = Some "[2,1]".
Proof. vm_compute. repeat split; reflexivity. Qed.

(** C5 (amended). With an array as FavoriteSet in which the id occurs at most
    once, two successive calls of [toggleFavorite(id)] restore the membership
    of every id, and the favorites slot then holds the serialization of the
    resulting array. When the id was absent, the array itself is restored, and
    the storage is what it was before whenever the slot held the array's
    serialization; when the id was present, it ends up as the last element. *)
Theorem toggleFavorite_twice_membership :
  forall (id : Z) (st : state) (fl : list value),
    favorites st = VArr fl ->
    count_num id fl <= 1 ->
    exists st1 st2 fl2,
      snd (toggleFavorite id st) = Done st1 /\
      snd (toggleFavorite id st1) = Done st2 /\
      favorites st2 = VArr fl2 /\
      (forall j, mem_num j fl2 = mem_num j fl) /\
      localStorage st2 =
        <["favorites" := JSON_stringify (VArr fl2)]> (localStorage st) /\
      (mem_num id fl = false ->
         fl2 = fl /\
         (localStorage st !! "favorites" = Some (JSON_stringify (VArr fl)) ->
          localStorage st2 = localStorage st)) /\
      (mem_num id fl = true -> fl2 = remove_first id fl ++ [VNum id]).
Proof.
  intros id st fl Hf Hc.
  destruct (toggleFavorite_step id st fl Hf) as (st1 & Hs1 & Hf1 & _ & Hl1 & _).
  destruct (toggleFavorite_step id st1 _ Hf1) as (st2 & Hs2 & Hf2 & _ & Hl2 & _).
  rewrite Hl1, insert_insert_eq in Hl2.
  exists st1, st2. eexists. split; [exact Hs1|]. split; [exact Hs2|].
  split; [exact Hf2|].
  destruct (mem_num id fl) eqn:M.
  - assert (M1 : mem_num id (remove_first id fl) = false).
    { apply count_num_zero. rewrite (count_num_remove_first id fl M) in Hc. lia. }
    rewrite M1 in *. split; [|split; [exact Hl2|split; [discriminate|reflexivity]]].
    intros j. rewrite mem_num_app. cbn.
    destruct (Z.eqb_spec id j) as [<-|Hne].
    + now rewrite M, orb_true_r.
    + rewrite orb_false_r. apply mem_num_remove_first_other. congruence.
  - assert (M1 : mem_num id (fl ++ [VNum id]) = true).
    { rewrite mem_num_app. cbn. rewrite Z.eqb_refl. apply orb_true_r. }
    rewrite M1, (remove_first_app_absent id fl M) in *.
    split; [reflexivity|]. split; [exact Hl2|]. split; [|discriminate].
    intros _. split; [reflexivity|].
    intros Hslot. rewrite Hl2. now apply insert_id.
Qed.

Lemma toggleFavorite_twice_membership_witness :
  exists st1 st2 fl2,
    snd (toggleFavorite 3 (with_favorites [VNum 1; VNum 2] state0)) = Done st1 /\
    snd (toggleFavorite 3 st1) = Done st2 /\
    favorites st2 = VArr fl2 /\ fl2 = [VNum 1; VNum 2] /\
    localStorage st2 = localStorage (with_favorites [VNum 1; VNum 2] state0).
Proof.
  destruct (toggleFavorite_twice_membership 3
              (with_favorites [VNum 1; VNum 2] state0) [VNum 1; VNum 2] eq_refl)
    as (st1 & st2 & fl2 & H1 & H2 & H3 & _ & _ & H6 & _).
  - vm_compute. lia.
  - exists st1, st2, fl2. split; [exact H1|]. split; [exact H2|].
    split; [exact H3|]. destruct (H6 eq_refl) as [H7 H8].
    split; [exact H7|]. apply H8. reflexivity.
Defined.

(** ** Import and startup at the failing inputs *)

(** C1. Importing [{"favorites":[1,2],"notes":"not-an-object"}] replaces the
    favorites by [[1,2]] and keeps the moods, but it also replaces the notes
    by the string: the notes field is only tested for truthiness, not for
    being a mapping. The string is persisted and the import is reported as a
    success. *)
Theorem importData_replaces_notes_by_a_string :
  let st := annotated_state in
  let st' := importData (dq "{'favorites':[1,2],'notes':'not-an-object'}") st in
  favorites st' = VArr [VNum 1; VNum 2] /\
  notes st = VObj [("3", VStr "my note")] /\
  notes st' = VStr "not-an-object" /\
  moods st' = moods st /\
  localStorage st' !! "notes" = Some (quoted "not-an-object") /\
  toasts st' = ["Data imported"].
Proof. vm_compute. repeat split; reflexivity. Qed.

(** C2. With valid persisted favorites and unparsable persisted notes, the
    initializer of [notes] throws a [SyntaxError]; the script stops there, so
    no collection is available, whereas a missing notes slot gives the empty
    mapping next to the loaded favorites. *)
Theorem loadPersisted_throws_on_unparsable_slot :
  loadPersisted (<["notes" := "{bad"]> (<["favorites" := "[1,2]"]> ∅))
    = Throw SyntaxError /\
  init_state (<["notes" := "{bad"]> (<["favorites" := "[1,2]"]> ∅))
    = Throw SyntaxError /\
  loadPersisted (<["favorites" := "[1,2]"]> ∅)
    = Ok (VArr [VNum 1; VNum 2], VObj [], VObj []).
Proof. vm_compute. repeat split; reflexivity. Qed.

(** ** The lexer on serialized text *)

Lemma lex_go_run (m : lmode) (a b : string) :
  lex_go m (a +:+ b) =
    match lex_run m a with
    | Some (ts, m') =>
        match lex_go m' b with Some r => Some (ts ++ r) | None => None end
    | None => None
    end.
Proof.
  revert m. induction a as [|c a IH]; intros m; cbn [String.append lex_run lex_go].
  - destruct (lex_go m b); reflexivity.
  - destruct (step m c) as [[ts m']|]; [|reflexivity].
    rewrite IH. destruct (lex_run m' a) as [[ts' m'']|]; [|reflexivity].
    destruct (lex_go m'' b); [|reflexivity]. now rewrite app_assoc.
Qed.

Lemma lex_run_app (m : lmode) (a b : string) :
  lex_run m (a +:+ b) =
    match lex_run m a with
    | Some (ts, m') =>
        match lex_run m' b with
        | Some (ts', m'') => Some (ts ++ ts', m'')
        | None => None
        end
    | None => None
    end.
Proof.
  revert m. induction a as [|c a IH]; intros m; cbn [String.append lex_run].
  - destruct (lex_run m b) as [[ts m']|]; reflexivity.
  - destruct (step m c) as [[ts m']|]; [|reflexivity].
    rewrite IH. destruct (lex_run m' a) as [[ts' m'']|]; [|reflexivity].
    destruct (lex_run m'' b) as [[ts'' m3]|]; [|reflexivity].
    now rewrite app_assoc.
Qed.

Lemma lex_run_ws (s : string) : all_ws s = true -> lex_run MTop s = Some ([], MTop).
Proof.
  induction s as [|c s IH]; [reflexivity|]. cbn [all_ws lex_run step].
  intros H. apply andb_true_iff in H as [H1 H2].
  unfold top_step. rewrite H1, (IH H2). reflexivity.
Qed.

Lemma lex_run_esc_char (acc : string) (c : ascii) :
  lex_run (MStr acc) (esc_char c) = Some ([], MStr (acc +:+ str1 c)).
Proof. destruct c as [[] [] [] [] [] [] [] []]; reflexivity. Qed.

Lemma lex_run_esc_string (acc s : string) :
  lex_run (MStr acc) (esc_string s) = Some ([], MStr (acc +:+ s)).
Proof.
  revert acc. induction s as [|c s IH]; intros acc; cbn [esc_string].
  - cbn. now rewrite append_nil_r.
  - rewrite lex_run_app. rewrite lex_run_esc_char. cbv beta iota.
    rewrite IH. cbn [app]. now rewrite append_assoc.
Qed.

Lemma lex_run_str_literal (s : string) :
  lex_run MTop (str_literal s) = Some ([TStr s], MTop).
Proof.
  unfold str_literal, quoted. cbn [str1 String.append lex_run step].
  change (top_step dquote) with (Some (@nil token, MStr "")).
  cbv beta iota. rewrite lex_run_app. rewrite lex_run_esc_string. reflexivity.
Qed.

Lemma all_digits_uint (d : Decimal.uint) :
  all_digits (NilEmpty.string_of_uint d) = true.
Proof. induction d; cbn; auto. Qed.

Lemma lex_run_digits (neg : bool) (acc ds : string) :
  all_digits ds = true ->
  lex_run (MNum neg acc) ds = Some ([], MNum neg (acc +:+ ds)).
Proof.
  revert acc. induction ds as [|c ds IH]; intros acc H.
  - cbn. now rewrite append_nil_r.
  - cbn [all_digits] in H. apply andb_true_iff in H as [H1 H2].
    cbn [lex_run step]. rewrite H1, (IH _ H2). cbn [app].
    now rewrite append_assoc.
Qed.

Lemma finish_num_N (neg : bool) (n : N) :
  finish_num neg (N_to_string n) =
    Some (TNum (if neg then - Z.of_N n else Z.of_N n)%Z).
Proof.
  unfold finish_num, N_to_string.
  rewrite NilEmpty.usu, Unsigned.of_to, String.eqb_refl. reflexivity.
Qed.

Lemma top_step_digit (c : ascii) :
  is_digit c = true -> top_step c = Some ([], MNum false (str1 c)).
Proof. destruct c as [[] [] [] [] [] [] [] []]; intros H; try discriminate H; reflexivity. Qed.

Lemma N_to_string_pos (p : positive) :
  exists c r, N_to_string (Npos p) = String c r /\
              is_digit c = true /\ all_digits r = true.
Proof.
  pose proof (all_digits_uint (N.to_uint (Npos p))) as H.
  unfold N_to_string. cbn [N.to_uint] in *.
  pose proof (DecimalPos.Unsigned.to_uint_nonnil p) as Hn.
  destruct (Pos.to_uint p) as [|d|d|d|d|d|d|d|d|d|d]; [contradiction|..];
    cbn in *; eexists _, _; (split; [reflexivity|]); split; auto.
Qed.

(** The numeral of [z] leaves the lexer in number mode, ready to emit [z]. *)
Lemma lex_run_Z (z : Z) :
  exists neg ds,
    lex_run MTop (Z_to_string z) = Some ([], MNum neg ds) /\
    finish_num neg ds = Some (TNum z).
Proof.
  destruct z as [|p|p]; cbn [Z_to_string].
  - exists false, "0". split; reflexivity.
  - destruct (N_to_string_pos p) as (c & r & E & Hc & Hr).
    exists false, (N_to_string (Npos p)). split; [|apply (finish_num_N false)].
    rewrite E. cbn [lex_run step]. rewrite (top_step_digit c Hc).
    rewrite (lex_run_digits false (str1 c) r Hr). reflexivity.
  - destruct (N_to_string_pos p) as (c & r & E & Hc & Hr).
    exists true, (N_to_string (Npos p)). split; [|apply (finish_num_N true)].
    cbn [lex_run step].
    change (top_step "-") with (Some (@nil token, MNum true "")).
    cbv beta iota.
    rewrite (lex_run_digits true "" (N_to_string (Npos p))).
    + reflexivity.
    + rewrite E. cbn. now rewrite Hc, Hr.
Qed.

Lemma lex_go_after_num (neg : bool) (ds rest : string) (t : token) :
  finish_num neg ds = Some t -> delim rest = true ->
  lex_go (MNum neg ds) rest = option_map (cons t) (lex_go MTop rest).
Proof.
  intros Hf Hd. destruct rest as [|c r].
  - cbn. now rewrite Hf.
  - cbn [delim] in Hd. apply negb_true_iff in Hd.
    cbn [lex_go step]. rewrite Hd, Hf.
    destruct (top_step c) as [[ts m']|]; [|reflexivity].
    destruct (lex_go m' r); reflexivity.
Qed.

(** A text that ends in top mode contributes its tokens. *)
Lemma lex_go_piece (a rest : string) (ts : list token) :
  lex_run MTop a = Some (ts, MTop) ->
  lex_go MTop (a +:+ rest) = option_map (app ts) (lex_go MTop rest).
Proof.
  intros H. rewrite lex_go_run, H. destruct (lex_go MTop rest); reflexivity.
Qed.

Lemma lex_go_Z (z : Z) (rest : string) :
  delim rest = true ->
  lex_go MTop (Z_to_string z +:+ rest) =
    option_map (cons (TNum z)) (lex_go MTop rest).
Proof.
  intros Hd. destruct (lex_run_Z z) as (neg & ds & H1 & H2).
  rewrite lex_go_run, H1. rewrite (lex_go_after_num neg ds rest _ H2 Hd).
  destruct (lex_go MTop rest); reflexivity.
Qed.

Lemma lex_go_ws (w rest : string) :
  all_ws w = true -> lex_go MTop (w +:+ rest) = lex_go MTop rest.
Proof.
  intros H. rewrite (lex_go_piece w rest []) by now apply lex_run_ws.
  destruct (lex_go MTop rest); reflexivity.
Qed.

Lemma delim_ws_app (w rest : string) :
  all_ws w = true -> delim rest = true -> delim (w +:+ rest) = true.
Proof.
  destruct w as [|c w]; [auto|]. cbn. intros H _.
  apply andb_true_iff in H as [H _].
  destruct c as [[] [] [] [] [] [] [] []]; try discriminate H; reflexivity.
Qed.

Lemma option_map_app {A} (a b : list A) (o : option (list A)) :
  option_map (app a) (option_map (app b) o) = option_map (app (a ++ b)) o.
Proof. destruct o; cbn; [|reflexivity]. now rewrite app_assoc. Qed.

(** ** Induction on values *)

Lemma value_induction (P : value -> Prop) :
  P VNull -> (forall b, P (VBool b)) -> (forall z, P (VNum z)) ->
  (forall s, P (VStr s)) ->
  (forall l, Forall P l -> P (VArr l)) ->
  (forall m, Forall (fun kv => P (snd kv)) m -> P (VObj m)) ->
  forall v, P v.
Proof.
  intros Hnull Hbool Hnum Hstr Harr Hobj.
  fix IH 1. intros [| b | z | s | l | m].
  - exact Hnull.
  - apply Hbool.
  - apply Hnum.
  - apply Hstr.
  - apply Harr. induction l as [|x l IHl]; constructor; [apply IH|exact IHl].
  - apply Hobj. induction m as [|[k x] m IHm]; constructor; [apply IH|exact IHm].
Qed.

(** ** Lexing a serialized value *)

Section LexRender.
Variable br : nat -> string.
Variable colon : string.
Hypothesis br_ws : forall d, all_ws (br d) = true.
Hypothesis colon_ws : exists w, colon = ":" +:+ w /\ all_ws w = true.

Lemma lex_go_sep_concat (d : nat) (texts : list string) (toks : list (list token))
    (rest : string) :
  Forall2 (fun a ts => forall r, delim r = true ->
             lex_go MTop (a +:+ r) = option_map (app ts) (lex_go MTop r))
          texts toks ->
  delim rest = true ->
  lex_go MTop (sep_concat ("," +:+ br d) texts +:+ rest) =
    option_map (app (join_tokens toks)) (lex_go MTop rest).
Proof.
  intros H Hd. induction H as [|a ts texts toks Ha H IH].
  - cbn. now destruct (lex_go MTop rest).
  - destruct H as [|a' ts' texts' toks' Ha' H'].
    + cbn [sep_concat join_tokens]. now apply Ha.
    + change (sep_concat ("," +:+ br d) (a :: a' :: texts')) with
        (a +:+ ("," +:+ br d) +:+ sep_concat ("," +:+ br d) (a' :: texts')).
      change (join_tokens (ts :: ts' :: toks')) with
        (ts ++ TComma :: join_tokens (ts' :: toks')).
      rewrite !append_assoc. rewrite Ha by reflexivity.
      rewrite (lex_go_piece "," _ [TComma]) by reflexivity.
      rewrite lex_go_ws by apply br_ws.
      rewrite IH. rewrite !option_map_app. now rewrite <- app_assoc.
Qed.

Lemma lex_go_render (v : value) :
  forall (d : nat) (rest : string),
    delim rest = true ->
    lex_go MTop (render br colon d v +:+ rest) =
      option_map (app (tokens v)) (lex_go MTop rest).
Proof.
  induction v as [| b | z | s | l IHl | m IHm] using value_induction;
    intros d rest Hd.
  - apply (lex_go_piece "null" rest [TNull]). reflexivity.
  - destruct b.
    + apply (lex_go_piece "true" rest [TTrue]). reflexivity.
    + apply (lex_go_piece "false" rest [TFalse]). reflexivity.
  - cbn [render tokens]. now apply lex_go_Z.
  - cbn [render tokens]. apply lex_go_piece. apply lex_run_str_literal.
  - destruct l as [|x l].
    + apply (lex_go_piece "[]" rest [TLBrack; TRBrack]). reflexivity.
    + set (l' := x :: l) in *. cbn [tokens].
      change (render br colon d (VArr l')) with
        ("[" +:+ br (S d) +:+
         sep_concat ("," +:+ br (S d)) (map (render br colon (S d)) l') +:+
         br d +:+ "]").
      rewrite !append_assoc.
      rewrite (lex_go_piece "[" _ [TLBrack]) by reflexivity.
      rewrite lex_go_ws by apply br_ws.
      rewrite (lex_go_sep_concat (S d) _ (map tokens l')).
      * rewrite lex_go_ws by apply br_ws.
        rewrite (lex_go_piece "]" _ [TRBrack]) by reflexivity.
        rewrite !option_map_app. reflexivity.
      * clear -IHl. induction IHl as [|y ys Hy _ IH]; constructor; [|exact IH].
        intros r Hr. now apply Hy.
      * apply delim_ws_app; [apply br_ws|reflexivity].
  - destruct m as [|kx m].
    + apply (lex_go_piece "{}" rest [TLBrace; TRBrace]). reflexivity.
    + set (m' := kx :: m) in *. cbn [tokens].
      change (render br colon d (VObj m')) with
        ("{" +:+ br (S d) +:+
         sep_concat ("," +:+ br (S d))
           (map (fun kv => str_literal (fst kv) +:+ colon +:+
                           render br colon (S d) (snd kv)) m') +:+
         br d +:+ "}").
      rewrite !append_assoc.
      rewrite (lex_go_piece "{" _ [TLBrace]) by reflexivity.
      rewrite lex_go_ws by apply br_ws.
      rewrite (lex_go_sep_concat (S d) _
                 (map (fun kv => TStr (fst kv) :: TColon :: tokens (snd kv)) m')).
      * rewrite lex_go_ws by apply br_ws.
        rewrite (lex_go_piece "}" _ [TRBrace]) by reflexivity.
        rewrite !option_map_app. reflexivity.
      * clear -IHm br_ws colon_ws.
        induction IHm as [|y ys Hy _ IH]; constructor; [|exact IH].
        intros r Hr. destruct colon_ws as (w & -> & Hw).
        rewrite !append_assoc.
        rewrite (lex_go_piece _ _ [TStr (fst y)]) by apply lex_run_str_literal.
        rewrite (lex_go_piece ":" _ [TColon]) by reflexivity.
        rewrite lex_go_ws by exact Hw.
        rewrite (Hy (S d) r Hr). rewrite !option_map_app. reflexivity.
      * apply delim_ws_app; [apply br_ws|reflexivity].
Qed.

Lemma lex_render (v : value) : lex (render br colon 0 v) = Some (tokens v).
Proof.
  unfold lex. rewrite <- (append_nil_r (render br colon 0 v)).
  rewrite lex_go_render by reflexivity. cbn. now rewrite app_nil_r.
Qed.
End LexRender.

(** ** Canonical property lists *)

Lemma wf_keys_app (a b : list string) :
  wf_keys (a ++ b) <->
  wf_keys a /\ wf_keys b /\
  Forall (fun k => Forall (fun k' => k' <> k /\ key_before k k') b) a.
Proof.
  induction a as [|k a IH]; cbn [app wf_keys].
  - split; [intros H; repeat split; [exact H|constructor]|tauto].
  - rewrite Forall_app, IH. split.
    + intros ((H1 & H2) & H3 & H4 & H5). repeat split; try assumption.
      constructor; assumption.
    + intros ((H1 & H2) & H3 & H4). inversion H4; subst. tauto.
Qed.

Lemma obj_has_false_keys (k : string) (m : props) :
  Forall (fun k' => k <> k') (map fst m) -> obj_has k m = false.
Proof.
  induction m as [|[k' v'] m IH]; [reflexivity|].
  cbn. intros H. inversion H; subst.
  destruct (String.eqb_spec k' k); [congruence|]. cbn. now apply IH.
Qed.

Lemma obj_insert_index_last (n : N) (k : string) (v : value) (m : props) :
  Forall (fun k' => exists n', array_index k' = Some n' /\ (n' < n)%N) (map fst m) ->
  obj_insert_index n k v m = m ++ [(k, v)].
Proof.
  induction m as [|[k' v'] m IH]; [reflexivity|].
  cbn. intros H. inversion H as [|? ? (n' & Hn' & Hlt) Hr]; subst.
  rewrite Hn'. destruct (N.ltb_spec n' n); [|lia]. now rewrite IH.
Qed.

Lemma obj_set_snoc (k : string) (v : value) (acc : props) :
  wf_keys (map fst (acc ++ [(k, v)])) -> obj_set k v acc = acc ++ [(k, v)].
Proof.
  rewrite map_app. cbn [map fst]. rewrite wf_keys_app.
  intros (_ & _ & H). unfold obj_set.
  rewrite obj_has_false_keys.
  - destruct (array_index k) as [n|] eqn:E; [|reflexivity].
    apply obj_insert_index_last.
    eapply Forall_impl; [exact H|]. cbn. intros k' Hk'.
    inversion Hk' as [|? ? [_ Hb] _]; subst.
    unfold key_before in Hb. rewrite E in Hb.
    destruct (array_index k') as [n'|]; [eauto|contradiction].
  - eapply Forall_impl; [exact H|]. cbn. intros k' Hk'.
    inversion Hk' as [|? ? [Hne _] _]; subst. exact Hne.
Qed.

Lemma wf_value_arr (l : list value) : wf_value (VArr l) <-> Forall wf_value l.
Proof.
  cbn [wf_value]. induction l as [|x l IH]; cbn [fold_right].
  - split; constructor.
  - rewrite IH. split; [intros [H1 H2]; now constructor|].
    intros H; inversion H; tauto.
Qed.

Lemma wf_value_obj (m : props) :
  wf_value (VObj m) <->
  wf_keys (map fst m) /\ Forall (fun kv => wf_value (snd kv)) m.
Proof.
  cbn [wf_value].
  assert (G : fold_right (fun kv P => wf_value (snd kv) /\ P) True m
              <-> Forall (fun kv => wf_value (snd kv)) m).
  { induction m as [|x m IH]; cbn [fold_right].
    - split; constructor.
    - rewrite IH. split; [intros [H1 H2]; now constructor|].
      intros H; inversion H; tauto. }
  now rewrite G.
Qed.

(** ** Parsing the tokens of a value *)

Lemma join_tokens_cons (a : list token) (l : list (list token)) :
  join_tokens (a :: l) = a ++ flat_map (fun t => TComma :: t) l.
Proof.
  revert a. induction l as [|b l IH]; intros a.
  - cbn. now rewrite app_nil_r.
  - change (join_tokens (a :: b :: l)) with (a ++ TComma :: join_tokens (b :: l)).
    now rewrite IH.
Qed.

Lemma tokens_head (v : value) :
  exists t r, tokens v = t :: r /\ t <> TRBrack.
Proof.
  destruct v as [| [] | z | s | l | m]; cbn [tokens];
    eexists _, _; split; try reflexivity; discriminate.
Qed.

Lemma parse_value_array (f : nat) (ts : list token) :
  (forall r, ts <> TRBrack :: r) ->
  parse_value (S f) (TLBrack :: ts) =
    match parse_value f ts with
    | Some (v, r') => parse_elems f [v] r'
    | None => None
    end.
Proof.
  intros H. destruct ts as [|t r]; [reflexivity|].
  destruct t; try reflexivity. exfalso. now apply (H r).
Qed.

Lemma parse_elems_tokens (l : list value) :
  Forall (fun v => forall fuel rest, length (tokens v) <= fuel ->
                   parse_value fuel (tokens v ++ rest) = Some (v, rest)) l ->
  forall acc fuel rest,
    length (flat_map (fun v => TComma :: tokens v) l) + 1 <= fuel ->
    parse_elems fuel acc (flat_map (fun v => TComma :: tokens v) l ++ TRBrack :: rest)
      = Some (VArr (acc ++ l), rest).
Proof.
  induction 1 as [|x l Hx _ IH]; intros acc fuel rest Hfuel.
  - destruct fuel as [|f]; [cbn in Hfuel; lia|]. cbn. now rewrite app_nil_r.
  - cbn [flat_map] in *. rewrite <- !app_comm_cons, <- app_assoc.
    repeat (progress cbn [length] in Hfuel || rewrite length_app in Hfuel).
    destruct fuel as [|f]; [lia|]. cbn [parse_elems].
    rewrite Hx by lia. rewrite IH by lia. now rewrite <- app_assoc.
Qed.

Lemma parse_members_tokens (m : props) :
  Forall (fun kv => forall fuel rest, length (tokens (snd kv)) <= fuel ->
                    parse_value fuel (tokens (snd kv) ++ rest) = Some (snd kv, rest)) m ->
  forall acc fuel rest,
    wf_keys (map fst (acc ++ m)) ->
    length (flat_map (fun kv => TComma :: TStr (fst kv) :: TColon :: tokens (snd kv)) m)
      + 1 <= fuel ->
    parse_members fuel acc
      (flat_map (fun kv => TComma :: TStr (fst kv) :: TColon :: tokens (snd kv)) m
       ++ TRBrace :: rest)
      = Some (VObj (acc ++ m), rest).
Proof.
  induction 1 as [|[k x] m Hx _ IH]; intros acc fuel rest Hwf Hfuel.
  - destruct fuel as [|f]; [cbn in Hfuel; lia|]. cbn. now rewrite app_nil_r.
  - cbn [flat_map fst snd] in *. rewrite <- !app_comm_cons, <- app_assoc.
    repeat (progress cbn [length] in Hfuel || rewrite length_app in Hfuel).
    destruct fuel as [|f]; [lia|]. cbn [parse_members].
    rewrite Hx by lia.
    assert (Hwf' : wf_keys (map fst ((acc ++ [(k, x)]) ++ m))).
    { now rewrite <- app_assoc. }
    rewrite obj_set_snoc.
    + rewrite IH by (assumption || lia). now rewrite <- app_assoc.
    + rewrite map_app in Hwf'. apply wf_keys_app in Hwf'. tauto.
Qed.

Lemma parse_value_tokens (v : value) :
  wf_value v ->
  forall fuel rest,
    length (tokens v) <= fuel ->
    parse_value fuel (tokens v ++ rest) = Some (v, rest).
Proof.
  induction v as [| b | z | s | l IHl | m IHm] using value_induction;
    intros Hwf fuel rest Hfuel.
  - destruct fuel; [cbn in Hfuel; lia|reflexivity].
  - destruct fuel; [cbn in Hfuel; destruct b; cbn in Hfuel; lia|].
    destruct b; reflexivity.
  - destruct fuel; [cbn in Hfuel; lia|reflexivity].
  - destruct fuel; [cbn in Hfuel; lia|reflexivity].
  - apply wf_value_arr in Hwf.
    assert (IH : Forall (fun v => forall fuel rest, length (tokens v) <= fuel ->
                   parse_value fuel (tokens v ++ rest) = Some (v, rest)) l).
    { clear -IHl Hwf. induction IHl as [|x l Hx _ IH]; constructor.
      - apply Hx. now inversion Hwf.
      - apply IH. now inversion Hwf. }
    destruct l as [|x l].
    + destruct fuel as [|f]; [cbn in Hfuel; lia|]. reflexivity.
    + cbn [tokens map] in *. rewrite join_tokens_cons in *.
      rewrite flat_map_concat_map, map_map, <- flat_map_concat_map in *.
      rewrite <- !app_assoc in *. rewrite <- !app_comm_cons in *.
      repeat (progress cbn [length] in Hfuel || rewrite length_app in Hfuel).
      destruct fuel as [|f]; [lia|].
      rewrite <- ?app_assoc. cbn [app].
      rewrite parse_value_array.
      * inversion IH as [|? ? Hx Hl]; subst.
        rewrite Hx by lia.
        rewrite (parse_elems_tokens l Hl [x]) by lia. reflexivity.
      * intros r. destruct (tokens_head x) as (t & r' & -> & Ht).
        cbn. congruence.
    - apply wf_value_obj in Hwf. destruct Hwf as [Hk Hv].
      assert (IH : Forall (fun kv => forall fuel rest, length (tokens (snd kv)) <= fuel ->
                   parse_value fuel (tokens (snd kv) ++ rest) = Some (snd kv, rest)) m).
      { clear -IHm Hv. induction IHm as [|x l Hx _ IH]; constructor.
        - apply Hx. now inversion Hv.
        - apply IH. now inversion Hv. }
      destruct m as [|[k x] m].
      + destruct fuel as [|f]; [cbn in Hfuel; lia|]. reflexivity.
      + cbn [tokens map fst snd] in *. rewrite join_tokens_cons in *.
        rewrite flat_map_concat_map, map_map, <- flat_map_concat_map in *.
        rewrite <- !app_assoc in *. rewrite <- !app_comm_cons in *.
        repeat (progress cbn [length] in Hfuel || rewrite length_app in Hfuel).
        destruct fuel as [|f]; [lia|].
        rewrite <- ?app_assoc. cbn [app parse_value].
        inversion IH as [|? ? Hx Hl]; subst. cbn [snd] in Hx.
        rewrite Hx by lia.
        assert (E : obj_set k x [] = [(k, x)]) by (apply (obj_set_snoc k x []); cbn; auto).
        rewrite E.
        rewrite (parse_members_tokens m Hl [(k, x)]) by (assumption || lia).
        reflexivity.
Qed.

(** ** JSON round trip *)

Lemma JSON_parse_render (br : nat -> string) (colon : string) (v : value) :
  (forall d, all_ws (br d) = true) ->
  (exists w, colon = ":" +:+ w /\ all_ws w = true) ->
  wf_value v ->
  JSON_parse (render br colon 0 v) = Ok v.
Proof.
  intros Hbr Hcolon Hwf. unfold JSON_parse.
  rewrite (lex_render br colon Hbr Hcolon).
  pose proof (parse_value_tokens v Hwf (S (length (tokens v))) [] ltac:(lia)) as H.
  rewrite app_nil_r in H. now rewrite H.
Qed.

Lemma JSON_parse_stringify (v : value) :
  wf_value v -> JSON_parse (JSON_stringify v) = Ok v.
Proof.
  apply JSON_parse_render; [reflexivity|]. exists "". split; reflexivity.
Qed.

Lemma all_ws_spaces (n : nat) : all_ws (repeat_char n " ") = true.
Proof. induction n; [reflexivity|exact IHn]. Qed.

Lemma JSON_parse_stringify_pretty (v : value) :
  wf_value v -> JSON_parse (JSON_stringify_pretty v) = Ok v.
Proof.
  apply JSON_parse_render.
  - intros d. cbn [all_ws]. now rewrite all_ws_spaces.
  - exists " ". split; reflexivity.
Qed.

(** ** Displays leave the store alone, thrown or not *)

Lemma store_eq_final_bind (st : state) (o : outcome) (k : state -> outcome) :
  store_eq st (final o) ->
  (forall s, store_eq s (final (k s))) ->
  store_eq st (final (obind o k)).
Proof.
  intros H1 H2. destruct o as [s|e s]; cbn in *; [|exact H1].
  eapply store_eq_trans; [exact H1|apply H2].
Qed.

Lemma renderHymnsList_store (hs : list hymn) (c : container) (st : state) :
  store_eq st (final (renderHymnsList hs c st)).
Proof.
  unfold renderHymnsList. destruct hs as [|h hs]; [apply store_eq_set_shown|].
  destruct (map_r _ _) as [cs|e]; cbn [lift final].
  - rewrite set_shown_twice. apply store_eq_set_shown.
  - apply store_eq_set_shown.
Qed.

Lemma updateFavoritesDisplay_store (st : state) :
  store_eq st (final (updateFavoritesDisplay st)).
Proof.
  unfold updateFavoritesDisplay. destruct (favHymns st); cbn [lift final];
    [apply renderHymnsList_store|apply store_eq_refl].
Qed.

Lemma updateNotesDisplay_store (st : state) :
  store_eq st (final (updateNotesDisplay st)).
Proof.
  unfold updateNotesDisplay. destruct (withNotes st); cbn [lift final];
    [apply renderHymnsList_store|apply store_eq_refl].
Qed.

Lemma updateMoodDisplay_store (st : state) :
  store_eq st (final (updateMoodDisplay st)).
Proof.
  unfold updateMoodDisplay. destruct (moodList st); cbn [lift final];
    [apply renderHymnsList_store|apply store_eq_refl].
Qed.

Lemma updateHymnCard_store (id : Z) (st : state) :
  store_eq st (final (updateHymnCard id st)).
Proof.
  unfold updateHymnCard.
  destruct (find_card_container id st); [|apply store_eq_refl].
  destruct (find _ _); [|apply store_eq_refl].
  destruct (createHymnCardDOM _ _ _); cbn [lift final];
    [apply store_eq_set_shown|apply store_eq_refl].
Qed.

Lemma store_eq_same_annotations (st st' : state) :
  store_eq st st' -> same_annotations st st'.
Proof. unfold store_eq, same_annotations. tauto. Qed.

(** ** Import *)

Lemma same_annotations_refl (st : state) : same_annotations st st.
Proof. unfold same_annotations. tauto. Qed.

Lemma same_annotations_trans (a b c : state) :
  same_annotations a b -> same_annotations b c -> same_annotations a c.
Proof. unfold same_annotations. intuition congruence. Qed.

Lemma same_annotations_final_bind (st : state) (o : outcome) (k : state -> outcome) :
  same_annotations st (final o) ->
  (forall s, same_annotations s (final (k s))) ->
  same_annotations st (final (obind o k)).
Proof.
  intros H1 H2. destruct o as [s|e s]; cbn in *; [|exact H1].
  eapply same_annotations_trans; [exact H1|apply H2].
Qed.

Lemma same_annotations_showToast (msg : string) (st : state) :
  same_annotations st (showToast msg st).
Proof. unfold same_annotations. cbn. tauto. Qed.

(** The displays refreshed at the end of an import leave the collections and
    the storage alone, whether they throw or not. *)
Lemma import_refresh_annotations (st : state) :
  same_annotations st
    (final (run st7 <- updateFavoritesDisplay st;
            run st8 <- updateNotesDisplay st7;
            run st9 <- updateMoodDisplay st8;
            run st10 <- renderHymnsList (hymns st9) hymnsContainer st9;
            Done (showToast "Data imported" st10))).
Proof.
  apply same_annotations_final_bind;
    [apply store_eq_same_annotations, updateFavoritesDisplay_store|intros s7].
  apply same_annotations_final_bind;
    [apply store_eq_same_annotations, updateNotesDisplay_store|intros s8].
  apply same_annotations_final_bind;
    [apply store_eq_same_annotations, updateMoodDisplay_store|intros s9].
  apply same_annotations_final_bind;
    [apply store_eq_same_annotations, renderHymnsList_store|intros s10].
  apply same_annotations_showToast.
Qed.

(** What the import handler leaves in the collections and in the storage when
    the document parses to a non-null value. *)
Lemma importData_annotations (text : string) (st : state) (data : value)
    (df dn dm : option value) :
  JSON_parse text = Ok data ->
  get_field data "favorites" = Ok df ->
  get_field data "notes" = Ok dn ->
  get_field data "moods" = Ok dm ->
  let f := match df with
           | Some v => if Array_isArray df then v else favorites st
           | None => favorites st
           end in
  let n := opt_or dn (notes st) in
  let m := opt_or dm (moods st) in
  let st' := importData text st in
  favorites st' = f /\ notes st' = n /\ moods st' = m /\
  localStorage st' =
    <["moods" := JSON_stringify m]>
      (<["notes" := JSON_stringify n]>
         (<["favorites" := JSON_stringify f]> (localStorage st))).
Proof.
  intros Hp Hf Hn Hm f n m st'.
  unfold st', importData, import_try. rewrite Hp. cbn [lift].
  rewrite Hf. cbn [lift]. rewrite Hn. cbn [lift]. rewrite Hm. cbn [lift].
  fold f.
  match goal with |- context [updateFavoritesDisplay ?s] => set (st6 := s) end.
  pose proof (import_refresh_annotations st6) as H.
  match goal with |- context [match ?x with Done _ => _ | Raised _ _ => _ end] =>
    set (o := x) in * end.
  assert (G : same_annotations st6
                match o with Done s => s | Raised _ s => showToast "Import failed" s end).
  { destruct o; cbn [final] in H; [exact H|].
    eapply same_annotations_trans; [exact H|apply same_annotations_showToast]. }
  destruct G as (G1 & G2 & G3 & G4).
  rewrite G1, G2, G3, G4. subst st6. cbn. repeat split.
Qed.

(** ** Parsed values are canonical *)

Lemma array_index_text (k : string) (n : N) :
  array_index k = Some n -> k = N_to_string n.
Proof.
  unfold array_index. destruct (NilEmpty.uint_of_string k) as [d|]; [|discriminate].
  destruct (String.eqb_spec (N_to_string (N.of_uint d)) k) as [E|]; [|discriminate].
  cbn [andb]. destruct (_ <? _)%N; [|discriminate]. congruence.
Qed.

Lemma map_fst_obj_replace (k : string) (v : value) (m : props) :
  map fst (obj_replace k v m) = map fst m.
Proof.
  induction m as [|[k' v'] m IH]; [reflexivity|]. cbn.
  destruct (String.eqb k' k); cbn; [reflexivity|now rewrite IH].
Qed.

Lemma Forall_keys_insert_index (P : string -> Prop) (n : N) (k : string)
    (v : value) (m : props) :
  P k -> Forall P (map fst m) -> Forall P (map fst (obj_insert_index n k v m)).
Proof.
  intros Hk. induction m as [|[k' v'] m IH]; intros H; cbn.
  - constructor; [exact Hk|constructor].
  - cbn in H. inversion H; subst.
    destruct (array_index k') as [n'|]; [destruct (n' <? n)%N|]; cbn;
      repeat constructor; auto.
Qed.

Lemma obj_has_false_Forall (k : string) (m : props) :
  obj_has k m = false -> Forall (fun k' => k' <> k) (map fst m).
Proof.
  induction m as [|[k' v'] m IH]; cbn; [constructor|].
  destruct (String.eqb_spec k' k); [discriminate|]. cbn. intros H.
  constructor; auto.
Qed.

Lemma wf_keys_insert_index (n : N) (k : string) (v : value) (m : props) :
  array_index k = Some n -> obj_has k m = false ->
  wf_keys (map fst m) -> wf_keys (map fst (obj_insert_index n k v m)).
Proof.
  intros Hk. induction m as [|[k' v'] m IH]; intros Hh Hwf.
  - cbn. split; constructor.
  - pose proof (obj_has_false_Forall _ _ Hh) as Hne. cbn in Hne.
    inversion Hne as [|? ? Hne1 Hne2]; subst.
    cbn in Hh. destruct (String.eqb_spec k' k); [discriminate|]. cbn in Hh.
    cbn [map fst wf_keys] in Hwf. destruct Hwf as [Hall Hwf].
    cbn [obj_insert_index].
    assert (Hsame : forall n', array_index k' = Some n' -> n' <> n).
    { intros n' E ->. apply array_index_text in E, Hk. congruence. }
    destruct (array_index k') as [n'|] eqn:E; [destruct (N.ltb_spec n' n)|].
    + cbn [map fst wf_keys]. split; [|now apply IH].
      apply Forall_keys_insert_index; [|exact Hall].
      split; [congruence|]. unfold key_before. rewrite E, Hk. exact H.
    + cbn [map fst wf_keys]. split; [|split; assumption].
      constructor.
      * split; [assumption|]. unfold key_before. rewrite Hk, E.
        specialize (Hsame n' eq_refl). lia.
      * clear IH. rewrite Forall_forall in *. intros k'' Hin.
        destruct (Hall k'' Hin) as [Ha Hb]. split; [now apply Hne2|].
        unfold key_before in *. rewrite Hk. rewrite E in Hb.
        destruct (array_index k''); [|exact I].
        specialize (Hsame n' eq_refl). lia.
    + cbn [map fst wf_keys]. split; [|split; assumption].
      constructor.
      * split; [assumption|]. unfold key_before. now rewrite Hk, E.
      * clear IH. rewrite Forall_forall in *. intros k'' Hin.
        destruct (Hall k'' Hin) as [Ha Hb]. split; [now apply Hne2|].
        unfold key_before in *. rewrite Hk. rewrite E in Hb.
        destruct (array_index k''); [contradiction|exact I].
Qed.

Lemma wf_keys_obj_set (k : string) (v : value) (m : props) :
  wf_keys (map fst m) -> wf_keys (map fst (obj_set k v m)).
Proof.
  intros Hwf. unfold obj_set. destruct (obj_has k m) eqn:Hh.
  - now rewrite map_fst_obj_replace.
  - destruct (array_index k) as [n|] eqn:E.
    + now apply wf_keys_insert_index.
    + rewrite map_app. cbn [map fst]. apply wf_keys_app.
      split; [exact Hwf|]. split; [cbn; split; constructor|].
      eapply Forall_impl; [apply (obj_has_false_Forall _ _ Hh)|].
      cbn. intros k' Hk'. constructor; [|constructor].
      split; [congruence|]. unfold key_before. rewrite E.
      now destruct (array_index k').
Qed.

Lemma wf_keys_obj_delete (k : string) (m : props) :
  wf_keys (map fst m) -> wf_keys (map fst (obj_delete k m)).
Proof.
  unfold obj_delete. induction m as [|[k' v'] m IH]; [auto|].
  cbn [map fst wf_keys List.filter]. intros [Hall Hwf].
  destruct (negb (String.eqb k' k)); [|auto].
  cbn [map fst wf_keys]. split; [|auto].
  clear -Hall. induction m as [|[k'' v''] m IH]; [constructor|].
  cbn in *. inversion Hall; subst.
  destruct (negb (String.eqb k'' k)); cbn; [constructor|]; auto.
Qed.

Lemma Forall_values_obj_set (P : value -> Prop) (k : string) (v : value) (m : props) :
  P v -> Forall (fun kv => P (snd kv)) m ->
  Forall (fun kv => P (snd kv)) (obj_set k v m).
Proof.
  intros Hv H. unfold obj_set. destruct (obj_has k m).
  - induction H as [|[k' v'] m Hx Hm IH]; cbn; [constructor|].
    destruct (String.eqb k' k); constructor; auto.
  - destruct (array_index k) as [n|].
    + induction H as [|[k' v'] m Hx Hm IH]; cbn; [repeat constructor; exact Hv|].
      destruct (array_index k') as [n'|]; [destruct (n' <? n)%N|];
        repeat constructor; auto.
    + apply Forall_app. split; [exact H|]. repeat constructor. exact Hv.
Qed.

Lemma wf_value_obj_set (k : string) (v : value) (m : props) :
  wf_value v -> wf_value (VObj m) -> wf_value (VObj (obj_set k v m)).
Proof.
  rewrite !wf_value_obj. intros Hv [H1 H2]. split.
  - now apply wf_keys_obj_set.
  - now apply Forall_values_obj_set.
Qed.

Lemma wf_value_obj_delete (k : string) (m : props) :
  wf_value (VObj m) -> wf_value (VObj (obj_delete k m)).
Proof.
  rewrite !wf_value_obj. intros [H1 H2]. split.
  - now apply wf_keys_obj_delete.
  - unfold obj_delete. clear H1. induction H2 as [|x m Hx _ IH]; cbn; [constructor|].
    destruct (negb _); [constructor|]; auto.
Qed.

Lemma parse_wf (fuel : nat) :
  (forall ts v r, parse_value fuel ts = Some (v, r) -> wf_value v) /\
  (forall acc ts v r, wf_value (VArr acc) ->
     parse_elems fuel acc ts = Some (v, r) -> wf_value v) /\
  (forall acc ts v r, wf_value (VObj acc) ->
     parse_members fuel acc ts = Some (v, r) -> wf_value v).
Proof.
  induction fuel as [|f (IHv & IHe & IHm)];
    [repeat split; intros; discriminate|].
  split; [|split].
  - intros ts v r H. cbn [parse_value] in H.
    destruct ts as [|t ts]; [discriminate|].
    destruct t; try discriminate; try (injection H as <- _; exact I).
    + destruct ts as [|t' ts']; [discriminate|].
      destruct t'; try discriminate.
      * injection H as <- _. cbn. split; constructor.
      * destruct ts' as [|t'' ts'']; [discriminate|].
        destruct t''; try discriminate.
        destruct (parse_value f ts'') as [[x r']|] eqn:E; [|discriminate].
        eapply IHm; [|exact H].
        apply (wf_value_obj_set s x []); [eapply IHv; exact E|cbn; split; constructor].
    + assert (G : forall ts0, match parse_value f ts0 with
                              | Some (x, r') => parse_elems f [x] r'
                              | None => None
                              end = Some (v, r) -> wf_value v).
      { intros ts0 H0. destruct (parse_value f ts0) as [[x r']|] eqn:E; [|discriminate].
        eapply IHe; [|exact H0]. apply wf_value_arr. constructor; [|constructor].
        eapply IHv; exact E. }
      destruct ts as [|t' ts']; [apply (G [] H)|].
      destruct t'; try apply (G _ H).
      injection H as <- _. exact I.
  - intros acc ts v r Hacc H. cbn [parse_elems] in H.
    destruct ts as [|t ts]; [discriminate|].
    destruct t; try discriminate.
    + injection H as <- _. exact Hacc.
    + destruct (parse_value f ts) as [[x r']|] eqn:E; [|discriminate].
      eapply IHe; [|exact H]. apply wf_value_arr. apply wf_value_arr in Hacc.
      apply Forall_app. split; [exact Hacc|]. constructor; [|constructor].
      eapply IHv; exact E.
  - intros acc ts v r Hacc H. cbn [parse_members] in H.
    destruct ts as [|t ts]; [discriminate|].
    destruct t; try discriminate.
    + injection H as <- _. exact Hacc.
    + destruct ts as [|t' ts']; [discriminate|].
      destruct t'; try discriminate.
      destruct ts' as [|t'' ts'']; [discriminate|].
      destruct t''; try discriminate.
      destruct (parse_value f ts'') as [[x r']|] eqn:E; [|discriminate].
      eapply IHm; [|exact H].
      apply wf_value_obj_set; [eapply IHv; exact E|exact Hacc].
Qed.

Lemma JSON_parse_wf (text : string) (v : value) :
  JSON_parse text = Ok v -> wf_value v.
Proof.
  unfold JSON_parse. destruct (lex text) as [ts|]; [|discriminate].
  destruct (parse_value _ ts) as [[x r]|] eqn:E; [|discriminate].
  destruct r; [|discriminate]. intros H. injection H as <-.
  eapply (proj1 (parse_wf _)); exact E.
Qed.

(** ** Export, then import *)

Lemma js_or_wf_truthy (x d : value) :
  wf_value x -> wf_value d -> truthy d = true ->
  wf_value (js_or x d) /\ truthy (js_or x d) = true.
Proof. intros Hx Hd Ht. unfold js_or. destruct (truthy x) eqn:E; auto. Qed.

Lemma parse_item_wf (k : string) (ls : gmap string string) (v : value) :
  parse_item k ls = Ok v -> wf_value v.
Proof. unfold parse_item. destruct (ls !! k); apply JSON_parse_wf. Qed.

Lemma loadPersisted_inv (ls : gmap string string) (f n m : value) :
  loadPersisted ls = Ok (f, n, m) ->
  (wf_value f /\ truthy f = true) /\ (wf_value n /\ truthy n = true) /\
  (wf_value m /\ truthy m = true).
Proof.
  unfold loadPersisted.
  destruct (parse_item "favorites" ls) as [x1|] eqn:E1; [|discriminate].
  destruct (parse_item "notes" ls) as [x2|] eqn:E2; [|discriminate].
  destruct (parse_item "moods" ls) as [x3|] eqn:E3; [|discriminate].
  cbn [rbind]. intros H. injection H as H1 H2 H3. subst f n m.
  pose proof (parse_item_wf _ _ _ E1). pose proof (parse_item_wf _ _ _ E2).
  pose proof (parse_item_wf _ _ _ E3).
  repeat split; apply js_or_wf_truthy; auto; cbn; auto.
Qed.

Lemma loadPersisted_after_save (ls : gmap string string) (f n m : value) :
  wf_value f -> truthy f = true -> wf_value n -> truthy n = true ->
  wf_value m -> truthy m = true ->
  loadPersisted
    (<["moods" := JSON_stringify m]>
       (<["notes" := JSON_stringify n]>
          (<["favorites" := JSON_stringify f]> ls)))
  = Ok (f, n, m).
Proof.
  intros Hf Tf Hn Tn Hm Tm. unfold loadPersisted, parse_item.
  rewrite lookup_insert_ne by discriminate.
  rewrite lookup_insert_ne by discriminate.
  rewrite lookup_insert_eq.
  rewrite (JSON_parse_stringify f Hf). cbn [rbind].
  rewrite lookup_insert_ne by discriminate.
  rewrite lookup_insert_eq.
  rewrite (JSON_parse_stringify n Hn). cbn [rbind].
  rewrite lookup_insert_eq.
  rewrite (JSON_parse_stringify m Hm). cbn [rbind].
  unfold js_or. now rewrite Tf, Tn, Tm.
Qed.

Lemma wf_value_snapshot (st : state) :
  wf_value (favorites st) -> wf_value (notes st) -> wf_value (moods st) ->
  wf_value (snapshot st).
Proof.
  intros Hf Hn Hm. unfold snapshot. apply wf_value_obj. split.
  - cbn. repeat split; repeat constructor; try discriminate.
  - repeat constructor; assumption.
Qed.

(** C9. In a state whose live collections are what the storage holds,
    [exportData] is a pure read: it changes neither the collections nor the
    storage and hands out a text that parses to a structural copy of the three
    collections. Importing that text leaves the FavoriteSet, the NoteMap and
    the MoodMap identical, and so the values persisted in the three slots
    (as the startup code reads them); the storage itself is identical
    whenever the three slots already held the collections' serializations. *)
Theorem export_then_import_is_identity :
  forall st : state,
    persisted_in_sync st ->
    let doc := JSON_stringify_pretty (snapshot st) in
    let st1 := exportData st in
    let st2 := importData doc st1 in
    downloads st1 = downloads st ++ [doc] /\
    same_annotations st st1 /\
    JSON_parse doc = Ok (snapshot st) /\
    favorites st2 = favorites st /\ notes st2 = notes st /\ moods st2 = moods st /\
    persisted_in_sync st2 /\
    loadPersisted (localStorage st2) = loadPersisted (localStorage st) /\
    (localStorage st !! "favorites" = Some (JSON_stringify (favorites st)) ->
     localStorage st !! "notes" = Some (JSON_stringify (notes st)) ->
     localStorage st !! "moods" = Some (JSON_stringify (moods st)) ->
     localStorage st2 = localStorage st).
Proof.
  intros st Hsync doc st1 st2.
  destruct (loadPersisted_inv _ _ _ _ Hsync) as ((Hf & Tf) & (Hn & Tn) & (Hm & Tm)).
  assert (Hdoc : JSON_parse doc = Ok (snapshot st)).
  { apply JSON_parse_stringify_pretty. now apply wf_value_snapshot. }
  split; [reflexivity|]. split; [unfold same_annotations; cbn; tauto|].
  split; [exact Hdoc|].
  destruct (importData_annotations doc st1 (snapshot st)
              (Some (favorites st)) (Some (notes st)) (Some (moods st))
              Hdoc eq_refl eq_refl eq_refl) as (E1 & E2 & E3 & E4).
  fold st2 in E1, E2, E3, E4.
  assert (F1 : favorites st2 = favorites st).
  { rewrite E1. now destruct (Array_isArray _). }
  assert (F2 : notes st2 = notes st).
  { rewrite E2. change (notes st1) with (notes st).
    unfold opt_or, js_or. now destruct (truthy (notes st)). }
  assert (F3 : moods st2 = moods st).
  { rewrite E3. change (moods st1) with (moods st).
    unfold opt_or, js_or. now destruct (truthy (moods st)). }
  rewrite <- E1, <- E2, <- E3 in E4. rewrite F1, F2, F3 in E4.
  change (localStorage st1) with (localStorage st) in E4.
  assert (S2 : loadPersisted (localStorage st2)
               = Ok (favorites st, notes st, moods st)).
  { rewrite E4. now apply loadPersisted_after_save. }
  split; [exact F1|]. split; [exact F2|]. split; [exact F3|].
  split; [unfold persisted_in_sync; now rewrite S2, F1, F2, F3|].
  split; [now rewrite S2, Hsync|].
  intros L1 L2 L3. rewrite E4.
  rewrite (insert_id (localStorage st) "favorites") by exact L1.
  rewrite (insert_id (localStorage st) "notes") by exact L2.
  now rewrite (insert_id (localStorage st) "moods") by exact L3.
Qed.

Lemma export_then_import_is_identity_witness :
  let st := annotated_state in
  let doc := JSON_stringify_pretty (snapshot st) in
  let st2 := importData doc (exportData st) in
  favorites st2 = favorites st /\ notes st2 = notes st /\ moods st2 = moods st /\
  loadPersisted (localStorage st2) = loadPersisted (localStorage st).
Proof.
  intros st doc st2.
  assert (Hsync : persisted_in_sync st) by (vm_compute; reflexivity).
  destruct (export_then_import_is_identity st Hsync)
    as (_ & _ & _ & H1 & H2 & H3 & _ & H4 & _).
  repeat split; assumption.
Defined.

(** ** Catalog loading *)

Lemma loadHymns_finally_ok (st : state) (fl : list value) (nm mm : props) :
  favorites st = VArr fl -> notes st = VObj nm -> moods st = VObj mm ->
  exists st',
    loadHymns_finally st = Done st' /\
    shown_hymns st' = content_of fl (lyricsCache st) (hymns st).
Proof.
  intros Hf Hn Hm. unfold loadHymns_finally.
  rewrite (renderHymnsList_arr fl) by exact Hf. cbn [obind].
  match goal with |- context [updateFavoritesDisplay ?s] => set (st1 := s) end.
  rewrite (updateFavoritesDisplay_arr st1 fl) by exact Hf. cbn [obind].
  match goal with |- context [updateNotesDisplay ?s] => set (st2 := s) end.
  rewrite (updateNotesDisplay_obj st2 fl nm) by assumption. cbn [obind].
  match goal with |- context [updateMoodDisplay ?s] => set (st3 := s) end.
  destruct (updateMoodDisplay_obj st3 fl mm) as [x Hx]; [assumption..|].
  rewrite Hx. eexists. split; reflexivity.
Qed.

Lemma loadHymns_finally_store (st : state) :
  store_eq st (final (loadHymns_finally st)).
Proof.
  unfold loadHymns_finally.
  apply store_eq_final_bind; [apply renderHymnsList_store|]. intros s1.
  apply store_eq_final_bind; [apply updateFavoritesDisplay_store|]. intros s2.
  apply store_eq_final_bind; [apply updateNotesDisplay_store|]. intros s3.
  apply updateMoodDisplay_store.
Qed.

Lemma loadHymns_finally_raw_store (items : list value) (st : state) :
  store_eq st (final (loadHymns_finally_raw items st)).
Proof.
  unfold loadHymns_finally_raw.
  destruct (map_r _ _); cbn [lift final]; apply store_eq_set_shown.
Qed.

(** Where [loadHymns] ends, thrown or not, for each value assigned to the
    catalog. *)
Lemma loadHymns_store (r : fetch_result) (st : state) :
  match loadHymns_try r with
  | Ok (Catalog hs) => store_eq (set_hymns hs st) (final (loadHymns r st))
  | Ok (RawList _) => store_eq st (final (loadHymns r st))
  | Throw _ =>
      store_eq (showToast "Using sample hymns (offline)" (set_hymns sampleHymns st))
        (final (loadHymns r st))
  end.
Proof.
  unfold loadHymns. destruct (loadHymns_try r) as [[hs|items]|e];
    [apply loadHymns_finally_store|apply loadHymns_finally_raw_store|
     apply loadHymns_finally_store].
Qed.

(** C3, as stated, fails in three ways. A payload that parses to a value that
    is not a list leaves the catalog empty, with no notification, instead of
    the sample catalog. A payload that is the list holding [null] is taken as
    the catalog and rendering it throws a [TypeError] out of [loadHymns]. And
    when the favorites slot of the storage held the text 5 at startup, the
    favorites are a number and rendering the sample catalog after a network
    error throws a [TypeError] out of [loadHymns]. *)
Lemma loadHymns_empty_catalog_or_throw :
  (exists st',
     loadHymns (JsonValue (PObj [("hymns", VArr [])])) state0 = Done st' /\
     hymns st' = [] /\ hymns st' <> sampleHymns /\
     toasts st' = [] /\ shown_hymns st' = EmptyState) /\
  (exists st',
     loadHymns (JsonValue (PArray [VNull])) state0 = Raised TypeError st') /\
  (exists st0 st',
     init_state {[ "favorites" := "5" ]} = Ok st0 /\
     favorites st0 = VNum 5 /\
     loadHymns FetchRejected st0 = Raised TypeError st').
Proof.
  split; [|split].
  - eexists. split; [reflexivity|]. split; [reflexivity|].
    split; [discriminate|]. split; reflexivity.
  - eexists. reflexivity.
  - eexists. eexists. split; [vm_compute; reflexivity|].
    split; [reflexivity|]. vm_compute. reflexivity.
Qed.

(** C3 (amended). Whatever the catalog fetch does and whatever the store
    holds, [loadHymns] leaves the annotations and the storage untouched, and
    where it ends, thrown or not: after a network error, a response that is
    not ok or a malformed payload, the catalog is the built-in sample catalog
    and the toast "Using sample hymns (offline)" has been shown; a payload
    that is a list of hymn records is the catalog, and a payload that is not a
    list gives the empty catalog, both without a toast. When moreover the
    favorites are an array, the notes and the moods are mappings and a list
    payload holds only hymn records, [loadHymns] completes without throwing
    and the main container shows the catalog. *)
Theorem loadHymns_falls_back_on_failure :
  forall (r : fetch_result) (st : state),
    let st' := final (loadHymns r st) in
    (fetch_failed r = true ->
       hymns st' = sampleHymns /\
       toasts st' = toasts st ++ ["Using sample hymns (offline)"]) /\
    (forall items hs,
       r = JsonValue (PArray items) -> catalog_of items = Some hs ->
       hymns st' = hs /\ toasts st' = toasts st) /\
    (fetch_failed r = false -> (forall items, r <> JsonValue (PArray items)) ->
       hymns st' = [] /\ toasts st' = toasts st) /\
    favorites st' = favorites st /\ notes st' = notes st /\
    moods st' = moods st /\ localStorage st' = localStorage st /\
    (forall (fl : list value) (nm mm : props),
       favorites st = VArr fl -> notes st = VObj nm -> moods st = VObj mm ->
       (forall items, r = JsonValue (PArray items) -> catalog_of items <> None) ->
       loadHymns r st = Done st' /\
       shown_hymns st' = content_of fl (lyricsCache st) (hymns st')).
Proof.
  intros r st st'. pose proof (loadHymns_store r st) as S. fold st' in S.
  assert (C : forall s, (forall fl nm mm,
              favorites st = VArr fl -> notes st = VObj nm -> moods st = VObj mm ->
              favorites s = VArr fl /\ notes s = VObj nm /\ moods s = VObj mm) ->
            lyricsCache s = lyricsCache st ->
            loadHymns r st = loadHymns_finally s -> hymns st' = hymns s ->
            forall fl nm mm,
              favorites st = VArr fl -> notes st = VObj nm -> moods st = VObj mm ->
              loadHymns r st = Done st' /\
              shown_hymns st' = content_of fl (lyricsCache st) (hymns st')).
  { intros s Hs Hc E Hh fl nm mm Hf Hn Hm.
    destruct (Hs fl nm mm Hf Hn Hm) as (H1 & H2 & H3).
    destruct (loadHymns_finally_ok s fl nm mm H1 H2 H3) as (x & Hx & Hsh).
    assert (X : st' = x) by (unfold st'; now rewrite E, Hx).
    rewrite E, X, Hx. split; [reflexivity|].
    rewrite Hsh, Hc. f_equal. rewrite <- X. now symmetry. }
  destruct r as [| | |p]; cbn [loadHymns_try fetch_failed] in *.
  1-3: destruct S as (E1 & _ & _ & E4 & E5 & E6 & _ & E8 & _ & E10 & _);
       cbn in E1, E4, E5, E6, E8, E10;
       (split; [intros _; split; assumption|]);
       (split; [intros items hs Hr; discriminate Hr|]);
       (split; [intros Hr; discriminate Hr|]);
       (do 4 (split; [assumption|]));
       intros fl nm mm Hf Hn Hm _;
       refine (C (showToast "Using sample hymns (offline)" (set_hymns sampleHymns st))
                 _ _ _ _ fl nm mm Hf Hn Hm);
       try assumption; try reflexivity; intros; cbn; tauto.
  split; [discriminate|].
  destruct p as [items| | | | |];
    [destruct (catalog_of items) as [hs|] eqn:Ec|..];
    destruct S as (E1 & _ & _ & E4 & E5 & E6 & _ & E8 & _ & E10 & _);
    cbn in E1, E4, E5, E6, E8, E10.
  1: { split; [intros items' hs' Hr Hc; injection Hr as <-;
               rewrite Ec in Hc; injection Hc as <-; tauto|].
       split; [intros _ Hr; exfalso; apply (Hr items); reflexivity|].
       do 4 (split; [assumption|]).
       intros fl nm mm Hf Hn Hm _.
       refine (C (set_hymns hs st) _ _ _ _ fl nm mm Hf Hn Hm); try assumption;
         try reflexivity; [intros; cbn; tauto|].
       unfold loadHymns. cbn [loadHymns_try]. now rewrite Ec. }
  1: { split; [intros items' hs' Hr Hc; injection Hr as <-;
               rewrite Ec in Hc; discriminate Hc|].
       split; [intros _ Hr; exfalso; apply (Hr items); reflexivity|].
       do 4 (split; [assumption|]).
       intros fl nm mm Hf Hn Hm Hr. exfalso.
       apply (Hr items); [reflexivity|exact Ec]. }
  all: split; [intros items' hs' Hr; discriminate Hr|]; split; [tauto|];
    do 4 (split; [assumption|]);
    intros fl nm mm Hf Hn Hm _;
    refine (C (set_hymns [] st) _ _ _ _ fl nm mm Hf Hn Hm); try assumption;
    try reflexivity; intros; cbn; tauto.
Qed.

Lemma loadHymns_falls_back_on_failure_witness :
  let st := set_hymns [bare_hymn 70 "Other"] annotated_state in
  let items := [VObj [("id", VNum 7); ("title", VStr "Grace Abounds")]] in
  (exists st',
     loadHymns JsonRejected st = Done st' /\
     hymns st' = sampleHymns /\
     toasts st' = ["Using sample hymns (offline)"] /\
     notes st' = VObj [("3", VStr "my note")]) /\
  (exists st',
     loadHymns (JsonValue (PArray items)) st = Done st' /\
     hymns st' = [grace_abounds] /\ toasts st' = []).
Proof.
  intros st items. split.
  - destruct (loadHymns_falls_back_on_failure JsonRejected st)
      as (H1 & _ & _ & _ & H5 & _ & _ & H8).
    destruct (H8 [] [("3", VStr "my note")] [("3", VStr "calm")]
                eq_refl eq_refl eq_refl) as [H _]; [discriminate|].
    eexists. split; [exact H|]. split; [exact (proj1 (H1 eq_refl))|].
    split; [exact (proj2 (H1 eq_refl))|exact H5].
  - destruct (loadHymns_falls_back_on_failure (JsonValue (PArray items)) st)
      as (_ & H2 & _ & _ & _ & _ & _ & H8).
    destruct (H8 [] [("3", VStr "my note")] [("3", VStr "calm")]
                eq_refl eq_refl eq_refl) as [H _].
    { intros items' E. injection E as <-. discriminate. }
    eexists. split; [exact H|]. exact (H2 items [grace_abounds] eq_refl eq_refl).
Defined.

(** * Further properties of the script *)

(** ** Mood tags *)

Lemma setMood_step (mood : string) (st : state) (h : hymn) (mm : props)
    (fl : list value) :
  currentHymn st = Some h -> moods st = VObj mm -> favorites st = VArr fl ->
  let mm' := obj_set (Z_to_string (hymn_id h)) (VStr mood) mm in
  exists st',
    setMood mood st = Done st' /\
    moods st' = VObj mm' /\
    toasts st' = toasts st ++ ["Mood set to " +:+ mood] /\
    localStorage st' = <["moods" := JSON_stringify (VObj mm')]> (localStorage st) /\
    currentHymn st' = Some h /\ favorites st' = VArr fl /\ notes st' = notes st /\
    hymns st' = hymns st.
Proof.
  intros Hc Hm Hf mm'. unfold setMood. rewrite Hc, Hm. cbn [set_item lift].
  fold mm'.
  match goal with |- context [updateHymnCard _ ?s] => set (st3 := s) end.
  destruct (updateHymnCard_arr (hymn_id h) st3 fl) as (st' & Hu & He);
    [subst st3; cbn; assumption|].
  exists st'. split; [exact Hu|].
  destruct He as (H1 & H2 & H3 & H4 & H5 & H6 & H7 & H8 & H9 & H10 & H11).
  subst st3. cbn in *.
  rewrite H6, H10, H8, H3, H4, H5, H1. repeat split; assumption.
Qed.

(** X1. With a hymn open, a mapping as MoodMap and an array of favorites,
    [setMood(mood)] stores the mood under the hymn's id, overwriting any
    earlier one, leaves the entries of other ids alone, overwrites the moods
    slot with the serialized MoodMap and shows "Mood set to <mood>"; a second
    call with another mood leaves that one: the last write wins. *)
Theorem setMood_last_write_wins :
  forall (mood : string) (st : state) (h : hymn) (mm : props) (fl : list value),
    currentHymn st = Some h -> moods st = VObj mm -> favorites st = VArr fl ->
    let k := Z_to_string (hymn_id h) in
    exists st' mm',
      setMood mood st = Done st' /\ moods st' = VObj mm' /\
      obj_get k mm' = Some (VStr mood) /\
      (forall k', k' <> k -> obj_get k' mm' = obj_get k' mm) /\
      localStorage st' = <["moods" := JSON_stringify (VObj mm')]> (localStorage st) /\
      toasts st' = toasts st ++ ["Mood set to " +:+ mood] /\
      favorites st' = favorites st /\ notes st' = notes st /\
      (forall mood2, exists st'' mm'',
          setMood mood2 st' = Done st'' /\ moods st'' = VObj mm'' /\
          obj_get k mm'' = Some (VStr mood2) /\
          length mm'' = length mm').
Proof.
  intros mood st h mm fl Hc Hm Hf k.
  destruct (setMood_step mood st h mm fl Hc Hm Hf)
    as (st' & Hs & Hm' & Ht & Hl & Hc' & Hf' & Hn' & _).
  eexists st', _. split; [exact Hs|]. split; [exact Hm'|].
  split; [fold k; now rewrite obj_get_set, String.eqb_refl|].
  split.
  { intros k' Hk'. fold k. rewrite obj_get_set.
    destruct (String.eqb_spec k k'); [congruence|reflexivity]. }
  split; [exact Hl|]. split; [exact Ht|]. split; [congruence|].
  split; [exact Hn'|].
  intros mood2.
  destruct (setMood_step mood2 st' h _ fl Hc' Hm' Hf') as (st'' & Hs'' & Hm'' & _).
  eexists st'', _. split; [exact Hs''|]. split; [exact Hm''|].
  fold k. split; [now rewrite obj_get_set, String.eqb_refl|].
  unfold obj_set at 1. rewrite obj_has_set.
  generalize (obj_set k (VStr mood) mm). intros m0.
  induction m0 as [|[k0 v0] m0 IH]; [reflexivity|]. cbn.
  destruct (String.eqb k0 k); cbn; [reflexivity|now rewrite IH].
Qed.

Lemma setMood_last_write_wins_witness :
  let st := set_currentHymn (Some (bare_hymn 3 "Three")) annotated_state in
  exists st' mm',
    setMood "happy" st = Done st' /\ moods st' = VObj mm' /\
    obj_get "3" mm' = Some (VStr "happy").
Proof.
  intros st.
  destruct (setMood_last_write_wins "happy" st (bare_hymn 3 "Three")
              [("3", VStr "calm")] [] eq_refl eq_refl eq_refl)
    as (st' & mm' & H1 & H2 & H3 & _).
  exists st', mm'. repeat split; assumption.
Defined.

(** ** Reset *)

Lemma filter_none {A} (p : A -> bool) (l : list A) :
  (forall x, p x = false) -> List.filter p l = [].
Proof.
  intros H. induction l as [|x l IH]; [reflexivity|]. cbn. now rewrite H.
Qed.

(** X2. [resetData] does nothing when the confirmation is declined. When it
    is accepted then, whatever the three collections held before (even values
    of the wrong shape), it completes without throwing, leaves an empty array
    and two empty mappings, writes their serializations to the three slots,
    shows the empty state in the favorites and notes containers and reports
    "All data reset"; the catalog is kept. *)
Theorem resetData_clears_any_store :
  forall st : state,
    resetData false st = Done st /\
    exists st',
      resetData true st = Done st' /\
      favorites st' = VArr [] /\ notes st' = VObj [] /\ moods st' = VObj [] /\
      localStorage st' =
        <["moods" := "{}"]> (<["notes" := "{}"]> (<["favorites" := "[]"]>
           (localStorage st))) /\
      shown_favorites st' = EmptyState /\ shown_notes st' = EmptyState /\
      toasts st' = toasts st ++ ["All data reset"] /\
      hymns st' = hymns st /\ persisted_in_sync st'.
Proof.
  intros st. split; [reflexivity|]. unfold resetData. cbn [negb].
  match goal with |- context [updateFavoritesDisplay ?s] => set (st4 := s) end.
  rewrite (updateFavoritesDisplay_arr st4 []) by reflexivity. cbn [obind].
  match goal with |- context [updateNotesDisplay ?s] => set (st5 := s) end.
  rewrite (updateNotesDisplay_obj st5 [] []) by reflexivity. cbn [obind].
  match goal with |- context [updateMoodDisplay ?s] => set (st6 := s) end.
  destruct (updateMoodDisplay_obj st6 [] []) as [x Hx]; [reflexivity..|].
  rewrite Hx. cbn [obind].
  match goal with |- context [renderHymnsList _ _ ?s] => set (st7 := s) end.
  rewrite (renderHymnsList_arr [] (hymns st7) hymnsContainer st7) by reflexivity.
  cbn [obind]. eexists. split; [reflexivity|].
  subst st7 st6 st5 st4. cbn.
  rewrite !filter_none by reflexivity. cbn.
  repeat split.
  apply (loadPersisted_after_save (localStorage st) (VArr []) (VObj []) (VObj []));
    cbn; auto.
Qed.

(** ** Lists and cards *)

Lemma set_shown_other (c c' : container) (x : content) (st : state) :
  c' <> c -> shown c' (set_shown c x st) = shown c' st.
Proof. destruct c, c'; intros H; try reflexivity; contradiction. Qed.

Lemma shown_set_shown (c : container) (x : content) (st : state) :
  shown c (set_shown c x st) = x.
Proof. destruct c; reflexivity. Qed.

(** X3. With an array of favorites, [renderHymnsList] never throws: it shows
    the empty-state block exactly when the list is empty and otherwise one
    card per item, in the order of the list, each carrying the item's id;
    the other containers and the store are untouched, and what the container
    showed before is irrelevant. *)
Theorem renderHymnsList_replaces_content :
  forall (hs : list hymn) (c : container) (st : state) (fl : list value),
    favorites st = VArr fl ->
    exists st',
      renderHymnsList hs c st = Done st' /\ store_eq st st' /\
      (shown c st' = EmptyState <-> hs = []) /\
      content_ids (shown c st') = map (fun h => Z_to_string (hymn_id h)) hs /\
      (forall c', c' <> c -> shown c' st' = shown c' st) /\
      (forall x, renderHymnsList hs c (set_shown c x st) = Done st').
Proof.
  intros hs c st fl Hf. rewrite (renderHymnsList_arr fl) by exact Hf.
  eexists. split; [reflexivity|]. split; [apply store_eq_set_shown|].
  rewrite shown_set_shown. split; [|split; [|split]].
  - destruct hs; cbn; split; congruence.
  - apply content_ids_content_of.
  - intros c' Hc'. now apply set_shown_other.
  - intros x. rewrite (renderHymnsList_arr fl).
    + now rewrite set_shown_twice.
    + destruct c; exact Hf.
Qed.

Lemma renderHymnsList_replaces_content_witness :
  exists st',
    renderHymnsList sampleHymns moodContainer annotated_state = Done st' /\
    content_ids (shown moodContainer st') = ["1"; "2"; "3"; "4"; "5"].
Proof.
  destruct (renderHymnsList_replaces_content sampleHymns moodContainer
              annotated_state [] eq_refl) as (st' & H1 & _ & _ & H2 & _).
  exists st'. split; [exact H1|]. rewrite H2. reflexivity.
Defined.

Lemma content_ids_replace_card (id : Z) (new : card) (x : content) :
  card_data_id new = Z_to_string id ->
  content_ids (replace_card id new x) = content_ids x.
Proof.
  intros Hn. destruct x as [|cs]; [reflexivity|]. cbn.
  induction cs as [|cd cs IH]; [reflexivity|]. cbn.
  unfold is_card_for at 1. destruct (String.eqb_spec (card_data_id cd) (Z_to_string id)).
  - cbn. congruence.
  - cbn. now rewrite IH.
Qed.

Lemma createHymnCardDOM_data_id (favs : value) (cache : gmap Z string) (h : hymn)
    (cd : card) :
  createHymnCardDOM favs cache h = Ok cd ->
  card_data_id cd = Z_to_string (hymn_id h).
Proof.
  unfold createHymnCardDOM. destruct (js_includes favs (hymn_id h)); [|discriminate].
  cbn [rbind]. intros H. injection H as <-. reflexivity.
Qed.

Lemma updateHymnCard_content_ids (id : Z) (st : state) (c : container) :
  content_ids (shown c (final (updateHymnCard id st))) = content_ids (shown c st).
Proof.
  unfold updateHymnCard.
  destruct (find_card_container id st) as [c0|]; [|reflexivity].
  destruct (find (fun h => (hymn_id h =? id)%Z) (hymns st)) as [h|] eqn:Ef;
    [|reflexivity].
  destruct (createHymnCardDOM (favorites st) (lyricsCache st) h) as [new|e] eqn:Ec;
    cbn [lift final]; [|reflexivity].
  assert (D : c = c0 \/ c <> c0)
    by (destruct c, c0; (left; reflexivity) || (right; discriminate)).
  destruct D as [->|Hne].
  - rewrite shown_set_shown. apply content_ids_replace_card.
    rewrite (createHymnCardDOM_data_id _ _ _ _ Ec).
    apply find_some in Ef as [_ Ef]. apply Z.eqb_eq in Ef. now rewrite Ef.
  - now rewrite set_shown_other.
Qed.

(** X4. [updateHymnCard(id)] never changes which cards a container shows: in
    each of the four containers the ids of the cards, in order, are the same
    before and after, whether the rebuild of the card throws or not; at most
    one container is touched, and the store is untouched. When no container
    has a card for the id, nothing changes at all. *)
Theorem updateHymnCard_keeps_card_ids :
  forall (id : Z) (st : state),
    let st' := final (updateHymnCard id st) in
    store_eq st st' /\
    (forall c, content_ids (shown c st') = content_ids (shown c st)) /\
    (exists c0, forall c, c <> c0 -> shown c st' = shown c st) /\
    (find_card_container id st = None -> updateHymnCard id st = Done st).
Proof.
  intros id st st'. split; [apply updateHymnCard_store|].
  split; [intros c; apply updateHymnCard_content_ids|].
  unfold st', updateHymnCard.
  destruct (find_card_container id st) as [c0|];
    [|split; [exists hymnsContainer|]; reflexivity].
  split; [|discriminate].
  exists c0. intros c Hc.
  destruct (find (fun h => (hymn_id h =? id)%Z) (hymns st)) as [h|]; [|reflexivity].
  destruct (createHymnCardDOM (favorites st) (lyricsCache st) h) as [new|e];
    cbn [lift final]; [|reflexivity].
  now apply set_shown_other.
Qed.

(** ** Favorites: error behaviour and invariant *)

(** X5. When the favorites are not an array (as after a startup from a
    favorites slot holding another kind of value), [toggleFavorite] throws a
    [TypeError] and changes nothing: no toast, no write to the storage. *)
Theorem toggleFavorite_throws_on_non_array :
  forall (id : Z) (st : state),
    (forall fl, favorites st <> VArr fl) ->
    snd (toggleFavorite id st) = Raised TypeError st.
Proof.
  intros id st H. unfold toggleFavorite. cbn [snd].
  destruct (favorites st) as [| b | z | s | l | m] eqn:E; try reflexivity.
  - cbn [js_indexOf lift].
    destruct (_ =? -1)%Z; reflexivity.
  - exfalso. now apply (H l).
Qed.

Lemma toggleFavorite_throws_on_non_array_witness :
  exists st,
    init_state (<["favorites" := "5"]> ∅) = Ok st /\
    favorites st = VNum 5 /\
    snd (toggleFavorite 1 st) = Raised TypeError st.
Proof.
  eexists. split; [vm_compute; reflexivity|]. split; [reflexivity|].
  apply toggleFavorite_throws_on_non_array. intros fl. discriminate.
Defined.

Lemma count_num_app (z : Z) (a b : list value) :
  count_num z (a ++ b) = count_num z a + count_num z b.
Proof. unfold count_num. now rewrite List.filter_app, length_app. Qed.

Lemma count_num_remove_first_le (z j : Z) (l : list value) :
  count_num j (remove_first z l) <= count_num j l.
Proof.
  unfold count_num. induction l as [|x l IH]; [reflexivity|]. cbn.
  destruct (strict_eq_num x z); cbn.
  - destruct (strict_eq_num x j); cbn; lia.
  - destruct (strict_eq_num x j); cbn; lia.
Qed.

(** X6. [toggleFavorite] keeps the FavoriteSet free of duplicates: if no id
    occurs twice in the array before the call, none does after it. *)
Theorem toggleFavorite_keeps_no_duplicates :
  forall (id : Z) (st : state) (fl : list value),
    favorites st = VArr fl ->
    (forall j, count_num j fl <= 1) ->
    exists st' fl',
      snd (toggleFavorite id st) = Done st' /\ favorites st' = VArr fl' /\
      forall j, count_num j fl' <= 1.
Proof.
  intros id st fl Hf Hc.
  destruct (toggleFavorite_step id st fl Hf) as (st' & Hs & Hf' & _).
  eexists st', _. split; [exact Hs|]. split; [exact Hf'|].
  intros j. destruct (mem_num id fl) eqn:M.
  - etransitivity; [apply count_num_remove_first_le|apply Hc].
  - rewrite count_num_app. unfold count_num at 2. cbn.
    destruct (Z.eqb_spec id j) as [<-|Hne]; cbn.
    + apply count_num_zero in M. lia.
    + specialize (Hc j). lia.
Qed.

Lemma toggleFavorite_keeps_no_duplicates_witness :
  exists st' fl',
    snd (toggleFavorite 4 (with_favorites [VNum 1; VNum 2] state0)) = Done st' /\
    favorites st' = VArr fl' /\
    forall j, count_num j fl' <= 1.
Proof.
  apply (toggleFavorite_keeps_no_duplicates 4
           (with_favorites [VNum 1; VNum 2] state0) [VNum 1; VNum 2] eq_refl).
  intros j. unfold count_num. cbn [List.filter strict_eq_num].
  destruct (Z.eqb_spec 1 j), (Z.eqb_spec 2 j); cbn [length]; lia.
Defined.

(** ** The favorites list *)

Lemma content_of_ext (fl fl2 : list value) (cache : gmap Z string) (hs : list hymn) :
  (forall z, mem_num z fl2 = mem_num z fl) ->
  content_of fl2 cache hs = content_of fl cache hs.
Proof.
  intros H. unfold content_of. destruct hs as [|h hs]; [reflexivity|].
  f_equal. apply map_ext. intros x. unfold card_of.
  change (existsb (fun y => strict_eq_num y (hymn_id x)) fl2)
    with (mem_num (hymn_id x) fl2).
  change (existsb (fun y => strict_eq_num y (hymn_id x)) fl)
    with (mem_num (hymn_id x) fl).
  now rewrite H.
Qed.

(** X7. With an array of favorites, [updateFavoritesDisplay] shows exactly the
    catalog items whose id is in the array, in catalog order: ids that match
    no catalog item are invisible, and the order in which the ids were added
    does not matter (two arrays with the same members give the same
    display). *)
Theorem updateFavoritesDisplay_catalog_order :
  forall (st : state) (fl : list value),
    favorites st = VArr fl ->
    exists st',
      updateFavoritesDisplay st = Done st' /\ store_eq st st' /\
      content_ids (shown_favorites st') =
        map (fun h => Z_to_string (hymn_id h))
          (List.filter (fun h => mem_num (hymn_id h) fl) (hymns st)) /\
      (forall fl2, (forall z, mem_num z fl2 = mem_num z fl) ->
         exists st2,
           updateFavoritesDisplay (set_favorites (VArr fl2) st) = Done st2 /\
           shown_favorites st2 = shown_favorites st').
Proof.
  intros st fl Hf. rewrite (updateFavoritesDisplay_arr st fl Hf).
  eexists. split; [reflexivity|]. split; [apply store_eq_set_shown|].
  split; [apply content_ids_content_of|].
  intros fl2 H2. rewrite (updateFavoritesDisplay_arr _ fl2) by reflexivity.
  eexists. split; [reflexivity|]. cbn [set_shown shown_favorites set_favorites
    lyricsCache hymns].
  rewrite (content_of_ext fl fl2) by exact H2. f_equal.
  apply List.filter_ext. intros h. apply H2.
Qed.

Lemma updateFavoritesDisplay_catalog_order_witness :
  exists st',
    updateFavoritesDisplay (with_favorites [VNum 9; VNum 4; VNum 2]
                              (set_hymns sampleHymns state0)) = Done st' /\
    content_ids (shown_favorites st') = ["2"; "4"].
Proof.
  destruct (updateFavoritesDisplay_catalog_order
              (with_favorites [VNum 9; VNum 4; VNum 2] (set_hymns sampleHymns state0))
              [VNum 9; VNum 4; VNum 2] eq_refl) as (st' & H1 & _ & H2 & _).
  exists st'. split; [exact H1|]. rewrite H2. reflexivity.
Defined.

(** ** Import: failures and missing fields *)

(** X8. A file that does not parse, or that parses to [null], is reported
    with "Import failed" and changes nothing else: collections, storage,
    containers and catalog are as before. *)
Theorem importData_rejects_unparsable :
  forall (text : string) (st : state),
    (forall v, JSON_parse text = Ok v -> v = VNull) ->
    importData text st = showToast "Import failed" st.
Proof.
  intros text st H. unfold importData, import_try.
  destruct (JSON_parse text) as [v|e]; [|reflexivity].
  rewrite (H v eq_refl). reflexivity.
Qed.

Lemma importData_rejects_unparsable_witness :
  importData "{bad" annotated_state = showToast "Import failed" annotated_state.
Proof.
  apply importData_rejects_unparsable.
  intros v H. vm_compute in H. discriminate H.
Defined.

Lemma get_field_nonnull (data : value) (name : string) :
  data <> VNull -> exists o, get_field data name = Ok o.
Proof. destruct data; intros H; try contradiction; cbn; eauto. Qed.

(** X9. An import never turns the favorites into something that is not an
    array: the favorites field of the document is taken only when it is an
    array, whatever the file holds. *)
Theorem importData_keeps_favorites_an_array :
  forall (text : string) (st : state) (fl : list value),
    favorites st = VArr fl ->
    exists fl', favorites (importData text st) = VArr fl'.
Proof.
  intros text st fl Hf.
  destruct (JSON_parse text) as [data|e] eqn:Hp.
  - assert (D : data = VNull \/ data <> VNull)
      by (destruct data; (left; reflexivity) || (right; discriminate)).
    destruct D as [->|Hnn].
    + rewrite importData_rejects_unparsable; [now exists fl|].
      intros v Hv. congruence.
    + destruct (get_field_nonnull data "favorites" Hnn) as [df Hdf].
      destruct (get_field_nonnull data "notes" Hnn) as [dn Hdn].
      destruct (get_field_nonnull data "moods" Hnn) as [dm Hdm].
      destruct (importData_annotations text st data df dn dm Hp Hdf Hdn Hdm)
        as (E & _).
      rewrite E. destruct df as [[| | | |l|]|]; cbn; eauto.
  - rewrite importData_rejects_unparsable; [now exists fl|].
    intros v Hv. congruence.
Qed.

Lemma importData_keeps_favorites_an_array_witness :
  exists fl',
    favorites (importData (dq "{'favorites':'all of them','notes':{'1':'n'}}")
                 annotated_state) = VArr fl'.
Proof.
  apply (importData_keeps_favorites_an_array _ annotated_state []). reflexivity.
Defined.

(** X10. A document that parses but has none of the three fields (a number,
    a string, an array, an object with other keys) replaces no collection:
    the three collections are unchanged and the three slots are rewritten
    with their serializations. *)
Theorem importData_without_fields_keeps_collections :
  forall (text : string) (st : state) (data : value),
    JSON_parse text = Ok data ->
    get_field data "favorites" = Ok None ->
    get_field data "notes" = Ok None ->
    get_field data "moods" = Ok None ->
    let st' := importData text st in
    favorites st' = favorites st /\ notes st' = notes st /\ moods st' = moods st /\
    localStorage st' =
      <["moods" := JSON_stringify (moods st)]>
        (<["notes" := JSON_stringify (notes st)]>
           (<["favorites" := JSON_stringify (favorites st)]> (localStorage st))).
Proof.
  intros text st data Hp Hf Hn Hm.
  exact (importData_annotations text st data None None None Hp Hf Hn Hm).
Qed.

Lemma importData_without_fields_keeps_collections_witness :
  let st' := importData "[1,2,3]" annotated_state in
  favorites st' = favorites annotated_state /\
  notes st' = notes annotated_state /\ moods st' = moods annotated_state.
Proof.
  intros st'.
  destruct (importData_without_fields_keeps_collections "[1,2,3]" annotated_state
              (VArr [VNum 1; VNum 2; VNum 3]) eq_refl eq_refl eq_refl eq_refl)
    as (H1 & H2 & H3 & _).
  repeat split; assumption.
Defined.

(** ** Startup *)

Lemma parse_item_insert_ne (k k' text : string) (ls : gmap string string) :
  k <> k' -> parse_item k' (<[k := text]> ls) = parse_item k' ls.
Proof. intros H. unfold parse_item. now rewrite lookup_insert_ne. Qed.

Lemma loadPersisted_Ok (ls : gmap string string) (f n m : value) :
  loadPersisted ls = Ok (f, n, m) <->
  exists x1 x2 x3,
    parse_item "favorites" ls = Ok x1 /\ parse_item "notes" ls = Ok x2 /\
    parse_item "moods" ls = Ok x3 /\
    f = js_or x1 (VArr []) /\ n = js_or x2 (VObj []) /\ m = js_or x3 (VObj []).
Proof.
  unfold loadPersisted. split.
  - destruct (parse_item "favorites" ls) as [x1|]; [|discriminate].
    destruct (parse_item "notes" ls) as [x2|]; [|discriminate].
    destruct (parse_item "moods" ls) as [x3|]; [|discriminate].
    cbn [rbind]. intros H. injection H as H1 H2 H3. exists x1, x2, x3.
    repeat split; congruence.
  - intros (x1 & x2 & x3 & -> & -> & -> & -> & -> & ->). reflexivity.
Qed.

(** X11. When the three slots can be read, each collection depends on its own
    slot only: a missing slot gives the empty array or the empty mapping, and
    overwriting one slot (with a text that still lets the startup succeed)
    changes nothing in what is loaded for the other two. *)
Theorem loadPersisted_slots_independent :
  forall (ls : gmap string string) (f n m : value),
    loadPersisted ls = Ok (f, n, m) ->
    (ls !! "favorites" = None -> f = VArr []) /\
    (ls !! "notes" = None -> n = VObj []) /\
    (ls !! "moods" = None -> m = VObj []) /\
    (forall k text f' n' m',
       loadPersisted (<[k := text]> ls) = Ok (f', n', m') ->
       (k <> "favorites" -> f' = f) /\ (k <> "notes" -> n' = n) /\
       (k <> "moods" -> m' = m)).
Proof.
  intros ls f n m H. apply loadPersisted_Ok in H
    as (x1 & x2 & x3 & E1 & E2 & E3 & -> & -> & ->).
  split; [|split; [|split]].
  - intros Hk. unfold parse_item in E1. rewrite Hk in E1.
    vm_compute in E1. injection E1 as <-. reflexivity.
  - intros Hk. unfold parse_item in E2. rewrite Hk in E2.
    vm_compute in E2. injection E2 as <-. reflexivity.
  - intros Hk. unfold parse_item in E3. rewrite Hk in E3.
    vm_compute in E3. injection E3 as <-. reflexivity.
  - intros k text f' n' m' H'. apply loadPersisted_Ok in H'
      as (y1 & y2 & y3 & F1 & F2 & F3 & -> & -> & ->).
    split; [|split]; intros Hk.
    + rewrite parse_item_insert_ne in F1 by exact Hk. congruence.
    + rewrite parse_item_insert_ne in F2 by exact Hk. congruence.
    + rewrite parse_item_insert_ne in F3 by exact Hk. congruence.
Qed.

Lemma loadPersisted_slots_independent_witness :
  let ls : gmap string string := <["favorites" := "[1,2]"]> ∅ in
  loadPersisted ls = Ok (VArr [VNum 1; VNum 2], VObj [], VObj []) /\
  loadPersisted (<["notes" := dq "{'3':'x'}"]> ls)
    = Ok (VArr [VNum 1; VNum 2], VObj [("3", VStr "x")], VObj []) /\
  ("notes" <> "favorites" -> VArr [VNum 1; VNum 2] = VArr [VNum 1; VNum 2]).
Proof.
  intros ls. split; [reflexivity|]. split; [vm_compute; reflexivity|].
  destruct (loadPersisted_slots_independent ls
              (VArr [VNum 1; VNum 2]) (VObj []) (VObj []) eq_refl)
    as (_ & _ & _ & H).
  refine (proj1 (H "notes" (dq "{'3':'x'}")
                   (VArr [VNum 1; VNum 2]) (VObj [("3", VStr "x")]) (VObj []) _)).
  vm_compute. reflexivity.
Defined.

(** ** The storage after each mutation *)

Lemma loadPersisted_insert_favorites (ls : gmap string string) (f n m v : value) :
  loadPersisted ls = Ok (f, n, m) -> wf_value v -> truthy v = true ->
  loadPersisted (<["favorites" := JSON_stringify v]> ls) = Ok (v, n, m).
Proof.
  intros H Hw Ht. apply loadPersisted_Ok in H
    as (x1 & x2 & x3 & E1 & E2 & E3 & -> & -> & ->).
  apply loadPersisted_Ok. exists v, x2, x3.
  rewrite (parse_item_insert_ne "favorites" "notes"), (parse_item_insert_ne "favorites" "moods") by discriminate.
  unfold parse_item at 1. rewrite lookup_insert_eq, (JSON_parse_stringify v Hw).
  assert (J : js_or v (VArr []) = v /\ js_or v (VObj []) = v)
    by (unfold js_or; rewrite Ht; auto).
  destruct J as [J1 J2]. repeat split; auto.
Qed.

Lemma loadPersisted_insert_notes (ls : gmap string string) (f n m v : value) :
  loadPersisted ls = Ok (f, n, m) -> wf_value v -> truthy v = true ->
  loadPersisted (<["notes" := JSON_stringify v]> ls) = Ok (f, v, m).
Proof.
  intros H Hw Ht. apply loadPersisted_Ok in H
    as (x1 & x2 & x3 & E1 & E2 & E3 & -> & -> & ->).
  apply loadPersisted_Ok. exists x1, v, x3.
  rewrite (parse_item_insert_ne "notes" "favorites"), (parse_item_insert_ne "notes" "moods") by discriminate.
  unfold parse_item at 2. rewrite lookup_insert_eq, (JSON_parse_stringify v Hw).
  assert (J : js_or v (VArr []) = v /\ js_or v (VObj []) = v)
    by (unfold js_or; rewrite Ht; auto).
  destruct J as [J1 J2]. repeat split; auto.
Qed.

Lemma loadPersisted_insert_moods (ls : gmap string string) (f n m v : value) :
  loadPersisted ls = Ok (f, n, m) -> wf_value v -> truthy v = true ->
  loadPersisted (<["moods" := JSON_stringify v]> ls) = Ok (f, n, v).
Proof.
  intros H Hw Ht. apply loadPersisted_Ok in H
    as (x1 & x2 & x3 & E1 & E2 & E3 & -> & -> & ->).
  apply loadPersisted_Ok. exists x1, x2, v.
  rewrite (parse_item_insert_ne "moods" "favorites"), (parse_item_insert_ne "moods" "notes") by discriminate.
  unfold parse_item at 3. rewrite lookup_insert_eq, (JSON_parse_stringify v Hw).
  assert (J : js_or v (VArr []) = v /\ js_or v (VObj []) = v)
    by (unfold js_or; rewrite Ht; auto).
  destruct J as [J1 J2]. repeat split; auto.
Qed.

Lemma Forall_remove_first (P : value -> Prop) (z : Z) (l : list value) :
  Forall P l -> Forall P (remove_first z l).
Proof.
  induction 1 as [|x l Hx Hl IH]; cbn; [constructor|].
  destruct (strict_eq_num x z); [exact Hl|now constructor].
Qed.

(** X12. The storage follows every mutation: in a state whose collections
    have their shapes and are what the storage holds, after
    [toggleFavorite], [saveNote] or [setMood] the storage, read as the
    startup code reads it, again gives exactly the live collections, so a
    restart loses nothing. *)
Theorem mutators_keep_storage_in_sync :
  forall (st : state) (fl : list value) (nm mm : props),
    favorites st = VArr fl -> notes st = VObj nm -> moods st = VObj mm ->
    persisted_in_sync st ->
    (forall id, exists st',
        snd (toggleFavorite id st) = Done st' /\ persisted_in_sync st') /\
    (forall h, currentHymn st = Some h ->
       (exists st', saveNote st = Done st' /\ persisted_in_sync st') /\
       (forall mood, exists st',
           setMood mood st = Done st' /\ persisted_in_sync st')).
Proof.
  intros st fl nm mm Hf Hn Hm Hsync.
  destruct (loadPersisted_inv _ _ _ _ Hsync) as ((Wf & _) & (Wn & _) & (Wm & _)).
  unfold persisted_in_sync in *. split.
  - intros id.
    destruct (toggleFavorite_step id st fl Hf) as (st' & Hs & Hf' & _ & Hl & Hn' & Hm' & _).
    exists st'. split; [exact Hs|]. rewrite Hl, Hf', Hn', Hm'.
    eapply loadPersisted_insert_favorites; [exact Hsync| |reflexivity].
    rewrite Hf in Wf. apply wf_value_arr in Wf. apply wf_value_arr.
    destruct (mem_num id fl).
    + now apply Forall_remove_first.
    + apply Forall_app. split; [exact Wf|]. repeat constructor.
  - intros h Hc. split.
    + destruct (saveNote_step st h nm fl Hc Hn Hf)
        as (st' & Hs & Hn' & _ & Hl & _ & Hf' & Hm' & _).
      exists st'. split; [exact Hs|]. rewrite Hl, Hf', Hn', Hm', <- Hf.
      eapply loadPersisted_insert_notes; [exact Hsync| |reflexivity].
      rewrite Hn in Wn.
      destruct (String.eqb _ "");
        [now apply wf_value_obj_delete|now apply wf_value_obj_set].
    + intros mood.
      destruct (setMood_step mood st h mm fl Hc Hm Hf)
        as (st' & Hs & Hm' & _ & Hl & _ & Hf' & Hn' & _).
      exists st'. split; [exact Hs|]. rewrite Hl, Hf', Hn', Hm', <- Hf.
      eapply loadPersisted_insert_moods; [exact Hsync| |reflexivity].
      rewrite Hm in Wm. now apply wf_value_obj_set.
Qed.

Lemma mutators_keep_storage_in_sync_witness :
  exists st',
    snd (toggleFavorite 2 annotated_state) = Done st' /\ persisted_in_sync st'.
Proof.
  refine (proj1 (mutators_keep_storage_in_sync annotated_state []
                   [("3", VStr "my note")] [("3", VStr "calm")]
                   eq_refl eq_refl eq_refl _) 2%Z).
  vm_compute. reflexivity.
Defined.

(** ** Search by number *)

Lemma numeral_text_uint (d : Decimal.uint) :
  numeral_text (NilEmpty.string_of_uint d) = true.
Proof. induction d; cbn; auto. Qed.

Lemma numeral_text_Z_to_string (z : Z) : numeral_text (Z_to_string z) = true.
Proof.
  destruct z; cbn [Z_to_string]; [reflexivity|apply numeral_text_uint|].
  cbn. apply numeral_text_uint.
Qed.

Lemma numeral_text_app (a b : string) :
  numeral_text (a +:+ b) = numeral_text a && numeral_text b.
Proof.
  induction a as [|c a IH]; [reflexivity|]. cbn. rewrite IH.
  now rewrite andb_assoc.
Qed.

Lemma numeral_text_zeros (n : nat) : numeral_text (repeat_char n "0") = true.
Proof. induction n; [reflexivity|exact IHn]. Qed.

Lemma numeral_char_plain (c : ascii) :
  is_digit c || Ascii.eqb c "-" = true ->
  lower_char c = c /\ is_space c = false.
Proof. destruct c as [[] [] [] [] [] [] [] []]; intros H; try discriminate H; auto. Qed.

Lemma numeral_text_normal (s : string) :
  numeral_text s = true -> trim (toLowerCase s) = s.
Proof.
  intros H.
  assert (L : toLowerCase s = s).
  { induction s as [|c s IH]; [reflexivity|]. cbn in *.
    apply andb_true_iff in H as [H1 H2].
    now rewrite (proj1 (numeral_char_plain c H1)), IH. }
  rewrite L. unfold trim.
  assert (S : trimStart s = s).
  { destruct s as [|c s]; [reflexivity|]. cbn in *.
    apply andb_true_iff in H as [H1 _].
    now rewrite (proj2 (numeral_char_plain c H1)). }
  rewrite S. clear L S.
  induction s as [|c s IH]; [reflexivity|]. cbn in *.
  apply andb_true_iff in H as [H1 H2]. rewrite (IH H2).
  destruct s; [|reflexivity].
  now rewrite (proj2 (numeral_char_plain c H1)).
Qed.

Lemma Z_to_string_nonempty (z : Z) : Z_to_string z <> "".
Proof.
  destruct z as [|p|p]; cbn [Z_to_string]; try discriminate.
  destruct (N_to_string_pos p) as (c & r & E & _). rewrite E. discriminate.
Qed.

(** X13. Searching for a hymn's number always finds it: for every hymn of the
    catalog, the query made of its id in decimal keeps it in the filtered
    list, and so does the id padded with zeros to three digits. *)
Theorem filtered_finds_hymn_by_number :
  forall (st : state) (h : hymn),
    In h (hymns st) ->
    In h (filtered (Z_to_string (hymn_id h)) st) /\
    In h (filtered (padStart 3 "0" (Z_to_string (hymn_id h))) st).
Proof.
  intros st h Hin.
  assert (G : forall q, numeral_text q = true -> q <> "" ->
                String.eqb (Z_to_string (hymn_id h)) q
                || String.eqb (padStart 3 "0" (Z_to_string (hymn_id h))) q = true ->
                In h (filtered q st)).
  { intros q Hq Hne Hm. unfold filtered, filtered_with.
    rewrite (numeral_text_normal q Hq).
    destruct (String.eqb_spec q ""); [contradiction|].
    apply filter_In. split; [exact Hin|]. unfold query_matches_with.
    now rewrite Hm. }
  split.
  - apply G; [apply numeral_text_Z_to_string|apply Z_to_string_nonempty|].
    now rewrite String.eqb_refl.
  - apply G.
    + unfold padStart. rewrite numeral_text_app, numeral_text_zeros.
      apply numeral_text_Z_to_string.
    + unfold padStart. intros E.
      destruct (repeat_char _ _); [|discriminate].
      now apply Z_to_string_nonempty in E.
    + rewrite String.eqb_refl. apply orb_true_r.
Qed.

Lemma filtered_finds_hymn_by_number_witness :
  let h := bare_hymn 7 "Grace Abounds" in
  let st := set_hymns [bare_hymn 70 "Other"; h] state0 in
  In h (filtered "7" st) /\ In h (filtered "007" st).
Proof.
  intros h st.
  apply (filtered_finds_hymn_by_number st h). right. left. reflexivity.
Defined.

(** ** Time display *)

Lemma two_digits_length (k : nat) :
  k < 60 -> String.length (two_digits (Z.of_nat k)) = 2.
Proof.
  intros H. do 60 (destruct k as [|k]; [reflexivity|]). lia.
Qed.

(** X14. For a whole number of seconds from 0 to below 2^53, [formatTime]
    prints the minutes, a colon and the remaining seconds on exactly two
    digits: the seconds shown are below 60 and minutes and seconds add up to
    the input. *)
Theorem formatTime_minutes_and_seconds :
  forall seconds : Z,
    (0 <= seconds < 2 ^ 53)%Z ->
    exists mins secs : Z,
      formatTime seconds = Some (Z_to_string mins +:+ ":" +:+ two_digits secs) /\
      (0 <= mins)%Z /\ (0 <= secs < 60)%Z /\
      seconds = (60 * mins + secs)%Z /\
      String.length (two_digits secs) = 2.
Proof.
  intros s Hs. exists (s / 60)%Z, (Z.rem s 60).
  rewrite Z.rem_mod_nonneg by lia.
  pose proof (Z.mod_pos_bound s 60 ltac:(lia)) as Hb.
  split.
  { unfold formatTime.
    replace ((0 <=? s)%Z && (s <? 2 ^ 53)%Z) with true
      by (symmetry; apply andb_true_iff; split; [apply Z.leb_le|apply Z.ltb_lt]; lia).
    rewrite Z.rem_mod_nonneg by lia. reflexivity. }
  split; [apply Z.div_pos; lia|]. split; [exact Hb|].
  split; [apply Z.div_mod; lia|].
  rewrite <- (Z2Nat.id (s mod 60)) by lia.
  apply two_digits_length. lia.
Qed.

Lemma formatTime_minutes_and_seconds_witness :
  exists mins secs : Z,
    formatTime 125 = Some (Z_to_string mins +:+ ":" +:+ two_digits secs) /\
    (0 <= mins)%Z /\ (0 <= secs < 60)%Z /\
    125%Z = (60 * mins + secs)%Z /\
    String.length (two_digits secs) = 2.
Proof. apply formatTime_minutes_and_seconds. lia. Defined.

(** ** Lyrics cache *)

Lemma fetchLyricsIfNeeded_cached (h : hymn) (lyricsFile lyricsUrl : option string)
    (net : text_response) (cache : gmap Z string) :
  let r := fetchLyricsIfNeeded (Some h) lyricsFile lyricsUrl net cache in
  snd r !! hymn_id h = Some (fst r).
Proof.
  unfold fetchLyricsIfNeeded.
  destruct (negb (String.eqb (str_or (hymn_lyrics h) "") ""));
    [cbn; apply lookup_insert_eq|].
  destruct (cache !! hymn_id h) as [t|] eqn:Ec; [exact Ec|].
  destruct (negb _); [destruct net|]; cbn; apply lookup_insert_eq.
Qed.

(** X15. [fetchLyricsIfNeeded] asks the network at most once per hymn: after a
    first call, a second call for the same hymn returns the same text and
    leaves the cache unchanged whatever the network would answer then, also
    when the first answer was a failure (the placeholder is cached like
    any text). The cache entry of the hymn is the text returned, and the
    entries of other hymns are untouched. *)
Theorem fetchLyricsIfNeeded_fetches_once :
  forall (h : hymn) (lyricsFile lyricsUrl file2 url2 : option string)
         (net net2 : text_response) (cache : gmap Z string),
    let r := fetchLyricsIfNeeded (Some h) lyricsFile lyricsUrl net cache in
    fetchLyricsIfNeeded (Some h) file2 url2 net2 (snd r) = r /\
    snd r !! hymn_id h = Some (fst r) /\
    (forall id', id' <> hymn_id h -> snd r !! id' = cache !! id') /\
    (str_or (hymn_lyrics h) "" = "" -> cache !! hymn_id h = None ->
     (forall text, net <> TextOk text) -> fst r = "Lyrics not available").
Proof.
  intros h f u f2 u2 net net2 cache r. unfold r, fetchLyricsIfNeeded.
  destruct (String.eqb_spec (str_or (hymn_lyrics h) "") "") as [E|E]; cbn [negb].
  - destruct (cache !! hymn_id h) as [t|] eqn:Ec.
    + cbn [fst snd]. rewrite Ec. repeat split; auto. congruence.
    + assert (G : forall text,
        (let c' := <[hymn_id h := text]> cache in
         match c' !! hymn_id h with
         | Some t => (t, c')
         | None =>
             if negb (String.eqb (str_or f2 (str_or u2 "")) "") then
               match net2 with
               | TextOk text2 => (text2, <[hymn_id h := text2]> c')
               | _ => ("Lyrics not available",
                       <[hymn_id h := "Lyrics not available"]> c')
               end
             else ("Lyrics not available",
                   <[hymn_id h := "Lyrics not available"]> c')
         end = (text, c')) /\
        <[hymn_id h := text]> cache !! hymn_id h = Some text /\
        (forall id', id' <> hymn_id h ->
           <[hymn_id h := text]> cache !! id' = cache !! id')).
      { intros text. cbn zeta. rewrite lookup_insert_eq.
        repeat split. intros id' Hne. now rewrite lookup_insert_ne. }
      destruct (negb (String.eqb (str_or f (str_or u "")) ""));
        [destruct net as [| |text]|]; cbn [fst snd];
        match goal with
        | |- context [<[hymn_id h := ?t]> cache] =>
            destruct (G t) as (G1 & G2 & G3)
        end;
        (split; [exact G1|]); (split; [exact G2|]); (split; [exact G3|]);
        intros _ _ Hnet; try reflexivity.
      exfalso. now apply (Hnet text).
  - cbn [fst snd].
    destruct (String.eqb_spec (str_or (hymn_lyrics h) "") ""); [contradiction|].
    cbn [negb]. rewrite insert_insert_eq, lookup_insert_eq.
    repeat split; [|contradiction].
    intros id' Hne. now rewrite lookup_insert_ne.
Qed.

(** ** Opening a hymn *)

(** X16. [openHymnDetail(id)] does nothing for an id that is not in the
    catalog. For an id of the catalog it makes the first item with that id
    the current hymn; it never changes the annotations, the storage, the
    catalog or the toasts, even if it throws; and on a store of the expected
    shapes it completes with the lyrics of the hymn in the cache. *)
Theorem openHymnDetail_sets_current_hymn :
  forall (id : Z) (lyricsFile lyricsUrl : option string) (net : text_response)
         (st : state),
    let o := openHymnDetail id lyricsFile lyricsUrl net st in
    same_annotations st (final o) /\ hymns (final o) = hymns st /\
    toasts (final o) = toasts st /\
    (find (fun h => (hymn_id h =? id)%Z) (hymns st) = None -> o = Done st) /\
    (forall h, find (fun h => (hymn_id h =? id)%Z) (hymns st) = Some h ->
       In h (hymns st) /\ hymn_id h = id /\ currentHymn (final o) = Some h /\
       (well_shaped st ->
        exists st', o = Done st' /\
          lyricsCache st' !! id =
            Some (fst (fetchLyricsIfNeeded (Some h) lyricsFile lyricsUrl net
                         (lyricsCache st))))).
Proof.
  intros id f u net st o. unfold o, openHymnDetail.
  destruct (find (fun h => (hymn_id h =? id)%Z) (hymns st)) as [h|] eqn:Ef.
  - pose proof (find_some _ _ Ef) as [Hin Hid]. apply Z.eqb_eq in Hid.
    cbn [favorites set_currentHymn moods].
    destruct (js_includes (favorites st) id) as [b|e] eqn:E1; cbn [lift final].
    + destruct (get_item (moods st) id) as [v|e] eqn:E2; cbn [lift final].
      * split; [unfold same_annotations; cbn; tauto|].
        split; [reflexivity|]. split; [reflexivity|]. split; [discriminate|].
        intros h' Hh'. injection Hh' as <-.
        split; [exact Hin|]. split; [exact Hid|]. split; [reflexivity|].
        intros _. eexists. split; [reflexivity|]. cbn [lyricsCache set_lyricsCache].
        pose proof (fetchLyricsIfNeeded_cached h f u net (lyricsCache st)) as G.
        now rewrite Hid in G.
      * split; [unfold same_annotations; cbn; tauto|].
        split; [reflexivity|]. split; [reflexivity|]. split; [discriminate|].
        intros h' Hh'. injection Hh' as <-.
        split; [exact Hin|]. split; [exact Hid|]. split; [reflexivity|].
        intros (_ & _ & [mm Hmm]). rewrite Hmm in E2. discriminate E2.
    + split; [unfold same_annotations; cbn; tauto|].
      split; [reflexivity|]. split; [reflexivity|]. split; [discriminate|].
      intros h' Hh'. injection Hh' as <-.
      split; [exact Hin|]. split; [exact Hid|]. split; [reflexivity|].
      intros ([fl Hfl] & _). rewrite Hfl in E1. discriminate E1.
  - cbn [final]. split; [apply same_annotations_refl|].
    split; [reflexivity|]. split; [reflexivity|]. split; [reflexivity|].
    intros h Hh. discriminate Hh.
Qed.

Lemma openHymnDetail_sets_current_hymn_witness :
  let st := annotated_state in
  let o := openHymnDetail 3 None None TextRejected st in
  exists st',
    o = Done st' /\ currentHymn (final o) = nth_error sampleHymns 2 /\
    lyricsCache st' !! 3%Z = Some "Great is Thy faithfulness, O God my Father; ...".
Proof.
  intros st o.
  destruct (openHymnDetail_sets_current_hymn 3 None None TextRejected st)
    as (_ & _ & _ & _ & H).
  destruct (H _ eq_refl) as (_ & _ & H3 & H4).
  destruct H4 as (st' & H5 & H6).
  - repeat split; eexists; reflexivity.
  - exists st'. split; [exact H5|]. split; [exact H3|]. exact H6.
Defined.

(** X17. A note typed after opening a hymn is stored under that hymn's id: on
    a store of the expected shapes, opening an id of the catalog and then
    saving a text that is not blank leaves the trimmed text as the NoteMap
    entry of that id, persisted in the notes slot. *)
Theorem note_is_stored_under_opened_hymn :
  forall (id : Z) (lyricsFile lyricsUrl : option string) (net : text_response)
         (st : state) (text : string) (h : hymn),
    well_shaped st ->
    find (fun h => (hymn_id h =? id)%Z) (hymns st) = Some h ->
    trim text <> "" ->
    exists st1 st2 nm2,
      openHymnDetail id lyricsFile lyricsUrl net st = Done st1 /\
      saveNote (set_notesTextarea text st1) = Done st2 /\
      notes st2 = VObj nm2 /\
      obj_get (Z_to_string id) nm2 = Some (VStr (trim text)) /\
      localStorage st2 !! "notes" = Some (JSON_stringify (VObj nm2)).
Proof.
  intros id f u net st text h ([fl Hf] & [nm Hn] & [mm Hm]) Hfind Htext.
  pose proof (find_some _ _ Hfind) as [_ Hid]. apply Z.eqb_eq in Hid.
  assert (Ho : openHymnDetail id f u net st =
               Done (set_lyricsCache
                       (snd (fetchLyricsIfNeeded (Some h) f u net (lyricsCache st)))
                       (set_currentHymn (Some h) st))).
  { unfold openHymnDetail. rewrite Hfind. cbn [favorites moods set_currentHymn].
    rewrite Hf, Hm. reflexivity. }
  rewrite Ho.
  exists (set_lyricsCache
            (snd (fetchLyricsIfNeeded (Some h) f u net (lyricsCache st)))
            (set_currentHymn (Some h) st)).
  match goal with |- context [saveNote ?s] => set (s1 := s) end.
  destruct (saveNote_step s1 h nm fl eq_refl Hn Hf)
    as (st2 & Hs & Hn2 & _ & Hl & _).
  cbn [notesTextarea s1 set_notesTextarea] in Hn2, Hl.
  destruct (String.eqb_spec (trim text) ""); [contradiction|].
  eexists st2, _. split; [reflexivity|]. split; [exact Hs|]. split; [exact Hn2|].
  split.
  - rewrite <- Hid. now rewrite obj_get_set, String.eqb_refl.
  - rewrite Hl. apply lookup_insert_eq.
Qed.

Lemma note_is_stored_under_opened_hymn_witness :
  exists st1 st2 nm2,
    openHymnDetail 2 None None TextRejected annotated_state = Done st1 /\
    saveNote (set_notesTextarea " sing this " st1) = Done st2 /\
    notes st2 = VObj nm2 /\
    obj_get "2" nm2 = Some (VStr "sing this").
Proof.
  assert (W : well_shaped annotated_state) by (repeat split; eexists; reflexivity).
  assert (T : trim " sing this " <> "") by discriminate.
  destruct (note_is_stored_under_opened_hymn 2 None None TextRejected
              annotated_state " sing this " _ W eq_refl T)
    as (st1 & st2 & nm2 & H1 & H2 & H3 & H4 & _).
  exists st1, st2, nm2. repeat split; assumption.
Defined.

(** ** Notes: the notes page and the invariant *)

Lemma string_of_uint_inj (d d' : Decimal.uint) :
  NilEmpty.string_of_uint d = NilEmpty.string_of_uint d' -> d = d'.
Proof.
  intros H. apply (f_equal NilEmpty.uint_of_string) in H.
  rewrite !NilEmpty.usu in H. congruence.
Qed.

Lemma N_to_string_inj (a b : N) : N_to_string a = N_to_string b -> a = b.
Proof.
  unfold N_to_string. intros H. apply string_of_uint_inj in H.
  now apply Unsigned.to_uint_inj.
Qed.

Lemma N_to_string_no_minus (p : positive) (r : string) :
  N_to_string (Npos p) <> String "-" r.
Proof.
  destruct (N_to_string_pos p) as (c & r' & E & Hc & _). rewrite E.
  intros H. injection H as -> _. discriminate Hc.
Qed.

Lemma Z_to_string_inj (a b : Z) : Z_to_string a = Z_to_string b -> a = b.
Proof.
  destruct a as [|p|p], b as [|q|q]; cbn [Z_to_string]; intros H;
    try reflexivity.
  - change "0" with (N_to_string 0) in H. apply N_to_string_inj in H. discriminate.
  - discriminate.
  - change "0" with (N_to_string 0) in H. apply N_to_string_inj in H. discriminate.
  - apply N_to_string_inj in H. congruence.
  - now apply N_to_string_no_minus in H.
  - discriminate.
  - symmetry in H. now apply N_to_string_no_minus in H.
  - injection H as H. apply N_to_string_inj in H. congruence.
Qed.

Lemma saveNote_shown_notes (st : state) (h : hymn) (m : props) (fl : list value) :
  currentHymn st = Some h -> notes st = VObj m -> favorites st = VArr fl ->
  let k := Z_to_string (hymn_id h) in
  let text := trim (notesTextarea st) in
  let m' := if String.eqb text "" then obj_delete k m else obj_set k (VStr text) m in
  exists st',
    saveNote st = Done st' /\
    content_ids (shown_notes st') =
      map (fun x => Z_to_string (hymn_id x))
        (List.filter (fun x => opt_truthy (obj_get (Z_to_string (hymn_id x)) m'))
           (hymns st)).
Proof.
  intros Hc Hn Hf k text m'. unfold saveNote. rewrite Hc, Hn.
  fold text. fold k.
  assert (E : (if negb (String.eqb text "")
               then set_item (VObj m) (hymn_id h) (VStr text)
               else delete_item (VObj m) (hymn_id h)) = Ok (VObj m')).
  { unfold m'. destruct (String.eqb text ""); reflexivity. }
  rewrite E. cbn [lift].
  match goal with |- context [updateNotesDisplay ?s] => set (st3 := s) end.
  rewrite (updateNotesDisplay_obj st3 fl m')
    by (subst st3; cbn; first [assumption | reflexivity]).
  cbn [obind].
  match goal with |- context [updateHymnCard _ ?s] => set (st4 := s) end.
  destruct (updateHymnCard_arr (hymn_id h) st4 fl) as (st' & Hu & He);
    [subst st4 st3; cbn; first [assumption | reflexivity]|].
  exists st'. split; [exact Hu|].
  pose proof (updateHymnCard_content_ids (hymn_id h) st4 notesContainer) as Hi.
  rewrite Hu in Hi. cbn [final shown] in Hi. rewrite Hi.
  subst st4. cbn [set_shown shown_notes]. apply content_ids_content_of.
Qed.

(** X18. Saving a note decides whether the hymn is on the notes page: with a
    hymn of the catalog open, a mapping as NoteMap and an array of
    favorites, after [saveNote] the notes container has a card for the hymn
    exactly when the trimmed text is not empty, and a hymn with another id has
    a card exactly when it had a (truthy) note before. *)
Theorem saveNote_updates_notes_page :
  forall (st : state) (h : hymn) (m : props) (fl : list value),
    currentHymn st = Some h -> notes st = VObj m -> favorites st = VArr fl ->
    In h (hymns st) ->
    exists st',
      saveNote st = Done st' /\
      (In (Z_to_string (hymn_id h)) (content_ids (shown_notes st')) <->
       trim (notesTextarea st) <> "") /\
      (forall h', In h' (hymns st) -> hymn_id h' <> hymn_id h ->
         (In (Z_to_string (hymn_id h')) (content_ids (shown_notes st')) <->
          opt_truthy (obj_get (Z_to_string (hymn_id h')) m) = true)).
Proof.
  intros st h m fl Hc Hn Hf Hin.
  destruct (saveNote_shown_notes st h m fl Hc Hn Hf) as (st' & Hs & Hi).
  exists st'. split; [exact Hs|]. rewrite Hi. clear Hi Hs.
  set (k := Z_to_string (hymn_id h)).
  set (text := trim (notesTextarea st)).
  set (m' := if String.eqb text "" then obj_delete k m else obj_set k (VStr text) m).
  assert (G : forall x, In x (hymns st) ->
    (In (Z_to_string (hymn_id x))
        (map (fun y => Z_to_string (hymn_id y))
           (List.filter (fun y => opt_truthy (obj_get (Z_to_string (hymn_id y)) m'))
              (hymns st)))
     <-> opt_truthy (obj_get (Z_to_string (hymn_id x)) m') = true)).
  { intros x Hx. rewrite in_map_iff. split.
    - intros (y & Hy & Hyin). apply filter_In in Hyin as [_ Ht].
      now rewrite <- Hy.
    - intros Ht. exists x. split; [reflexivity|]. apply filter_In. auto. }
  split.
  - pose proof (G h Hin) as Gh. fold k in Gh. rewrite Gh. unfold m'.
    destruct (String.eqb_spec text "") as [E|E].
    + rewrite obj_get_delete, String.eqb_refl. cbn. split; [discriminate|contradiction].
    + rewrite obj_get_set, String.eqb_refl. cbn.
      destruct (String.eqb_spec text ""); [contradiction|]. cbn. tauto.
  - intros h' Hin' Hne. rewrite (G h' Hin').
    assert (Hk : String.eqb k (Z_to_string (hymn_id h')) = false).
    { apply String.eqb_neq. intros E. apply Z_to_string_inj in E. congruence. }
    unfold m'. destruct (String.eqb text "").
    + now rewrite obj_get_delete, Hk.
    + now rewrite obj_get_set, Hk.
Qed.

Lemma saveNote_updates_notes_page_witness :
  let h := bare_hymn 3 "Three" in
  let st :=
    set_notesTextarea "   "
      (set_currentHymn (Some h) (set_hymns [bare_hymn 1 "One"; h] annotated_state)) in
  exists st',
    saveNote st = Done st' /\
    (In "3" (content_ids (shown_notes st')) <-> trim "   " <> "").
Proof.
  intros h st.
  destruct (saveNote_updates_notes_page st h [("3", VStr "my note")] []
              eq_refl eq_refl eq_refl) as (st' & H1 & H2 & _).
  - right. left. reflexivity.
  - exists st'. split; [exact H1|exact H2].
Defined.

Lemma trimEnd_idem (s : string) : trimEnd (trimEnd s) = trimEnd s.
Proof.
  induction s as [|c s IH]; [reflexivity|]. cbn [trimEnd].
  destruct (trimEnd s) as [|x r] eqn:E.
  - destruct (is_space c) eqn:Hc; [reflexivity|]. cbn. now rewrite Hc.
  - cbn [trimEnd]. cbn [trimEnd] in IH. now rewrite IH.
Qed.

Lemma trimStart_trimEnd (s : string) :
  trimStart s = s -> trimStart (trimEnd s) = trimEnd s.
Proof.
  destruct s as [|c s]; [reflexivity|]. cbn [trimStart trimEnd].
  destruct (is_space c) eqn:Hc.
  - intros H. exfalso.
    assert (L : forall t, String.length (trimStart t) <= String.length t).
    { induction t as [|y t IHt]; [cbn; lia|]. cbn. destruct (is_space y); cbn; lia. }
    pose proof (L s) as Hl. rewrite H in Hl. cbn in Hl. lia.
  - intros _. destruct (trimEnd s); cbn; now rewrite Hc.
Qed.

Lemma trimStart_idem (s : string) : trimStart (trimStart s) = trimStart s.
Proof.
  induction s as [|c s IH]; [reflexivity|]. cbn.
  destruct (is_space c) eqn:Hc; [exact IH|]. cbn. now rewrite Hc.
Qed.

Lemma trim_idem (s : string) : trim (trim s) = trim s.
Proof.
  unfold trim.
  rewrite (trimStart_trimEnd (trimStart s)) by apply trimStart_idem.
  apply trimEnd_idem.
Qed.

(** X19. [saveNote] keeps the NoteMap clean: if every note is a non-empty
    trimmed string before the call, the same holds after it, so the map never
    holds an empty or blank note. Trimming is idempotent. *)
Theorem saveNote_keeps_notes_trimmed :
  forall (st : state) (h : hymn) (m : props) (fl : list value),
    currentHymn st = Some h -> notes st = VObj m -> favorites st = VArr fl ->
    notes_trimmed m ->
    (forall s, trim (trim s) = trim s) /\
    exists st' m',
      saveNote st = Done st' /\ notes st' = VObj m' /\ notes_trimmed m'.
Proof.
  intros st h m fl Hc Hn Hf Hinv. split; [apply trim_idem|].
  destruct (saveNote_step st h m fl Hc Hn Hf) as (st' & Hs & Hn' & _).
  eexists st', _. split; [exact Hs|]. split; [exact Hn'|].
  unfold notes_trimmed in *.
  destruct (String.eqb_spec (trim (notesTextarea st)) "") as [E|E].
  - unfold obj_delete. clear -Hinv.
    induction Hinv as [|x l Hx _ IH]; cbn; [constructor|].
    destruct (negb _); [constructor|]; assumption.
  - apply (Forall_values_obj_set
             (fun v => exists s, v = VStr s /\ s <> "" /\ trim s = s));
      [|exact Hinv].
    eexists. split; [reflexivity|]. split; [exact E|apply trim_idem].
Qed.

Lemma saveNote_keeps_notes_trimmed_witness :
  let st :=
    set_notesTextarea " amen  "
      (set_currentHymn (Some (bare_hymn 1 "One")) annotated_state) in
  exists st' m',
    saveNote st = Done st' /\ notes st' = VObj m' /\ notes_trimmed m'.
Proof.
  intros st.
  refine (proj2 (saveNote_keeps_notes_trimmed st (bare_hymn 1 "One")
                   [("3", VStr "my note")] [] eq_refl eq_refl eq_refl _)).
  repeat constructor. exists "my note". repeat split. discriminate.
Defined.

(** ** Import of a well-formed backup *)

Lemma obj_get_wf (k : string) (m : props) (v : value) :
  wf_value (VObj m) -> obj_get k m = Some v -> wf_value v.
Proof.
  rewrite wf_value_obj. intros [_ H]. induction H as [|[k' v'] m Hx _ IH]; cbn;
    [discriminate|].
  destruct (String.eqb k' k); [|exact IH]. intros E. injection E as <-. exact Hx.
Qed.

Lemma get_field_wf (data : value) (name : string) (v : value) :
  wf_value data -> get_field data name = Ok (Some v) -> wf_value v.
Proof.
  destruct data; cbn; try discriminate. intros Hw H. injection H as H.
  eapply obj_get_wf; eassumption.
Qed.

(** X20. A well-formed backup is restored exactly, whatever the store held
    before: when the file parses to a document whose favorites field is an
    array and whose notes and moods fields are mappings, [importData] makes
    these three values the live collections, reports "Data imported", and
    leaves the storage in sync with them, so that a restart loads the
    imported collections. *)
Theorem importData_restores_backup :
  forall (text : string) (st : state) (data : value) (fl : list value)
         (nm mm : props),
    JSON_parse text = Ok data ->
    get_field data "favorites" = Ok (Some (VArr fl)) ->
    get_field data "notes" = Ok (Some (VObj nm)) ->
    get_field data "moods" = Ok (Some (VObj mm)) ->
    let st' := importData text st in
    favorites st' = VArr fl /\ notes st' = VObj nm /\ moods st' = VObj mm /\
    toasts st' = toasts st ++ ["Data imported"] /\
    hymns st' = hymns st /\
    loadPersisted (localStorage st') = Ok (VArr fl, VObj nm, VObj mm).
Proof.
  intros text st data fl nm mm Hp Hf Hn Hm st'.
  destruct (importData_annotations text st data _ _ _ Hp Hf Hn Hm)
    as (E1 & E2 & E3 & E4).
  fold st' in E1, E2, E3, E4.
  cbn [opt_or js_or truthy Array_isArray] in E1, E2, E3, E4.
  pose proof (JSON_parse_wf _ _ Hp) as Hw.
  split; [exact E1|]. split; [exact E2|]. split; [exact E3|].
  split; [|split].
  - unfold st', importData, import_try. rewrite Hp. cbn [lift].
    rewrite Hf. cbn [lift]. rewrite Hn. cbn [lift]. rewrite Hm. cbn [lift].
    cbn [Array_isArray opt_or js_or truthy].
    match goal with |- context [updateFavoritesDisplay ?s] => set (st6 := s) end.
    rewrite (updateFavoritesDisplay_arr st6 fl) by reflexivity. cbn [obind].
    match goal with |- context [updateNotesDisplay ?s] => set (st7 := s) end.
    rewrite (updateNotesDisplay_obj st7 fl nm) by reflexivity. cbn [obind].
    match goal with |- context [updateMoodDisplay ?s] => set (st8 := s) end.
    destruct (updateMoodDisplay_obj st8 fl mm) as [x Hx]; [reflexivity..|].
    rewrite Hx. cbn [obind].
    match goal with |- context [renderHymnsList _ _ ?s] => set (st9 := s) end.
    rewrite (renderHymnsList_arr fl (hymns st9) hymnsContainer st9) by reflexivity.
    cbn [obind]. reflexivity.
  - unfold st', importData, import_try. rewrite Hp. cbn [lift].
    rewrite Hf. cbn [lift]. rewrite Hn. cbn [lift]. rewrite Hm. cbn [lift].
    cbn [Array_isArray opt_or js_or truthy].
    match goal with |- context [updateFavoritesDisplay ?s] => set (st6 := s) end.
    rewrite (updateFavoritesDisplay_arr st6 fl) by reflexivity. cbn [obind].
    match goal with |- context [updateNotesDisplay ?s] => set (st7 := s) end.
    rewrite (updateNotesDisplay_obj st7 fl nm) by reflexivity. cbn [obind].
    match goal with |- context [updateMoodDisplay ?s] => set (st8 := s) end.
    destruct (updateMoodDisplay_obj st8 fl mm) as [x Hx]; [reflexivity..|].
    rewrite Hx. cbn [obind].
    match goal with |- context [renderHymnsList _ _ ?s] => set (st9 := s) end.
    rewrite (renderHymnsList_arr fl (hymns st9) hymnsContainer st9) by reflexivity.
    cbn [obind]. reflexivity.
  - rewrite E4. apply loadPersisted_after_save; try reflexivity;
      eapply get_field_wf; eassumption.
Qed.

Lemma importData_restores_backup_witness :
  let st' := importData (dq "{'favorites':[5],'notes':{'5':'x'},'moods':{}}")
               annotated_state in
  favorites st' = VArr [VNum 5] /\ notes st' = VObj [("5", VStr "x")] /\
  moods st' = VObj [] /\ toasts st' = ["Data imported"].
Proof.
  intros st'.
  destruct (importData_restores_backup
              (dq "{'favorites':[5],'notes':{'5':'x'},'moods':{}}") annotated_state
              (VObj [("favorites", VArr [VNum 5]); ("notes", VObj [("5", VStr "x")]);
                     ("moods", VObj [])])
              [VNum 5] [("5", VStr "x")] []
              ltac:(vm_compute; reflexivity) eq_refl eq_refl eq_refl)
    as (H1 & H2 & H3 & H4 & _).
  repeat split; assumption.
Defined.
